(** * The progressive streaming edit session engine

  A shallow embedding of [ChatEditSessionService], [LiveStrategy] and
  [CSChatEditsDiffDecorations] (the csChat edit session service of the
  workbench), together with the properties of the engine that its
  specification states.

  JavaScript numbers that hold line numbers, counters and version stamps
  are integers in this code; they are embedded as [Z].  A [Map] keyed by
  strings is a [gmap string]; a [Map] keyed by [URI] objects compares its
  keys by object identity, so it is a [gmap] over the identity of the key.
  Objects that the code reaches through references (text models, editors,
  response view models) live in an explicit store. *)

From Stdlib Require Import ZArith Ascii String List Bool Lia DecimalString.
From stdpp Require Import gmap strings list.

Local Open Scope string_scope.
Local Open Scope list_scope.
Local Open Scope Z_scope.

(** ** JavaScript and [vs/nls] primitives used by the summary message *)

Module JS.

(** [Number.MAX_VALUE], the largest finite double; it is an integer. *)
Definition MAX_VALUE : Z := (2 ^ 53 - 1) * 2 ^ 971.

(** [String(n)] for an integer [n] (below 1e21 JavaScript prints an
    integer in plain decimal notation, with a minus sign when negative). *)
Definition toString (n : Z) : string :=
  NilZero.string_of_int (Z.to_int n).

Definition is_digit (c : ascii) : bool :=
  let n := nat_of_ascii c in ((48 <=? n) && (n <=? 57))%nat.

(** [args[index]] turned into text; a missing argument prints as
    [undefined]. *)
Definition arg_at (args : list string) (index : ascii) : string :=
  match args !! (nat_of_ascii index - 48)%nat with
  | Some a => a
  | None => "undefined"
  end.

(** The scanner behind [message.replace(/\{(\d+)\}/g, ...)]: [pending] is
    [None] outside a placeholder and [Some ds] after an opening brace
    followed by the digits [ds]; the argument is chosen by the first digit.
    Text that began like a placeholder and is not one is kept. *)
Fixpoint replace_placeholders (args : list string) (pending : option string)
    (s : string) : string :=
  match s, pending with
  | EmptyString, None => EmptyString
  | EmptyString, Some ds => String "{"%char ds
  | String c rest, None =>
      if Ascii.eqb c "{"%char
      then replace_placeholders args (Some EmptyString) rest
      else String c (replace_placeholders args None rest)
  | String c rest, Some ds =>
      if is_digit c then
        replace_placeholders args
          (Some (String.append ds (String c EmptyString))) rest
      else
        let unmatched :=
          String.append (String "{"%char ds)
            (if Ascii.eqb c "{"%char
             then replace_placeholders args (Some EmptyString) rest
             else String c (replace_placeholders args None rest)) in
        match ds with
        | String d _ =>
            if Ascii.eqb c "}"%char
            then String.append (arg_at args d)
                   (replace_placeholders args None rest)
            else unmatched
        | EmptyString => unmatched
        end
  end.

(** [localize(key, message, ...args)] in the default locale: the English
    [message] with its [{i}] placeholders filled in; with no arguments the
    message is returned as it is. *)
Definition localize (key message : string) (args : list string) : string :=
  match args with
  | [] => message
  | _ => replace_placeholders args None message
  end.

End JS.

(** ** Editor data: positions, ranges, edits, diffs *)

Record IPosition := mkPosition { lineNumber : Z; column : Z }.

Record IRange := mkRange {
  startLineNumber : Z;
  startColumn : Z;
  endLineNumber : Z;
  endColumn : Z
}.

Module Range.
Definition getEndPosition (r : IRange) : IPosition :=
  mkPosition (endLineNumber r) (endColumn r).

Definition isEmpty (r : IRange) : bool :=
  (startLineNumber r =? endLineNumber r) && (startColumn r =? endColumn r).
End Range.

Module Position.
(** [a.isBefore(b)]: strictly before, line first and then column. *)
Definition isBefore (a b : IPosition) : bool :=
  if lineNumber a <? lineNumber b then true
  else if lineNumber b <? lineNumber a then false
  else column a <? column b.
End Position.

(** A [URI] object: [uri_ref] is the identity of the object (what a [Map]
  keyed by [URI] compares), [uri_str] is what [toString()] returns. *)
Record URI := mkURI { uri_ref : nat; uri_str : string }.

Record Location := mkLocation { loc_uri : URI; loc_range : IRange }.

(** [ISingleEditOperation]: [text] is [string | null]. *)
Record ISingleEditOperation := mkEdit {
  edit_range : IRange;
  edit_text : option string
}.

(** [IValidEditOperation], the inverse edit an applied edit reports. *)
Record IValidEditOperation := mkValidEdit {
  valid_range : IRange;
  valid_text : string
}.

(** A half-open range of lines, [LineRange] of the diff provider. *)
Module LineRange.
Record t := mk { startLineNumber : Z; endLineNumberExclusive : Z }.
End LineRange.

(** One diff hunk; [changedLineCount] is a property of the mapping class, it
  is taken here as the value the diff provider reports. *)
Record LineRangeMapping := mkMapping {
  original : LineRange.t;
  modified : LineRange.t;
  changedLineCount : Z
}.

Record IDocumentDiff := mkDiff { changes : list LineRangeMapping }.

Record IChatEditSummary := mkSummary {
  summary_location : Location;
  summary_text : string
}.

(** ** The host editor

  The text buffer, the diff algorithm and the word counter belong to the
  editor platform; the engine only calls them.  They are the methods of
  an interface, over the type [Content] of document texts. *)

Class Host := {
  Content : Type;
  (** [model.pushEditOperations(_, edits, _)]: the new text, and the inverse
      edits handed to the cursor state computer. *)
  pushEditOperations :
    Content -> list ISingleEditOperation -> Content * list IValidEditOperation;
  (** [editorWorkerService.computeDiff(original, modified, ...)], [null] when
      no diff could be computed. *)
  computeDiff : Content -> Content -> option IDocumentDiff;
  (** [countWords] of csChatWordCounter. *)
  countWords : string -> Z
}.

(** *** Text models

  [ITextModel] as the engine uses it: the text, the version stamps and the
  undo stack.  An undo element holds the text and the alternative version
  to go back to; edits pushed while the top element is open join it, and
  [pushStackElement] closes it.  [tm_log] records, oldest first, the
  operations performed on the model. *)

Inductive ModelEvent :=
| MPushStackElement
| MPushEditOperations (edits : list ISingleEditOperation)
| MUndo.

Section TextModels.
Context `{Host}.

Record UndoElement := mkUndoElement {
    ue_content : Content;
    ue_alternativeVersionId : Z;
    ue_closed : bool
}.

Record TextModel := mkTextModel {
    tm_uri : URI;
    tm_languageId : string;
    tm_content : Content;
    tm_versionId : Z;
    tm_alternativeVersionId : Z;
    tm_undoStack : list UndoElement;
    tm_disposed : bool;
    tm_log : list ModelEvent
}.

Definition set_text (m : TextModel) (c : Content) (version alt : Z)
    (undo : list UndoElement) (ev : ModelEvent) : TextModel :=
  {| tm_uri := tm_uri m; tm_languageId := tm_languageId m;
     tm_content := c; tm_versionId := version;
     tm_alternativeVersionId := alt; tm_undoStack := undo;
     tm_disposed := tm_disposed m; tm_log := tm_log m ++ [ev] |}.

Definition getAlternativeVersionId (m : TextModel) : Z :=
  tm_alternativeVersionId m.

Definition isDisposed (m : TextModel) : bool := tm_disposed m.

Definition canUndo (m : TextModel) : bool :=
  match tm_undoStack m with [] => false | _ :: _ => true end.

(** [model.undo()]: back to the state the top undo element holds. *)
Definition undo (m : TextModel) : TextModel :=
  match tm_undoStack m with
  | [] => m
  | u :: rest =>
      set_text m (ue_content u) (tm_versionId m + 1)
        (ue_alternativeVersionId u) rest MUndo
  end.

(** [model.pushStackElement()], an undo stop. *)
Definition pushStackElement (m : TextModel) : TextModel :=
  let stack :=
    match tm_undoStack m with
    | [] => []
    | u :: rest =>
        mkUndoElement (ue_content u) (ue_alternativeVersionId u) true :: rest
    end in
  set_text m (tm_content m) (tm_versionId m) (tm_alternativeVersionId m)
    stack MPushStackElement.

(** The undo stack once the text is about to change. *)
Definition record_undo (m : TextModel) : list UndoElement :=
  match tm_undoStack m with
  | u :: rest =>
      if ue_closed u then
        mkUndoElement (tm_content m) (tm_alternativeVersionId m) false
          :: u :: rest
      else u :: rest
  | [] => [mkUndoElement (tm_content m) (tm_alternativeVersionId m) false]
  end.

(** The model after an edit operation that produced the text [c]. *)
Definition edited (m : TextModel) (edits : list ISingleEditOperation)
    (c : Content) : TextModel :=
  set_text m c (tm_versionId m + 1) (tm_versionId m + 1) (record_undo m)
    (MPushEditOperations edits).

(** The texts a run of single edits produces, one after the other. *)
Definition apply_sequentially (c : Content)
    (edits : list ISingleEditOperation) : Content :=
  fold_left (fun c e => fst (pushEditOperations c [e])) edits c.

End TextModels.


(** ** [CSChatEditsDiffDecorations] *)

(** [IModelDecorationOptions]; a property that is [undefined] or absent is
    [None]. *)
Record IModelDecorationOptions := mkOptions {
  description : string;
  className : option string;
  showIfCollapsed : option bool
}.

Record IModelDeltaDecoration := mkDelta {
  range : IRange;
  options : IModelDecorationOptions
}.

Record DecorationData := mkData {
  tracking : IModelDeltaDecoration;
  decorating : IModelDecorationOptions
}.

Module CSChatEditsDiffDecorations.

(** [_collection] is what the editor's decoration collection was last set
    to. *)
Record t := mk {
  _collection : list IModelDeltaDecoration;
  _data : list DecorationData;
  _visible : bool
}.

(** [new CSChatEditsDiffDecorations(editor, visible)] *)
Definition create (visible : bool) : t := mk [] [] visible.

Definition visible (d : t) : bool := _visible d.

(** [{ ...res.options, ...d.decorating }]: [d.decorating] is built with all
    of its three keys, so each of them overrides. *)
Definition spread (a b : IModelDecorationOptions) : IModelDecorationOptions :=
  mkOptions (description b) (className b) (showIfCollapsed b).

Definition update (d : t) : t :=
  mk (map (fun x =>
             let res := tracking x in
             if _visible d
             then mkDelta (range res) (spread (options res) (decorating x))
             else res)
          (_data d))
     (_data d) (_visible d).

(** The setter of [visible]. *)
Definition set_visible (value : bool) (d : t) : t :=
  update (mk (_collection d) (_data d) value).

Definition decorationRanges (d : t) : list IRange :=
  map (fun x => range (tracking x)) (_data d).

Definition clear (d : t) : t := mk [] [] (_visible d).

Definition _asDecorationData (edit : IValidEditOperation) : DecorationData :=
  mkData
    (mkDelta (valid_range edit)
       (mkOptions "cschat-edits-inline-diff" None None))
    (mkOptions "cschat-edits-inline-diff"
       (if negb (Range.isEmpty (valid_range edit))
        then Some "cschat-edits-lines-inserted-range" else None)
       (Some true)).

Definition collectEditOperation (op : IValidEditOperation) (d : t) : t :=
  mk (_collection d) (_data d ++ [_asDecorationData op]) (_visible d).

End CSChatEditsDiffDecorations.

(** ** What a strategy is bound to *)

(** [IChatResponseViewModel]: [vm_recorded] lists, oldest first, the calls
    of [recordEdits(codeblockIndex, summary)] on the response.  The index is
    declared a number; the coordinator hands over
    [activeEditCodeblockNumber!], which is [undefined] ([None]) when no code
    block is marked as being edited. *)
Record IChatResponseViewModel := mkResponse {
  vm_id : string;
  vm_sessionId : string;
  vm_recorded : list (option Z * IChatEditSummary)
}.

Definition recordEdits (codeblockIndex : option Z) (summary : IChatEditSummary)
    (r : IChatResponseViewModel) : IChatResponseViewModel :=
  mkResponse (vm_id r) (vm_sessionId r)
    (vm_recorded r ++ [(codeblockIndex, summary)]).

(** What the view of an editor is asked to do. *)
Inductive EditorEvent :=
| EvRevealPositionInCenter (p : IPosition)
| EvCursorState (p : option IPosition).

(** An [ICodeEditor]: its place in [listCodeEditors()], the URI (as text)
    of the model it shows, and the scroll requests and cursor states it was
    given, oldest first.  Its text is that of its model. *)
Record ICodeEditor := mkEditor {
  ed_id : nat;
  ed_model : option string;
  ed_events : list EditorEvent
}.

(** [IConfigurationService]: the boolean settings by name.  A setting that
    is not set reads as [undefined], which every test of this code takes as
    [false]. *)
Record IConfigurationService := mkConfig { cfg_values : gmap string bool }.

Definition getValue (config : IConfigurationService) (key : string) : bool :=
  default false (cfg_values config !! key).

Record IConfigurationChangeEvent := mkConfigEvent {
  affectsConfiguration : string -> bool
}.

(** [ProgressingEditsOptions]: the pacing [duration] in milliseconds and
    the state of the cancellation [token]. *)
Record ProgressingEditsOptions := mkOpts {
  duration : Z;
  isCancellationRequested : bool
}.

(** How an asynchronous method ends. *)
Inductive Completion :=
| Normal
| Throw (error : string).

(** ** [LiveStrategy] *)

Section LiveStrategy.
Context `{Host}.

(** [ICSChatCodeblockTextModels], the buffer pair of one document. *)
Record ICSChatCodeblockTextModels := mkModels {
  textModel0 : TextModel;
  textModelN : TextModel;
  textModelNAltVersion : Z;
  textModelNSnapshotAltVersion : option Z
}.

(** The fields of a [LiveStrategy], with the objects it holds references
    to: the editor edits [textModelN], the live buffer of the pair. *)
Record LiveStrategy := mkStrategy {
  _diffEnabled : bool;
  _diffDecorations : CSChatEditsDiffDecorations.t;
  _store_disposed : bool;
  _editCount : Z;
  _editCodeblockInProgress : option Z;
  _models : ICSChatCodeblockTextModels;
  _editor : ICodeEditor;
  _response : IChatResponseViewModel
}.

Definition with_diffEnabled (b : bool) (s : LiveStrategy) : LiveStrategy :=
  mkStrategy b (_diffDecorations s) (_store_disposed s) (_editCount s)
    (_editCodeblockInProgress s) (_models s) (_editor s) (_response s).

Definition with_decorations (d : CSChatEditsDiffDecorations.t)
    (s : LiveStrategy) : LiveStrategy :=
  mkStrategy (_diffEnabled s) d (_store_disposed s) (_editCount s)
    (_editCodeblockInProgress s) (_models s) (_editor s) (_response s).

Definition with_editCount (n : Z) (s : LiveStrategy) : LiveStrategy :=
  mkStrategy (_diffEnabled s) (_diffDecorations s) (_store_disposed s) n
    (_editCodeblockInProgress s) (_models s) (_editor s) (_response s).

Definition with_modelN (m : TextModel) (s : LiveStrategy) : LiveStrategy :=
  mkStrategy (_diffEnabled s) (_diffDecorations s) (_store_disposed s)
    (_editCount s) (_editCodeblockInProgress s)
    (mkModels (textModel0 (_models s)) m (textModelNAltVersion (_models s))
       (textModelNSnapshotAltVersion (_models s)))
    (_editor s) (_response s).

Definition with_editor_event (ev : EditorEvent) (s : LiveStrategy)
    : LiveStrategy :=
  mkStrategy (_diffEnabled s) (_diffDecorations s) (_store_disposed s)
    (_editCount s) (_editCodeblockInProgress s) (_models s)
    (mkEditor (ed_id (_editor s)) (ed_model (_editor s))
       (ed_events (_editor s) ++ [ev]))
    (_response s).

Definition with_editor (e : ICodeEditor) (s : LiveStrategy) : LiveStrategy :=
  mkStrategy (_diffEnabled s) (_diffDecorations s) (_store_disposed s)
    (_editCount s) (_editCodeblockInProgress s) (_models s) e (_response s).

Definition with_response (r : IChatResponseViewModel) (s : LiveStrategy)
    : LiveStrategy :=
  mkStrategy (_diffEnabled s) (_diffDecorations s) (_store_disposed s)
    (_editCount s) (_editCodeblockInProgress s) (_models s) (_editor s) r.

(** The constructor: the visibility of the decorations starts as the
    configured value of [inlineChat.showDiff], and the strategy subscribes to
    configuration changes. *)
Definition new_LiveStrategy (editCodeblockInProgress : option Z)
    (models : ICSChatCodeblockTextModels) (editor : ICodeEditor)
    (response : IChatResponseViewModel) (configService : IConfigurationService)
    : LiveStrategy :=
  let diffEnabled := getValue configService "inlineChat.showDiff" in
  mkStrategy diffEnabled
    (CSChatEditsDiffDecorations.set_visible diffEnabled
       (CSChatEditsDiffDecorations.create diffEnabled))
    false 0 editCodeblockInProgress models editor response.

Definition _doToggleDiff (s : LiveStrategy) : LiveStrategy :=
  with_decorations
    (CSChatEditsDiffDecorations.set_visible (_diffEnabled s)
       (_diffDecorations s)) s.

(** The listener the constructor registers on [onDidChangeConfiguration];
    [configService] is the configuration at the time of the event.  Once the
    store is disposed the listener is gone. *)
Definition onDidChangeConfiguration (e : IConfigurationChangeEvent)
    (configService : IConfigurationService) (s : LiveStrategy) : LiveStrategy :=
  if _store_disposed s then s
  else if affectsConfiguration e "inlineChat.showDiff" then
    _doToggleDiff (with_diffEnabled (negb (_diffEnabled s)) s)
  else s.

Definition dispose (s : LiveStrategy) : LiveStrategy :=
  let s1 :=
    with_decorations (CSChatEditsDiffDecorations.clear (_diffDecorations s))
      s in
  mkStrategy (_diffEnabled s1) (_diffDecorations s1) true (_editCount s1)
    (_editCodeblockInProgress s1) (_models s1) (_editor s1) (_response s1).

(** [this._editor.pushUndoStop()] *)
Definition pushUndoStop (s : LiveStrategy) : LiveStrategy :=
  with_modelN (pushStackElement (textModelN (_models s))) s.

Definition apply (s : LiveStrategy) : LiveStrategy :=
  let s1 := if 0 <? _editCount s then pushUndoStop s else s in
  with_decorations (CSChatEditsDiffDecorations.clear (_diffDecorations s1)) s1.

(** The loop of [_undoModelUntil]; [None] when [fuel] iterations were not
    enough to leave it. *)
Fixpoint _undoModelUntil_loop (fuel : nat) (model : TextModel)
    (targetAltVersion : Z) : option TextModel :=
  match fuel with
  | O => None
  | S fuel' =>
      if (targetAltVersion <? getAlternativeVersionId model) && canUndo model
      then _undoModelUntil_loop fuel' (undo model) targetAltVersion
      else Some model
  end.

(** Every undo takes one element off the undo stack, so the loop is given
    one iteration more than the stack has elements. *)
Definition _undoModelUntil (model : TextModel) (targetAltVersion : Z)
    : option TextModel :=
  _undoModelUntil_loop (S (length (tm_undoStack model))) model targetAltVersion.

Definition cancel (s : LiveStrategy) : option LiveStrategy :=
  let modelN := textModelN (_models s) in
  if isDisposed modelN then Some s
  else
    let targetAltVersion :=
      match textModelNSnapshotAltVersion (_models s) with
      | Some v => v
      | None => textModelNAltVersion (_models s)
      end in
    match _undoModelUntil modelN targetAltVersion with
    | None => None
    | Some modelN' =>
        let s1 := with_modelN modelN' s in
        Some (with_decorations
                (CSChatEditsDiffDecorations.clear (_diffDecorations s1)) s1)
    end.

Definition undoChanges (altVersionId : Z) (s : LiveStrategy)
    : option LiveStrategy :=
  match _undoModelUntil (textModelN (_models s)) altVersionId with
  | None => None
  | Some m => Some (with_modelN m s)
  end.

(** The cursor state computer: every inverse edit is collected as a
    decoration, and the cursor goes to the end position that lies last. *)
Definition cursorStateComputerAndInlineDiffCollection
    (undoEdits : list IValidEditOperation) (d : CSChatEditsDiffDecorations.t)
    : CSChatEditsDiffDecorations.t * option IPosition :=
  fold_left
    (fun acc edit =>
       let endPosition := Range.getEndPosition (valid_range edit) in
       let last :=
         match snd acc with
         | None => endPosition
         | Some l => if Position.isBefore l endPosition then endPosition else l
         end in
       (CSChatEditsDiffDecorations.collectEditOperation edit (fst acc),
        Some last))
    undoEdits (d, None).

(** [this._editor.executeEdits('inline-chat-live', edits, computer)] *)
Definition executeEdits (edits : list ISingleEditOperation) (s : LiveStrategy)
    : LiveStrategy :=
  let modelN := textModelN (_models s) in
  let pushed := pushEditOperations (tm_content modelN) edits in
  let computed :=
    cursorStateComputerAndInlineDiffCollection (snd pushed)
      (_diffDecorations s) in
  with_editor_event (EvCursorState (snd computed))
    (with_decorations (fst computed)
       (with_modelN (edited modelN edits (fst pushed)) s)).

(** [makeChanges(edits)].  On the first edit of the instance, [edits[0]] is
    read after the undo stop is pushed: with no edit at all the method
    throws there. *)
Definition makeChanges (edits : list ISingleEditOperation) (s : LiveStrategy)
    : LiveStrategy * Completion :=
  let s1 := with_editCount (_editCount s + 1) s in
  if _editCount s1 =? 1 then
    let s2 := pushUndoStop s1 in
    match edits with
    | [] => (s2, Throw "TypeError: Cannot read properties of undefined")
    | first :: _ =>
        let firstEditRange := edit_range first in
        let firstEditPosition :=
          mkPosition (startLineNumber firstEditRange)
            (startColumn firstEditRange) in
        (executeEdits edits
           (with_editor_event (EvRevealPositionInCenter firstEditPosition) s2),
         Normal)
    end
  else (executeEdits edits s1, Normal).

(** Modelled from the spec: [performAsyncTextEdit] and [asProgressiveEdit]
    of inlineCSChatStrategies are missing.  The edit is revealed at
    [wordCount / durationInSec] words per second, which paces the reveal and
    does not change what is revealed; a reveal that runs to its end leaves
    the buffer as the edit itself does, and one whose token is cancelled
    before it starts reveals nothing.  The reveal of one edit is one step of
    this model. *)
Definition performAsyncTextEdit (model : TextModel)
    (edit : ISingleEditOperation) (wordCount durationMs : Z) (cancelled : bool)
    : TextModel * list IValidEditOperation :=
  if cancelled then (model, [])
  else
    let pushed := pushEditOperations (tm_content model) [edit] in
    (edited model [edit] (fst pushed), snd pushed).

(** One iteration of the loop of [makeProgressiveChanges]. *)
Definition revealEdit (opts : ProgressingEditsOptions) (s : LiveStrategy)
    (edit : ISingleEditOperation) : LiveStrategy :=
  let wordCount := countWords (default EmptyString (edit_text edit)) in
  let revealed :=
    performAsyncTextEdit (textModelN (_models s)) edit wordCount
      (duration opts) (isCancellationRequested opts) in
  let computed :=
    cursorStateComputerAndInlineDiffCollection (snd revealed)
      (_diffDecorations s) in
  with_decorations (fst computed) (with_modelN (fst revealed) s).

Definition makeProgressiveChanges (edits : list ISingleEditOperation)
    (opts : ProgressingEditsOptions) (s : LiveStrategy) : LiveStrategy :=
  let s1 := with_editCount (_editCount s + 1) s in
  let s2 := if _editCount s1 =? 1 then pushUndoStop s1 else s1 in
  fold_left (revealEdit opts) edits s2.

(** The message half of [_updateSummaryMessage]. *)
Definition linesChanged (mappings : list LineRangeMapping) : Z :=
  fold_left (fun n change => n + changedLineCount change) mappings 0.

Definition summaryMessage (mappings : list LineRangeMapping) : string :=
  let n := linesChanged mappings in
  if n =? 0 then JS.localize "lines.0" "Nothing changed" []
  else if n =? 1 then JS.localize "lines.1" "Changed 1 line" []
  else JS.localize "lines.N" "Changed {0} lines" [JS.toString n].

(** The range half: the callback of the [reduce] over the modified sides
    of the hunks, and the [reduce] itself. *)
Definition reduce_step (prev : IRange) (curr : LineRange.t) : IRange :=
  mkRange (Z.min (startLineNumber prev) (LineRange.startLineNumber curr)) 1
    (Z.max (endLineNumber prev) (LineRange.endLineNumberExclusive curr)) 1.

Definition summaryRange (mappings : list LineRangeMapping) : IRange :=
  fold_left reduce_step (map modified mappings) (mkRange JS.MAX_VALUE 1 0 1).

(** [diff?.changes ?? []] *)
Definition hunks (diff : option IDocumentDiff) : list LineRangeMapping :=
  match diff with Some d => changes d | None => [] end.

Definition _updateSummaryMessage (uri : URI) (diff : option IDocumentDiff)
    (s : LiveStrategy) : LiveStrategy :=
  let mappings := hunks diff in
  let message := summaryMessage mappings in
  if (0 <? length mappings)%nat then
    let editSummary :=
      mkSummary (mkLocation uri (summaryRange mappings)) message in
    with_response
      (recordEdits (_editCodeblockInProgress s) editSummary (_response s)) s
  else s.

Definition renderChanges (s : LiveStrategy) : LiveStrategy :=
  let diff :=
    computeDiff (tm_content (textModel0 (_models s)))
      (tm_content (textModelN (_models s))) in
  let s1 := _updateSummaryMessage (tm_uri (textModel0 (_models s))) diff s in
  with_decorations (CSChatEditsDiffDecorations.update (_diffDecorations s1)) s1.

Definition getEditRangesInProgress (s : LiveStrategy) : list Location :=
  map (fun r => mkLocation (tm_uri (textModel0 (_models s))) r)
    (CSChatEditsDiffDecorations.decorationRanges (_diffDecorations s)).

(** A run of calls of the two editing methods on one instance.  A call
    that throws rejects its own promise only; the instance stays in use. *)
Inductive EditCall :=
| CallMakeChanges (edits : list ISingleEditOperation)
| CallMakeProgressiveChanges (edits : list ISingleEditOperation)
    (opts : ProgressingEditsOptions).

Definition run_call (s : LiveStrategy) (c : EditCall) : LiveStrategy :=
  match c with
  | CallMakeChanges edits => fst (makeChanges edits s)
  | CallMakeProgressiveChanges edits opts => makeProgressiveChanges edits opts s
  end.

Definition run_calls (calls : list EditCall) (s : LiveStrategy)
    : LiveStrategy :=
  fold_left run_call calls s.

End LiveStrategy.

(** The states an instance can be in: what the constructor builds, and what
    its methods and its configuration listener make of it; the last rule is
    for the live buffer, the editor and the response, which others change
    too. *)
Section Reachable.
Context `{Host}.

Inductive reachable : LiveStrategy -> Prop :=
| reach_new codeblock models editor response config :
    reachable (new_LiveStrategy codeblock models editor response config)
| reach_apply s :
    reachable s -> reachable (apply s)
| reach_cancel s s' :
    reachable s -> cancel s = Some s' -> reachable s'
| reach_undoChanges s v s' :
    reachable s -> undoChanges v s = Some s' -> reachable s'
| reach_makeChanges s edits :
    reachable s -> reachable (fst (makeChanges edits s))
| reach_makeProgressiveChanges s edits opts :
    reachable s -> reachable (makeProgressiveChanges edits opts s)
| reach_renderChanges s :
    reachable s -> reachable (renderChanges s)
| reach_configuration s e config :
    reachable s -> reachable (onDidChangeConfiguration e config s)
| reach_dispose s :
    reachable s -> reachable (dispose s)
| reach_bound s modelN editor response :
    reachable s ->
    reachable
      (with_response response (with_editor editor (with_modelN modelN s))).

End Reachable.

(** ** [ChatEditSessionService], the coordinator *)

(** One element of [request.context]; [codeBlockIndex] is the field the
    coordinator reads. *)
Record ICSChatAgentEditContext := mkContext { codeBlockIndex : Z }.

Record ICSChatAgentEditRequest := mkRequest {
  request_context : list ICSChatAgentEditContext
}.

(** [IWorkspaceTextEdit]; the coordinator casts every edit of a batch to
    it. *)
Record IWorkspaceTextEdit := mkTextEdit {
  resource : URI;
  textEdit : ISingleEditOperation
}.

Record WorkspaceEdit := mkWorkspaceEdit { edits : list IWorkspaceTextEdit }.

(** One partial result of the agent, an edit batch. *)
Record ICSChatAgentEditResponse := mkProgress {
  progress_edits : WorkspaceEdit
}.

(** [IContextKey<A>]: [reset] removes the value, and [get] then gives the
    default of the key. *)
Record IContextKey (A : Type) := mkKey { ck_default : A; ck_value : option A }.
Arguments mkKey {A}.
Arguments ck_default {A}.
Arguments ck_value {A}.

Definition ck_get {A} (k : IContextKey A) : A :=
  default (ck_default k) (ck_value k).

Definition ck_set {A} (v : A) (k : IContextKey A) : IContextKey A :=
  mkKey (ck_default k) (Some v).

Definition ck_reset {A} (k : IContextKey A) : IContextKey A :=
  mkKey (ck_default k) None.

Inductive LogEntry :=
| LogTrace (message : string)
| LogError (message : string).

(** The value of an entry of [_pendingRequests], a cancelable promise: it
    is identified by the response and the request it was started for. *)
Record PendingRequest := mkPending {
  pending_responseId : string;
  pending_request : ICSChatAgentEditRequest
}.

(** How one iteration of the loop of [_makeChanges] ends. *)
Inductive Outcome :=
| Continue
| Return
| Thrown (error : string).

Section Coordinator.
Context `{Host}.

(** The injected services the coordinator works on: the models of the model
    service by the text of their URI, with the number of models it has
    created; the editors of the code editor service in the order of
    [listCodeEditors()], and the resources [openCodeEditor] is able to open;
    the response view models by id; the configuration. *)
Record Services := mkServices {
  modelService : gmap string TextModel;
  modelsCreated : nat;
  codeEditors : list ICodeEditor;
  canOpen : string -> bool;
  responses : gmap string IChatResponseViewModel;
  configurationService : IConfigurationService
}.

(** The fields of the coordinator.  [textModels] and [editStrategies] are
    keyed by [URI] objects, that is by their identity. *)
Record ChatEditSessionService := mkService {
  editResponseIdInProgress : IContextKey string;
  editCodeblockInProgress : IContextKey Z;
  _pendingRequests : gmap string PendingRequest;
  _pendingEdits : gmap string (list WorkspaceEdit);
  textModels : gmap nat ICSChatCodeblockTextModels;
  editStrategies : gmap nat LiveStrategy;
  logService : list LogEntry;
  services : Services
}.

Definition with_markers (responseId : IContextKey string)
    (codeblock : IContextKey Z) (this : ChatEditSessionService)
    : ChatEditSessionService :=
  mkService responseId codeblock (_pendingRequests this) (_pendingEdits this)
    (textModels this) (editStrategies this) (logService this) (services this).

Definition with_pendingRequests (p : gmap string PendingRequest)
    (this : ChatEditSessionService) : ChatEditSessionService :=
  mkService (editResponseIdInProgress this) (editCodeblockInProgress this) p
    (_pendingEdits this) (textModels this) (editStrategies this)
    (logService this) (services this).

Definition with_pendingEdits (p : gmap string (list WorkspaceEdit))
    (this : ChatEditSessionService) : ChatEditSessionService :=
  mkService (editResponseIdInProgress this) (editCodeblockInProgress this)
    (_pendingRequests this) p (textModels this) (editStrategies this)
    (logService this) (services this).

Definition with_textModels (t : gmap nat ICSChatCodeblockTextModels)
    (this : ChatEditSessionService) : ChatEditSessionService :=
  mkService (editResponseIdInProgress this) (editCodeblockInProgress this)
    (_pendingRequests this) (_pendingEdits this) t (editStrategies this)
    (logService this) (services this).

Definition with_editStrategies (e : gmap nat LiveStrategy)
    (this : ChatEditSessionService) : ChatEditSessionService :=
  mkService (editResponseIdInProgress this) (editCodeblockInProgress this)
    (_pendingRequests this) (_pendingEdits this) (textModels this) e
    (logService this) (services this).

Definition with_log (entry : LogEntry) (this : ChatEditSessionService)
    : ChatEditSessionService :=
  mkService (editResponseIdInProgress this) (editCodeblockInProgress this)
    (_pendingRequests this) (_pendingEdits this) (textModels this)
    (editStrategies this) (logService this ++ [entry]) (services this).

Definition with_services (sv : Services) (this : ChatEditSessionService)
    : ChatEditSessionService :=
  mkService (editResponseIdInProgress this) (editCodeblockInProgress this)
    (_pendingRequests this) (_pendingEdits this) (textModels this)
    (editStrategies this) (logService this) sv.

Definition trace (method message : string) (this : ChatEditSessionService)
    : ChatEditSessionService :=
  with_log
    (LogTrace (String.append "CSChatEditSession#"
                 (String.append method (String.append ": " message)))) this.

Definition error (method message : string) (this : ChatEditSessionService)
    : ChatEditSessionService :=
  with_log
    (LogError (String.append "CSChatEditSession#"
                 (String.append method (String.append " " message)))) this.

Definition activeEditRequestId (this : ChatEditSessionService)
    : option string :=
  let responseId := ck_get (editResponseIdInProgress this) in
  if String.eqb responseId EmptyString then None else Some responseId.

Definition activeEditCodeblockNumber (this : ChatEditSessionService)
    : option Z :=
  let codeblockNumber := ck_get (editCodeblockInProgress this) in
  if codeblockNumber =? -1 then None else Some codeblockNumber.

(** [modelService.getModel(uri)]: the model of that URI, unless it has been
    disposed. *)
Definition getModel (sv : Services) (uri : URI) : option TextModel :=
  match modelService sv !! uri_str uri with
  | Some m => if isDisposed m then None else Some m
  | None => None
  end.

(** [modelService.createModel(snapshot, language, undefined, true)]: a new
    model on the text of the snapshot, under a URI of the model service's
    own; it is reached through the pair that holds it only. *)
Definition createModel (sv : Services) (content : Content) (languageId : string)
    : Services * TextModel :=
  let n := S (modelsCreated sv) in
  (mkServices (modelService sv) n (codeEditors sv) (canOpen sv) (responses sv)
     (configurationService sv),
   mkTextModel
     (mkURI n (String.append "inmemory://model/" (JS.toString (Z.of_nat n))))
     languageId content 1 1 [] false []).

Definition getTextModels (uri : URI) (this : ChatEditSessionService)
    : ChatEditSessionService * (ICSChatCodeblockTextModels + string) :=
  match textModels this !! uri_ref uri with
  | Some textModel => (this, inl textModel)
  | None =>
      match getModel (services this) uri with
      | None =>
          let message :=
            String.append "Text model for "
              (String.append (uri_str uri) " not found") in
          (error "getTextModels" message this, inr message)
      | Some textModelN =>
          let created :=
            createModel (services this) (tm_content textModelN)
              (tm_languageId textModelN) in
          let model :=
            mkModels (snd created) textModelN
              (getAlternativeVersionId textModelN) None in
          (with_textModels (<[uri_ref uri := model]> (textModels this))
             (with_services (fst created) this),
           inl model)
      end
  end.

(** [listCodeEditors().find(editor => editor.getModel()?.uri.toString() ===
    uri.toString())] *)
Definition findCodeEditor (sv : Services) (uri : URI) : option ICodeEditor :=
  List.find
    (fun editor =>
       match ed_model editor with
       | Some u => String.eqb u (uri_str uri)
       | None => false
       end)
    (codeEditors sv).

(** [openCodeEditor({ resource: uri }, focused)]: a further editor on the
    resource, or [null] when the resource cannot be opened. *)
Definition openCodeEditor (uri : URI) (sv : Services)
    : Services * option ICodeEditor :=
  if canOpen sv (uri_str uri) then
    let editor := mkEditor (length (codeEditors sv)) (Some (uri_str uri)) [] in
    (mkServices (modelService sv) (modelsCreated sv)
       (codeEditors sv ++ [editor]) (canOpen sv) (responses sv)
       (configurationService sv),
     Some editor)
  else (sv, None).

(** A strategy holds references to its live buffer, its editor and its
    response.  [bind] gives it these objects as they are now, before one of
    its methods runs; [unbind] puts them back as the method left them. *)
Definition bind (sv : Services) (s : LiveStrategy) : LiveStrategy :=
  let modelN := textModelN (_models s) in
  with_response
    (default (_response s) (responses sv !! vm_id (_response s)))
    (with_editor
       (default (_editor s) (codeEditors sv !! ed_id (_editor s)))
       (with_modelN
          (default modelN (modelService sv !! uri_str (tm_uri modelN))) s)).

Definition unbind (s : LiveStrategy) (sv : Services) : Services :=
  let modelN := textModelN (_models s) in
  mkServices
    (<[uri_str (tm_uri modelN) := modelN]> (modelService sv))
    (modelsCreated sv)
    (<[ed_id (_editor s) := _editor s]> (codeEditors sv))
    (canOpen sv)
    (<[vm_id (_response s) := _response s]> (responses sv))
    (configurationService sv).

(** The strategy of a URI after one of its methods ran. *)
Definition commit (uri : URI) (s : LiveStrategy)
    (this : ChatEditSessionService) : ChatEditSessionService :=
  with_editStrategies (<[uri_ref uri := s]> (editStrategies this))
    (with_services (unbind s (services this)) this).

(** The editor that shows the document: one of the open editors, or one
    that is opened for it; the failure to get one is logged. *)
Definition obtainCodeEditor (uri : URI) (this : ChatEditSessionService)
    : ChatEditSessionService * option ICodeEditor :=
  match findCodeEditor (services this) uri with
  | Some codeEditor => (this, Some codeEditor)
  | None =>
      match openCodeEditor uri (services this) with
      | (sv, Some codeEditor) => (with_services sv this, Some codeEditor)
      | (sv, None) =>
          (error "sendRequest"
             (String.append "Failed to find code editor for " (uri_str uri))
             (with_services sv this),
           None)
      end
  end.

(** The strategy of the URI: the one in [editStrategies], or a new one,
    bound to the code block that is marked as being edited right now. *)
Definition obtainStrategy (uri : URI) (textModels : ICSChatCodeblockTextModels)
    (codeEditor : ICodeEditor) (response : IChatResponseViewModel)
    (this : ChatEditSessionService) : ChatEditSessionService * LiveStrategy :=
  match editStrategies this !! uri_ref uri with
  | Some editStrategy => (this, editStrategy)
  | None =>
      let editStrategy :=
        new_LiveStrategy (activeEditCodeblockNumber this) textModels
          codeEditor response (configurationService (services this)) in
      (with_editStrategies
         (<[uri_ref uri := editStrategy]> (editStrategies this)) this,
       editStrategy)
  end.

(** The edit is made, progressively when there are pacing options, and the
    changes are rendered. *)
Definition changeAndRender (uri : URI) (edit : ISingleEditOperation)
    (opts : option ProgressingEditsOptions) (editStrategy : LiveStrategy)
    (this : ChatEditSessionService) : ChatEditSessionService * Outcome :=
  let bound := bind (services this) editStrategy in
  let changed :=
    match opts with
    | Some opts => (makeProgressiveChanges [edit] opts bound, Normal)
    | None => makeChanges [edit] bound
    end in
  match changed with
  | (s, Throw e) => (commit uri s this, Thrown e)
  | (s, Normal) => (commit uri (renderChanges s) this, Continue)
  end.

(** The body of the loop of [_makeChanges], for one edit operation. *)
Definition _makeChanges_iteration (response : IChatResponseViewModel)
    (opts : option ProgressingEditsOptions) (this : ChatEditSessionService)
    (editOp : URI * ISingleEditOperation) : ChatEditSessionService * Outcome :=
  let uri := fst editOp in
  let edit := snd editOp in
  match getTextModels uri this with
  | (this1, inr message) => (this1, Thrown message)
  | (this1, inl textModels) =>
      match obtainCodeEditor uri this1 with
      | (this2, None) => (this2, Return)
      | (this2, Some codeEditor) =>
          let obtained :=
            obtainStrategy uri textModels codeEditor response this2 in
          changeAndRender uri edit opts (snd obtained) (fst obtained)
      end
  end.

Definition editOperations (progress : ICSChatAgentEditResponse)
    : list (URI * ISingleEditOperation) :=
  map (fun typedEdit =>
         (resource typedEdit,
          mkEdit (edit_range (textEdit typedEdit))
            (edit_text (textEdit typedEdit))))
    (edits (progress_edits progress)).

Fixpoint _makeChanges_loop (response : IChatResponseViewModel)
    (opts : option ProgressingEditsOptions)
    (editOps : list (URI * ISingleEditOperation))
    (this : ChatEditSessionService) : ChatEditSessionService * Completion :=
  match editOps with
  | [] => (this, Normal)
  | editOp :: rest =>
      match _makeChanges_iteration response opts this editOp with
      | (this', Continue) => _makeChanges_loop response opts rest this'
      | (this', Return) => (this', Normal)
      | (this', Thrown e) => (this', Throw e)
      end
  end.

Definition _makeChanges (response : IChatResponseViewModel)
    (progress : ICSChatAgentEditResponse)
    (opts : option ProgressingEditsOptions) (this : ChatEditSessionService)
    : ChatEditSessionService * Completion :=
  _makeChanges_loop response opts (editOperations progress) this.

(** *** The streaming task of one request

    The local state of one activation of [_sendEditRequestAsync]: the
    response it serves, the state of its cancellation token, the moving
    average of the time between partial results, the application tasks that
    wait in [progressiveEditsQueue], and the application task under way, as
    the pacing duration it read when it started and the edit operations its
    loop has yet to go through.  [settled] tells that the agent call has
    returned and the cleanup has run. *)
Record StreamingTask := mkTask {
  task_response : IChatResponseViewModel;
  task_cancelled : bool;
  progressiveEditsAvgDuration : Z;
  progressiveEditsQueue : list ICSChatAgentEditResponse;
  running : option (Z * list (URI * ISingleEditOperation));
  settled : bool
}.

(** Modelled from the spec: [Queue] of vs/base/common/async is missing.  Its
    tasks run one at a time in the order they were queued, each to its end
    before the next starts: when none is under way the head of the queue
    starts.  An application task that finds the token cancelled when it
    starts ends at once. *)
Fixpoint consume (cancelled : bool) (duration : Z)
    (queue : list ICSChatAgentEditResponse)
    : option (Z * list (URI * ISingleEditOperation))
      * list ICSChatAgentEditResponse :=
  match queue with
  | [] => (None, [])
  | progress :: rest =>
      if cancelled then consume cancelled duration rest
      else (Some (duration, editOperations progress), rest)
  end.

Definition start_next (task : StreamingTask) : StreamingTask :=
  match running task with
  | Some _ => task
  | None =>
      let next :=
        consume (task_cancelled task) (progressiveEditsAvgDuration task)
          (progressiveEditsQueue task) in
      mkTask (task_response task) (task_cancelled task)
        (progressiveEditsAvgDuration task) (snd next) (fst next) (settled task)
  end.

(** [progressCallback(progress)].  The moving average is a quantity of real
    time: [average] is its value once this arrival is counted. *)
Definition progressCallback (progress : ICSChatAgentEditResponse) (average : Z)
    (st : ChatEditSessionService * StreamingTask)
    : ChatEditSessionService * StreamingTask :=
  let this := fst st in
  let task := snd st in
  if task_cancelled task then st
  else
    let sessionId := vm_sessionId (task_response task) in
    let pendingEdits :=
      match _pendingEdits this !! sessionId with
      | Some pendingEdits => pendingEdits ++ [progress_edits progress]
      | None => [progress_edits progress]
      end in
    (with_pendingEdits (<[sessionId := pendingEdits]> (_pendingEdits this))
       this,
     start_next
       (mkTask (task_response task) (task_cancelled task) average
          (progressiveEditsQueue task ++ [progress]) (running task)
          (settled task))).

Definition set_running
    (r : option (Z * list (URI * ISingleEditOperation)))
    (task : StreamingTask) : StreamingTask :=
  mkTask (task_response task) (task_cancelled task)
    (progressiveEditsAvgDuration task) (progressiveEditsQueue task) r
    (settled task).

(** One turn of the application task under way: its loop goes through one
    more edit operation, or it ends (its loop is through, has returned or has
    thrown) and the next task of the queue starts. *)
Definition run_queue (st : ChatEditSessionService * StreamingTask)
    : ChatEditSessionService * StreamingTask :=
  let this := fst st in
  let task := snd st in
  match running task with
  | None => (this, start_next task)
  | Some (duration, []) => (this, start_next (set_running None task))
  | Some (duration, editOp :: rest) =>
      let editOpts := mkOpts duration (task_cancelled task) in
      match _makeChanges_iteration (task_response task) (Some editOpts) this
              editOp with
      | (this', Continue) => (this', set_running (Some (duration, rest)) task)
      | (this', _) => (this', start_next (set_running None task))
      end
  end.

(** The agent call has returned: the [finally] blocks of the task run. *)
Definition settle (st : ChatEditSessionService * StreamingTask)
    : ChatEditSessionService * StreamingTask :=
  let this := fst st in
  let task := snd st in
  if settled task then st
  else
    let sessionId := vm_sessionId (task_response task) in
    let this1 :=
      with_pendingEdits (delete sessionId (_pendingEdits this)) this in
    let this2 :=
      with_markers (ck_reset (editResponseIdInProgress this1))
        (ck_reset (editCodeblockInProgress this1)) this1 in
    (with_pendingRequests (delete sessionId (_pendingRequests this2)) this2,
     mkTask (task_response task) (task_cancelled task)
       (progressiveEditsAvgDuration task) (progressiveEditsQueue task)
       (running task) true).

(** The local state [_sendEditRequestAsync] starts with: the token is not
    cancelled, the moving average is 0, the queue is empty. *)
Definition new_task (responseVM : IChatResponseViewModel) : StreamingTask :=
  mkTask responseVM false 0 [] None false.

(** [_sendEditRequestAsync]: the streaming task starts, and the session is
    entered in [_pendingRequests]. *)
Definition _sendEditRequestAsync (responseVM : IChatResponseViewModel)
    (request : ICSChatAgentEditRequest) (this : ChatEditSessionService)
    : ChatEditSessionService * StreamingTask :=
  (with_pendingRequests
     (<[vm_sessionId responseVM := mkPending (vm_id responseVM) request]>
        (_pendingRequests this)) this,
   new_task responseVM).

(** [sendEditRequest]: [None] is the [undefined] the caller gets when the
    request is turned down, [Some task] the handle of a started request. *)
Definition sendEditRequest (responseVM : IChatResponseViewModel)
    (request : ICSChatAgentEditRequest) (this : ChatEditSessionService)
    : ChatEditSessionService * option StreamingTask :=
  match request_context request with
  | [context0] =>
      let this1 :=
        with_markers
          (ck_set (vm_id responseVM) (editResponseIdInProgress this))
          (ck_set (codeBlockIndex context0) (editCodeblockInProgress this))
          this in
      match _pendingRequests this1 !! vm_sessionId responseVM with
      | Some _ =>
          (trace "sendRequest"
             (String.append "Session "
                (String.append (vm_sessionId responseVM)
                   " already has a pending request")) this1,
           None)
      | None =>
          let started := _sendEditRequestAsync responseVM request this1 in
          (fst started, Some (snd started))
      end
  | context =>
      (error "sendRequest"
         (String.append "Expected exactly one context, got "
            (JS.toString (Z.of_nat (length context)))) this,
       None)
  end.

(** [new ChatEditSessionService(...)]; the markers start unset, with the
    defaults of their keys. *)
Definition new_ChatEditSessionService (sv : Services)
    : ChatEditSessionService :=
  mkService (mkKey EmptyString None) (mkKey (-1) None) ∅ ∅ ∅ ∅ [] sv.

(** *** The coordinator and its streaming tasks together

    The tasks started so far, in the order they were started, and what can
    happen next: a call of [sendEditRequest], a partial result delivered to
    the callback of a task, a turn of the queue of a task, the agent call of
    a task returning. *)
Record System := mkSystem {
  coordinator : ChatEditSessionService;
  tasks : list StreamingTask
}.

Inductive Event :=
| SendEditRequest (responseVM : IChatResponseViewModel)
    (request : ICSChatAgentEditRequest)
| PartialResult (i : nat) (progress : ICSChatAgentEditResponse) (average : Z)
| Turn (i : nat)
| Settled (i : nat).

Definition at_task (i : nat)
    (f : ChatEditSessionService * StreamingTask ->
         ChatEditSessionService * StreamingTask)
    (sys : System) : System :=
  match tasks sys !! i with
  | None => sys
  | Some task =>
      let st := f (coordinator sys, task) in
      mkSystem (fst st) (<[i := snd st]> (tasks sys))
  end.

Definition system_step (sys : System) (ev : Event) : System :=
  match ev with
  | SendEditRequest responseVM request =>
      let sent := sendEditRequest responseVM request (coordinator sys) in
      mkSystem (fst sent)
        (tasks sys ++ match snd sent with Some task => [task] | None => [] end)
  | PartialResult i progress average =>
      at_task i (progressCallback progress average) sys
  | Turn i => at_task i run_queue sys
  | Settled i => at_task i settle sys
  end.

Definition run_system (events : list Event) (sys : System) : System :=
  fold_left system_step events sys.

Definition new_System (sv : Services) : System :=
  mkSystem (new_ChatEditSessionService sv) [].

(** *** One streaming task on its own *)
Inductive TaskEvent :=
| Arrives (progress : ICSChatAgentEditResponse) (average : Z)
| Runs.

Definition task_step (st : ChatEditSessionService * StreamingTask)
    (ev : TaskEvent) : ChatEditSessionService * StreamingTask :=
  match ev with
  | Arrives progress average => progressCallback progress average st
  | Runs => run_queue st
  end.

Definition run_task (schedule : list TaskEvent)
    (st : ChatEditSessionService * StreamingTask)
    : ChatEditSessionService * StreamingTask :=
  fold_left task_step schedule st.

(** The batches a schedule delivers, in the order of their arrival. *)
Definition arrivals (schedule : list TaskEvent)
    : list ICSChatAgentEditResponse :=
  flat_map (fun ev => match ev with
                      | Arrives progress _ => [progress]
                      | Runs => []
                      end) schedule.

(** No application task is under way or waiting. *)
Definition quiescent (task : StreamingTask) : bool :=
  match running task, progressiveEditsQueue task with
  | None, [] => true
  | _, _ => false
  end.

End Coordinator.

(** *** Queries and confirmation

    [getEditRangesInProgress] and [confirmEdits] of the coordinator; they
    share their names with methods of the strategy and live in a module of
    their own. *)
Module Coordinator.
Section Access.
Context `{Host}.

(** [getEditRangesInProgress(forUri)] with a URI.  The call without a URI
    walks [editStrategies] in the order of insertion, which the [gmap] does
    not keep; that branch is left out. *)
Definition getEditRangesInProgress (forUri : URI)
    (this : ChatEditSessionService) : list Location :=
  match editStrategies this !! uri_ref forUri with
  | Some editStrategy => getEditRangesInProgress editStrategy
  | None => []
  end.

(** [confirmEdits(uri, apply)]; [None] when the undo loop of [cancel] ran
    out of fuel. *)
Definition confirmEdits (uri : URI) (accept : bool)
    (this : ChatEditSessionService) : option ChatEditSessionService :=
  match editStrategies this !! uri_ref uri with
  | None =>
      Some (error "confirmEdits"
              (String.append "Edit strategy for "
                 (String.append (uri_str uri) " not found")) this)
  | Some editStrategy =>
      let bound := bind (services this) editStrategy in
      if accept then Some (commit uri (apply bound) this)
      else
        match cancel bound with
        | Some s => Some (commit uri s this)
        | None => None
        end
  end.

End Access.
End Coordinator.

(** ** Vocabulary of the properties *)

(** The text of a document of the model service. *)
Definition content_of `{Host} (this : ChatEditSessionService) (uri : string)
    : option Content :=
  tm_content <$> modelService (services this) !! uri.

Definition minimum_of (z : Z) (l : list Z) : Prop :=
  In z l /\ Forall (fun x => z <= x) l.

Definition maximum_of (z : Z) (l : list Z) : Prop :=
  In z l /\ Forall (fun x => x <= z) l.

(** A line range the diff provider can report: lines are numbered from 1,
    the range is half-open, and its numbers are finite doubles. *)
Definition valid_LineRange (r : LineRange.t) : Prop :=
  1 <= LineRange.startLineNumber r
  /\ LineRange.startLineNumber r <= LineRange.endLineNumberExclusive r
  /\ LineRange.endLineNumberExclusive r <= JS.MAX_VALUE.

Definition is_edit_event (ev : ModelEvent) : Prop :=
  exists edits, ev = MPushEditOperations edits.

(** What a call added to the log of the live buffer. *)
Definition log_grew_by `{Host} (s s' : LiveStrategy)
    (evs : list ModelEvent) : Prop :=
  tm_log (textModelN (_models s')) = tm_log (textModelN (_models s)) ++ evs.

(** The version [cancel] rewinds to, the model after [k] undos, and the
    test of the loop of [_undoModelUntil]. *)
Definition cancel_target `{Host} (s : LiveStrategy) : Z :=
  match textModelNSnapshotAltVersion (_models s) with
  | Some v => v
  | None => textModelNAltVersion (_models s)
  end.

Definition undone `{Host} (k : nat) (model : TextModel) : TextModel :=
  Nat.iter k undo model.

Definition rewind_pending `{Host} (targetAltVersion : Z) (model : TextModel)
    : bool :=
  (targetAltVersion <? getAlternativeVersionId model) && canUndo model.

(** The session of a task, and the link between tasks and
    [_pendingRequests]: a task that has not settled has its session
    entered. *)
Definition session_of `{Host} (task : StreamingTask) : string :=
  vm_sessionId (task_response task).

Definition in_flight_entered `{Host} (sys : System) : Prop :=
  forall (i : nat) (task : StreamingTask),
    tasks sys !! i = Some task -> settled task = false ->
    is_Some (_pendingRequests (coordinator sys) !! session_of task).

(** Two tasks of one session that have both not settled are one task. *)
Definition one_in_flight_per_session `{Host} (sys : System) : Prop :=
  forall (i j : nat) (ti tj : StreamingTask),
    tasks sys !! i = Some ti -> tasks sys !! j = Some tj ->
    settled ti = false -> settled tj = false ->
    vm_sessionId (task_response ti) = vm_sessionId (task_response tj) ->
    i = j.

(** What [sendEditRequest] leaves of the coordinator when it turns down a
    well-formed request for a session that has a request pending. *)
Definition turned_down `{Host} (responseVM : IChatResponseViewModel)
    (context0 : ICSChatAgentEditContext) (this : ChatEditSessionService)
    : ChatEditSessionService :=
  trace "sendRequest"
    (String.append "Session "
       (String.append (vm_sessionId responseVM)
          " already has a pending request"))
    (with_markers (ck_set (vm_id responseVM) (editResponseIdInProgress this))
       (ck_set (codeBlockIndex context0) (editCodeblockInProgress this)) this).

(** Following the words of the spec: a call that is turned down because its
    session has a request pending leaves no mark on what the pending request
    goes on to do to the documents, the editors and the responses. *)
Definition duplicate_leaves_original_unaffected `{Host} : Prop :=
  forall (sv : Services) (before after : list Event)
         (responseVM : IChatResponseViewModel)
         (request : ICSChatAgentEditRequest)
         (context0 : ICSChatAgentEditContext) (pending : PendingRequest),
    request_context request = [context0] ->
    _pendingRequests (coordinator (run_system before (new_System sv)))
      !! vm_sessionId responseVM = Some pending ->
    services
      (coordinator
         (run_system (before ++ SendEditRequest responseVM request :: after)
            (new_System sv)))
    = services (coordinator (run_system (before ++ after) (new_System sv))).






(** *** Vocabulary of the ordering property *)

(** The edit operations of a run of batches, and those among a run of edit
    operations that are for one document. *)
Definition operations_of `{Host} (batches : list ICSChatAgentEditResponse)
    : list (URI * ISingleEditOperation) :=
  flat_map editOperations batches.

Definition edits_for (uri : string)
    (editOps : list (URI * ISingleEditOperation)) : list ISingleEditOperation :=
  map snd (List.filter (fun op => String.eqb (uri_str (fst op)) uri) editOps).

(** The edit operations a task has taken in and not yet gone through. *)
Definition backlog `{Host} (task : StreamingTask)
    : list (URI * ISingleEditOperation) :=
  match running task with
  | Some (_, editOps) => editOps
  | None => []
  end ++ operations_of (progressiveEditsQueue task).

(** Following the words of the spec: the edits of the batches, in the order
    of arrival; the documents they target; those of the edits that are for
    one document; and the text of that document once these are applied to it
    one after the other. *)
Definition batch_edits (batches : list ICSChatAgentEditResponse)
    : list IWorkspaceTextEdit :=
  flat_map (fun progress => edits (progress_edits progress)) batches.

Definition targets (batches : list ICSChatAgentEditResponse) : list URI :=
  map resource (batch_edits batches).

Definition edits_in_arrival_order (uri : string)
    (batches : list ICSChatAgentEditResponse) : list ISingleEditOperation :=
  map textEdit
    (List.filter (fun e => String.eqb (uri_str (resource e)) uri)
       (batch_edits batches)).

Definition content_in_arrival_order `{Host} (this : ChatEditSessionService)
    (batches : list ICSChatAgentEditResponse) (uri : string)
    : option Content :=
  (fun c => apply_sequentially c (edits_in_arrival_order uri batches))
    <$> content_of this uri.

(** Following the words of the spec: whatever the coordinator and the
    batches, once the batches have arrived and the queue is at rest every
    document holds the text that the edits of all the batches for it, applied
    in the order of arrival, make of the text it had. *)
Definition applied_in_arrival_order `{Host} : Prop :=
  forall (this : ChatEditSessionService) (responseVM : IChatResponseViewModel)
         (batches : list ICSChatAgentEditResponse)
         (schedule : list TaskEvent),
    arrivals schedule = batches ->
    let final := run_task schedule (this, new_task responseVM) in
    quiescent (snd final) = true ->
    forall uri : string,
      content_of (fst final) uri = content_in_arrival_order this batches uri.

(** The editors of the code editor service carry their place in
    [listCodeEditors()]. *)
Definition editors_by_id `{Host} (sv : Services) : Prop :=
  forall (i : nat) (e : ICodeEditor), codeEditors sv !! i = Some e -> ed_id e = i.

(** The coordinator is ready for the documents [uris]: every model of the
    model service is entered under its own URI; each of the documents has a
    live buffer and an editor view, which is one that can be opened for it
    or one that shows it already; [URI] objects that are the same object have
    the same text; and the buffer pairs and the strategies that are kept for
    these objects are on the document the object names. *)
Record ready `{Host} (uris : list URI) (this : ChatEditSessionService)
    : Prop := mkReady {
  ready_registered : forall (k : string) (m : TextModel),
    modelService (services this) !! k = Some m -> uri_str (tm_uri m) = k;
  ready_live : forall u : URI, In u uris ->
    exists m : TextModel,
      modelService (services this) !! uri_str u = Some m
      /\ tm_disposed m = false;
  ready_open : forall u : URI, In u uris ->
    canOpen (services this) (uri_str u) = true
    \/ (is_Some (findCodeEditor (services this) u)
        /\ editors_by_id (services this));
  ready_objects : forall u u' : URI, In u uris -> In u' uris ->
    uri_ref u = uri_ref u' -> uri_str u = uri_str u';
  ready_pairs : forall (u : URI) (pair : ICSChatCodeblockTextModels),
    In u uris -> textModels this !! uri_ref u = Some pair ->
    uri_str (tm_uri (textModelN pair)) = uri_str u;
  ready_strategies : forall (u : URI) (s : LiveStrategy),
    In u uris -> editStrategies this !! uri_ref u = Some s ->
    uri_str (tm_uri (textModelN (_models s))) = uri_str u
}.

(** The text of a document once [editOps] are applied to it one after the
    other. *)
Definition content_after `{Host} (this : ChatEditSessionService)
    (editOps : list (URI * ISingleEditOperation)) (uri : string)
    : option Content :=
  (fun c => apply_sequentially c (edits_for uri editOps))
    <$> content_of this uri.

(** The turns a task still needs: one for each edit operation of the
    application task under way and one to end it; for each waiting
    application task the same, and one to start it. *)
Definition work `{Host} (task : StreamingTask) : nat :=
  (match running task with
   | Some (_, editOps) => S (length editOps)
   | None => O
   end
   + list_sum
       (map (fun progress => S (S (length (editOperations progress))))
          (progressiveEditsQueue task)))%nat.

(** *** Vocabulary of the further properties *)

(** The end positions of inverse edits; and [not_after p q]: the position
    [q] does not lie after [p], that is, [p] is not before [q]. *)
Definition end_positions (undoEdits : list IValidEditOperation)
    : list IPosition :=
  map (fun edit => Range.getEndPosition (valid_range edit)) undoEdits.

Definition not_after (p q : IPosition) : Prop :=
  Position.isBefore p q = false.

(** Undoing from the text [c] at alternative version [alt], over the undo
    stack [stack], while the version is above [alt0], ends on the text [c0]
    at version [alt0]. *)
Inductive rewinds_to `{Host} (c0 : Content) (alt0 : Z)
    : Content -> Z -> list UndoElement -> Prop :=
| rewinds_here stack : rewinds_to c0 alt0 c0 alt0 stack
| rewinds_undo c alt u rest :
    alt0 < alt ->
    rewinds_to c0 alt0 (ue_content u) (ue_alternativeVersionId u) rest ->
    rewinds_to c0 alt0 c alt (u :: rest).

(** The top undo element, if there is one, is closed. *)
Definition closed_top `{Host} (model : TextModel) : Prop :=
  match tm_undoStack model with
  | [] => True
  | u :: _ => ue_closed u = true
  end.

(** A live buffer from which undoing leads back to [c0] at [alt0], and
    whose next edit, when it is still at [alt0], opens an undo element of
    its own. *)
Definition rewindable `{Host} (c0 : Content) (alt0 : Z) (model : TextModel)
    : Prop :=
  rewinds_to c0 alt0 (tm_content model) (tm_alternativeVersionId model)
    (tm_undoStack model)
  /\ alt0 <= tm_versionId model
  /\ tm_disposed model = false.

Definition opens_element `{Host} (alt0 : Z) (model : TextModel) : Prop :=
  tm_alternativeVersionId model = alt0 -> closed_top model.

(** The state of a strategy between two calls of its methods. *)
Definition between_calls `{Host} (c0 : Content) (alt0 : Z) (s : LiveStrategy)
    : Prop :=
  0 <= _editCount s
  /\ rewindable c0 alt0 (textModelN (_models s))
  /\ (1 <= _editCount s -> opens_element alt0 (textModelN (_models s)))
  /\ textModelNSnapshotAltVersion (_models s) = None
  /\ textModelNAltVersion (_models s) = alt0.

(** Two states of the coordinator with the same markers and the same
    pending requests and edits. *)
Definition same_bookkeeping `{Host} (this this' : ChatEditSessionService)
    : Prop :=
  editResponseIdInProgress this' = editResponseIdInProgress this
  /\ editCodeblockInProgress this' = editCodeblockInProgress this
  /\ _pendingRequests this' = _pendingRequests this
  /\ _pendingEdits this' = _pendingEdits this.

(** Every entry of [_pendingRequests] is the entry of a task that has not
    settled, for the response that task serves. *)
Definition pending_in_flight `{Host} (sys : System) : Prop :=
  forall (session : string) (p : PendingRequest),
    _pendingRequests (coordinator sys) !! session = Some p ->
    exists (i : nat) (task : StreamingTask),
      tasks sys !! i = Some task /\ settled task = false
      /\ session_of task = session
      /\ vm_id (task_response task) = pending_responseId p.

(** The markers have the defaults of their context keys. *)
Definition marker_defaults `{Host} (this : ChatEditSessionService) : Prop :=
  ck_default (editResponseIdInProgress this) = EmptyString
  /\ ck_default (editCodeblockInProgress this) = -1.

(** Every document of [uris] is named by one [URI] object. *)
Definition one_object_per_document (uris : list URI) : Prop :=
  forall u u' : URI, In u uris -> In u' uris ->
    uri_str u = uri_str u' -> uri_ref u = uri_ref u'.

(** A buffer pair that recorded the alternative version [alt0] and no
    checkpoint. *)
Definition stamped `{Host} (alt0 : Z) (pair : ICSChatCodeblockTextModels)
    : Prop :=
  textModelNAltVersion pair = alt0
  /\ textModelNSnapshotAltVersion pair = None.

(** The documents of [uris] can be taken back from [this] to what they were
    in [this0]: undoing leads back to the text of [this0]; the pair and the
    strategy of a document recorded the version of [this0]; a document with
    no strategy is at that version still; and a strategy that has made an
    edit finds an undo element of its own to add to. *)
Definition restorable `{Host} (uris : list URI)
    (this0 this : ChatEditSessionService) : Prop :=
  forall u : URI, In u uris ->
    exists m0 m : TextModel,
      modelService (services this0) !! uri_str u = Some m0
      /\ modelService (services this) !! uri_str u = Some m
      /\ rewindable (tm_content m0) (tm_alternativeVersionId m0) m
      /\ (forall pair, textModels this !! uri_ref u = Some pair ->
            stamped (tm_alternativeVersionId m0) pair)
      /\ (textModels this !! uri_ref u = None ->
          editStrategies this !! uri_ref u = None)
      /\ (editStrategies this !! uri_ref u = None ->
          tm_alternativeVersionId m = tm_alternativeVersionId m0)
      /\ (forall s, editStrategies this !! uri_ref u = Some s ->
            stamped (tm_alternativeVersionId m0) (_models s)
            /\ 0 <= _editCount s
            /\ (1 <= _editCount s ->
                opens_element (tm_alternativeVersionId m0) m)).

(** The alternative version of a document is not ahead of its version. *)
Definition versions_in_order `{Host} (uris : list URI)
    (this : ChatEditSessionService) : Prop :=
  forall (u : URI) (m : TextModel), In u uris ->
    modelService (services this) !! uri_str u = Some m ->
    tm_alternativeVersionId m <= tm_versionId m.

(** What a strategy is bound to when it is created: its code block, its
    snapshot and the versions its pair recorded; and its count of edits, which
    does not go down. *)
Definition same_binding `{Host} (s s' : LiveStrategy) : Prop :=
  _editCodeblockInProgress s' = _editCodeblockInProgress s
  /\ textModel0 (_models s') = textModel0 (_models s)
  /\ textModelNAltVersion (_models s') = textModelNAltVersion (_models s)
  /\ textModelNSnapshotAltVersion (_models s')
     = textModelNSnapshotAltVersion (_models s)
  /\ _editCount s <= _editCount s'.

(** No entry of [textModels] is replaced, and every strategy is kept with
    its binding. *)
Definition keeps_bindings `{Host} (this this' : ChatEditSessionService)
    : Prop :=
  (forall (k : nat) (pair : ICSChatCodeblockTextModels),
     textModels this !! k = Some pair -> textModels this' !! k = Some pair)
  /\ (forall (k : nat) (s : LiveStrategy),
        editStrategies this !! k = Some s ->
        exists s' : LiveStrategy,
          editStrategies this' !! k = Some s' /\ same_binding s s').

(** The responses of the chat are entered under their own ids. *)
Definition responses_by_id `{Host} (sv : Services) : Prop :=
  forall (k : string) (r : IChatResponseViewModel),
    responses sv !! k = Some r -> vm_id r = k.

(** Every strategy is kept, for the response it was created for. *)
Definition keeps_responses `{Host} (this this' : ChatEditSessionService)
    : Prop :=
  forall (k : nat) (s : LiveStrategy),
    editStrategies this !! k = Some s ->
    exists s' : LiveStrategy,
      editStrategies this' !! k = Some s'
      /\ vm_id (_response s') = vm_id (_response s).

(** No buffer pair and no strategy has a checkpoint version. *)
Definition no_checkpoint `{Host} (this : ChatEditSessionService) : Prop :=
  (forall (k : nat) (pair : ICSChatCodeblockTextModels),
     textModels this !! k = Some pair ->
     textModelNSnapshotAltVersion pair = None)
  /\ (forall (k : nat) (s : LiveStrategy),
        editStrategies this !! k = Some s ->
        textModelNSnapshotAltVersion (_models s) = None).

(** ** A small host for examples

    Documents are strings; an edit appends its text to the document and
    reports its own range back; two documents differ in one hunk of one line
    when they are not equal; words are counted as characters. *)

Definition example_push (c : string) (edits : list ISingleEditOperation)
    : string * list IValidEditOperation :=
  (fold_left (fun c e => String.append c (default EmptyString (edit_text e)))
     edits c,
   map (fun e => mkValidEdit (edit_range e) EmptyString) edits).

Definition example_diff (a b : string) : option IDocumentDiff :=
  if String.eqb a b then Some (mkDiff [])
  else Some (mkDiff [mkMapping (LineRange.mk 1 2) (LineRange.mk 1 2) 1]).

#[export] Instance example_host : Host := {
  Content := string;
  pushEditOperations := example_push;
  computeDiff := example_diff;
  countWords := fun s => Z.of_nat (String.length s)
}.

Definition example_model (uri : URI) (text : string) : TextModel :=
  mkTextModel uri "plaintext" text 1 1 [] false [].

Definition example_uri : URI := mkURI 0 "file:///a.ts".

Definition example_models : ICSChatCodeblockTextModels :=
  mkModels (example_model (mkURI 1 "inmemory://model/1") "one")
    (example_model example_uri "one") 1 None.

Definition example_response : IChatResponseViewModel :=
  mkResponse "response-1" "session-1" [].

Definition example_strategy : LiveStrategy :=
  new_LiveStrategy (Some 0) example_models
    (mkEditor 0 (Some "file:///a.ts") []) example_response
    (mkConfig ∅).

Definition example_edit (text : string) : ISingleEditOperation :=
  mkEdit (mkRange 1 1 1 1) (Some text).

(** The strategy of the examples after one edit. *)
Definition example_edited : LiveStrategy :=
  fst (makeChanges [example_edit "x"] example_strategy).

(** A coordinator for the examples: [a.ts] and [b.ts] have a live buffer
    and can be opened, [c.ts] has a live buffer and cannot be opened, and any
    other document has no buffer. *)
Definition example_services : Services :=
  mkServices
    (<["file:///a.ts" := example_model example_uri "one"]>
       (<["file:///b.ts" := example_model (mkURI 1 "file:///b.ts") "two"]>
          (<["file:///c.ts" := example_model (mkURI 2 "file:///c.ts") "three"]>
             ∅)))
    0 []
    (fun u => negb (String.eqb u "file:///c.ts"))
    ∅ (mkConfig ∅).

Definition example_coordinator : ChatEditSessionService :=
  new_ChatEditSessionService example_services.

Definition example_textEdit (ref : nat) (uri text : string)
    : IWorkspaceTextEdit :=
  mkTextEdit (mkURI ref uri) (example_edit text).

Definition example_batch (es : list IWorkspaceTextEdit)
    : ICSChatAgentEditResponse :=
  mkProgress (mkWorkspaceEdit es).

(** Requests and batches of the examples. *)
Definition example_request (index : Z) : ICSChatAgentEditRequest :=
  mkRequest [mkContext index].

Definition example_response2 : IChatResponseViewModel :=
  mkResponse "response-2" "session-1" [].

(** Three batches on [a.ts] and [b.ts], and a schedule that delivers the
    first two before the queue takes its first turn. *)
Definition example_batches : list ICSChatAgentEditResponse :=
  [example_batch [example_textEdit 30 "file:///a.ts" "x";
                  example_textEdit 31 "file:///b.ts" "y"];
   example_batch [example_textEdit 32 "file:///a.ts" "z"];
   example_batch [example_textEdit 31 "file:///b.ts" "w"]].

Definition example_schedule : list TaskEvent :=
  [Arrives (example_batch [example_textEdit 30 "file:///a.ts" "x";
                           example_textEdit 31 "file:///b.ts" "y"]) 100;
   Arrives (example_batch [example_textEdit 32 "file:///a.ts" "z"]) 50;
   Runs;
   Arrives (example_batch [example_textEdit 31 "file:///b.ts" "w"]) 70;
   Runs].

(** A request for code block 0 of response-1 is under way when a request
    for code block 7 of response-2, of the same session, is sent; then the
    agent delivers a batch to the first request, which is applied. *)
Definition example_first_request : list Event :=
  [SendEditRequest example_response (example_request 0)].

Definition example_duplicate : Event :=
  SendEditRequest example_response2 (example_request 7).

Definition example_stream : list Event :=
  [PartialResult 0 (example_batch [example_textEdit 20 "file:///a.ts" "x"]) 100;
   Turn 0; Turn 0; Settled 0].

(** Two documents, each named by one [URI] object, and a schedule that
    edits the first one twice. *)
Definition example_documents : list URI :=
  [mkURI 30 "file:///a.ts"; mkURI 31 "file:///b.ts"].

Definition example_schedule_documents : list TaskEvent :=
  [Arrives (example_batch [example_textEdit 30 "file:///a.ts" "x";
                           example_textEdit 31 "file:///b.ts" "y"]) 100;
   Runs; Runs;
   Arrives (example_batch [example_textEdit 30 "file:///a.ts" "z"]) 50;
   Runs; Runs; Runs].

(** A batch whose first edit is for a document that has no live buffer,
    followed by a batch for [a.ts]; both arrive, and the queue takes turns
    until it is at rest. *)
Definition example_failing_batches : list ICSChatAgentEditResponse :=
  [example_batch [example_textEdit 40 "file:///missing.ts" "m";
                  example_textEdit 41 "file:///a.ts" "x"];
   example_batch [example_textEdit 41 "file:///a.ts" "z"]].

Definition example_failing_schedule : list TaskEvent :=
  [Arrives (example_batch [example_textEdit 40 "file:///missing.ts" "m";
                           example_textEdit 41 "file:///a.ts" "x"]) 100;
   Arrives (example_batch [example_textEdit 41 "file:///a.ts" "z"]) 50;
   Runs; Runs; Runs; Runs; Runs].

(** [c.ts] cannot be opened, and an editor shows it already. *)
Definition example_shown_coordinator : ChatEditSessionService :=
  new_ChatEditSessionService
    (mkServices (modelService example_services) 0
       [mkEditor 0 (Some "file:///c.ts") []]
       (canOpen example_services) ∅ (mkConfig ∅)).

Definition example_shown_schedule : list TaskEvent :=
  [Arrives (example_batch [example_textEdit 50 "file:///c.ts" "x"]) 100;
   Runs;
   Arrives (example_batch [example_textEdit 50 "file:///c.ts" "z"]) 50].

(** * Properties *)

(** ** The change summary *)

Section Summary.
Context `{Host}.

Lemma reduce_bounds (rs : list LineRange.t) (acc : IRange) :
  let r := fold_left reduce_step rs acc in
  (startLineNumber r <= startLineNumber acc
   /\ Forall (fun x => startLineNumber r <= x) (map LineRange.startLineNumber rs)
   /\ (startLineNumber r = startLineNumber acc
       \/ In (startLineNumber r) (map LineRange.startLineNumber rs)))
  /\ (endLineNumber acc <= endLineNumber r
      /\ Forall (fun x => x <= endLineNumber r)
           (map LineRange.endLineNumberExclusive rs)
      /\ (endLineNumber r = endLineNumber acc
          \/ In (endLineNumber r) (map LineRange.endLineNumberExclusive rs))).
Proof.
  revert acc. induction rs as [|c rs IH]; intros acc; cbn zeta.
  - cbn. repeat split; auto; lia.
  - cbn [fold_left map].
    specialize (IH (reduce_step acc c)). cbn zeta in IH.
    destruct IH as [(Hle & Hall & Hin) (Hle' & Hall' & Hin')].
    cbn [reduce_step startLineNumber endLineNumber] in Hle, Hin, Hle', Hin'.
    split; repeat split.
    + lia.
    + constructor; [lia | exact Hall].
    + destruct Hin as [Heq | Hin]; [| right; right; exact Hin].
      destruct (Z.min_spec (startLineNumber acc) (LineRange.startLineNumber c))
        as [[_ Hm] | [_ Hm]]; rewrite Hm in Heq.
      * left; exact Heq.
      * right; left; symmetry; exact Heq.
    + lia.
    + constructor; [lia | exact Hall'].
    + destruct Hin' as [Heq | Hin']; [| right; right; exact Hin'].
      destruct (Z.max_spec (endLineNumber acc) (LineRange.endLineNumberExclusive c))
        as [[_ Hm] | [_ Hm]]; rewrite Hm in Heq.
      * right; left; symmetry; exact Heq.
      * left; exact Heq.
Qed.

Lemma reduce_columns (rs : list LineRange.t) (acc : IRange) :
  startColumn acc = 1 -> endColumn acc = 1 ->
  startColumn (fold_left reduce_step rs acc) = 1
  /\ endColumn (fold_left reduce_step rs acc) = 1.
Proof.
  revert acc. induction rs as [|c rs IH]; intros acc H1 H2; cbn; [auto|].
  apply IH; reflexivity.
Qed.

Lemma summaryRange_bounding (mappings : list LineRangeMapping) :
  mappings <> [] ->
  Forall (fun m => valid_LineRange (modified m)) mappings ->
  let r := summaryRange mappings in
  startColumn r = 1 /\ endColumn r = 1
  /\ minimum_of (startLineNumber r)
       (map (fun m => LineRange.startLineNumber (modified m)) mappings)
  /\ maximum_of (endLineNumber r)
       (map (fun m => LineRange.endLineNumberExclusive (modified m)) mappings).
Proof.
  intros Hne Hvalid r.
  assert (Hr : r = fold_left reduce_step (map modified mappings)
                     (mkRange JS.MAX_VALUE 1 0 1)) by reflexivity.
  pose proof (reduce_bounds (map modified mappings) (mkRange JS.MAX_VALUE 1 0 1))
    as Hb. cbn zeta in Hb. rewrite <- Hr in Hb.
  pose proof (reduce_columns (map modified mappings) (mkRange JS.MAX_VALUE 1 0 1)
                eq_refl eq_refl) as Hc. rewrite <- Hr in Hc.
  rewrite !map_map in Hb.
  destruct Hb as [(Hle & Hall & Hin) (Hle' & Hall' & Hin')].
  cbn [startLineNumber endLineNumber] in Hle, Hin, Hle', Hin'.
  destruct mappings as [|m ms]; [congruence|].
  apply Forall_cons in Hvalid as [(Hv1 & Hv2 & Hv3) _].
  destruct Hc as [Hc1 Hc2].
  split; [exact Hc1|]. split; [exact Hc2|]. split; split; try assumption.
  - destruct Hin as [Heq | Hin]; [| exact Hin].
    left. apply Forall_cons in Hall as [Hm _]. lia.
  - destruct Hin' as [Heq | Hin']; [| exact Hin'].
    left. apply Forall_cons in Hall' as [Hm _]. lia.
Qed.

End Summary.

Section SummaryPublished.
Context `{Host}.

(** The diff [renderChanges] computes for a strategy. *)
Lemma renderChanges_response (s : LiveStrategy) :
  _response (renderChanges s)
  = _response
      (_updateSummaryMessage (tm_uri (textModel0 (_models s)))
         (computeDiff (tm_content (textModel0 (_models s)))
            (tm_content (textModelN (_models s)))) s).
Proof. reflexivity. Qed.



(** C8: [renderChanges] records a summary on the response exactly when the
    diff has a hunk; the record goes under the code-block index of the
    strategy, its text is the summary message, and its range starts at
    column 1 of the least start line of the modified sides and ends at column
    1 of their greatest (exclusive) end line. *)
Theorem renderChanges_publishes_bounding_range (s : LiveStrategy) :
  let mappings :=
    hunks (computeDiff (tm_content (textModel0 (_models s)))
             (tm_content (textModelN (_models s)))) in
  Forall (fun m => valid_LineRange (modified m)) mappings ->
  match mappings with
  | [] => _response (renderChanges s) = _response s
  | _ :: _ =>
      exists r : IRange,
        vm_recorded (_response (renderChanges s))
        = vm_recorded (_response s)
          ++ [(_editCodeblockInProgress s,
               mkSummary (mkLocation (tm_uri (textModel0 (_models s))) r)
                 (summaryMessage mappings))]
        /\ startColumn r = 1 /\ endColumn r = 1
        /\ minimum_of (startLineNumber r)
             (map (fun m => LineRange.startLineNumber (modified m)) mappings)
        /\ maximum_of (endLineNumber r)
             (map (fun m => LineRange.endLineNumberExclusive (modified m))
                mappings)
  end.
Proof.
  intros mappings Hvalid. rewrite renderChanges_response.
  unfold _updateSummaryMessage. fold mappings.
  destruct mappings as [|m ms] eqn:Hm; [reflexivity|].
  cbn [length Nat.ltb Nat.leb]. exists (summaryRange (m :: ms)).
  split; [reflexivity|].
  apply summaryRange_bounding; [discriminate | exact Hvalid].
Qed.

End SummaryPublished.


Lemma renderChanges_publishes_bounding_range_witness :
  exists r : IRange,
    vm_recorded (_response (renderChanges example_edited))
    = [(Some 0, mkSummary (mkLocation (mkURI 1 "inmemory://model/1") r)
             "Changed 1 line")]
    /\ startColumn r = 1 /\ endColumn r = 1
    /\ minimum_of (startLineNumber r) [1]
    /\ maximum_of (endLineNumber r) [2].
Proof.
  apply (renderChanges_publishes_bounding_range example_edited).
  repeat constructor; vm_compute; discriminate.
Defined.

(** ** Visibility of the decorations *)

Section Visibility.
Context `{Host}.

Import CSChatEditsDiffDecorations.

Lemma cursorState_visible (undoEdits : list IValidEditOperation) (d : t) :
  visible (fst (cursorStateComputerAndInlineDiffCollection undoEdits d))
  = visible d.
Proof.
  unfold cursorStateComputerAndInlineDiffCollection.
  generalize (@None IPosition). revert d.
  induction undoEdits as [|e es IH]; intros d last; cbn; [reflexivity|].
  rewrite IH. reflexivity.
Qed.

Lemma revealEdits_flags (opts : ProgressingEditsOptions)
    (edits : list ISingleEditOperation) (s : LiveStrategy) :
  let s' := fold_left (revealEdit opts) edits s in
  _diffEnabled s' = _diffEnabled s
  /\ visible (_diffDecorations s') = visible (_diffDecorations s)
  /\ _editCount s' = _editCount s.
Proof.
  revert s. induction edits as [|e es IH]; intros s; cbn zeta; [auto|].
  cbn [fold_left]. specialize (IH (revealEdit opts s e)). cbn zeta in IH.
  destruct IH as (-> & -> & ->). unfold revealEdit. cbn.
  rewrite cursorState_visible. auto.
Qed.

Lemma executeEdits_flags (edits : list ISingleEditOperation) (s : LiveStrategy) :
  _diffEnabled (executeEdits edits s) = _diffEnabled s
  /\ visible (_diffDecorations (executeEdits edits s))
     = visible (_diffDecorations s).
Proof.
  unfold executeEdits. cbn. rewrite cursorState_visible. auto.
Qed.

(** The flag of the strategy and the visibility of its decorations agree in
    every state an instance reaches. *)
Lemma visible_is_diffEnabled (s : LiveStrategy) :
  reachable s -> visible (_diffDecorations s) = _diffEnabled s.
Proof.
  induction 1 as [| s _ IH | s s' _ IH Hc | s v s' _ IH Hu | s edits _ IH
                  | s edits opts _ IH | s _ IH | s e config _ IH | s _ IH
                  | s modelN editor response _ IH].
  - reflexivity.
  - unfold apply. destruct (0 <? _editCount s); exact IH.
  - unfold cancel in Hc. destruct (isDisposed _); [congruence|].
    destruct (_undoModelUntil _ _); [|discriminate].
    injection Hc as <-. exact IH.
  - unfold undoChanges in Hu. destruct (_undoModelUntil _ _); [|discriminate].
    injection Hu as <-. exact IH.
  - unfold makeChanges. cbn [_editCount with_editCount].
    destruct (_editCount s + 1 =? 1); [destruct edits as [|e es]|]; cbn [fst].
    + exact IH.
    + destruct (executeEdits_flags (e :: es)
        (with_editor_event
           (EvRevealPositionInCenter
              (mkPosition (startLineNumber (edit_range e))
                 (startColumn (edit_range e))))
           (pushUndoStop (with_editCount (_editCount s + 1) s)))) as [-> ->].
      exact IH.
    + destruct (executeEdits_flags edits (with_editCount (_editCount s + 1) s))
        as [-> ->]. exact IH.
  - unfold makeProgressiveChanges.
    match goal with
    | |- context [fold_left (revealEdit opts) edits ?s0] =>
        destruct (revealEdits_flags opts edits s0) as (-> & -> & _)
    end.
    cbn [_editCount with_editCount].
    destruct (_editCount s + 1 =? 1); exact IH.
  - unfold renderChanges, _updateSummaryMessage.
    destruct (0 <? length _)%nat; exact IH.
  - unfold onDidChangeConfiguration.
    destruct (_store_disposed s); [exact IH|].
    destruct (affectsConfiguration e _); [reflexivity | exact IH].
  - exact IH.
  - exact IH.
Qed.

(** C10: a configuration change that affects [inlineChat.showDiff] negates
    the visibility of the decorations, whatever the configuration then
    holds; a second one brings the first visibility back. *)
Theorem configuration_change_negates_visibility (s : LiveStrategy)
    (e1 e2 : IConfigurationChangeEvent) (config1 config2 : IConfigurationService) :
  reachable s ->
  _store_disposed s = false ->
  affectsConfiguration e1 "inlineChat.showDiff" = true ->
  affectsConfiguration e2 "inlineChat.showDiff" = true ->
  let s1 := onDidChangeConfiguration e1 config1 s in
  let s2 := onDidChangeConfiguration e2 config2 s1 in
  visible (_diffDecorations s1) = negb (visible (_diffDecorations s))
  /\ visible (_diffDecorations s2) = visible (_diffDecorations s).
Proof.
  intros Hreach Hstore He1 He2 s1 s2.
  pose proof (visible_is_diffEnabled s Hreach) as Hsync.
  assert (H1 : visible (_diffDecorations s1) = negb (_diffEnabled s)
               /\ _diffEnabled s1 = negb (_diffEnabled s)
               /\ _store_disposed s1 = false).
  { subst s1. unfold onDidChangeConfiguration. rewrite Hstore, He1.
    cbn. auto. }
  destruct H1 as (Hv1 & Hd1 & Hs1).
  split; [rewrite Hv1, Hsync; reflexivity|].
  subst s2. unfold onDidChangeConfiguration. rewrite Hs1, He2.
  cbn. rewrite Hd1, Hsync. apply negb_involutive.
Qed.

End Visibility.

(** The strategy was built with the setting off and the setting is still off
    when the notification arrives: the decorations become visible. *)
Lemma configuration_change_negates_visibility_witness :
  let e := mkConfigEvent (fun key => String.eqb key "inlineChat.showDiff") in
  let config := mkConfig (<["inlineChat.showDiff" := false]> ∅) in
  let s1 := onDidChangeConfiguration e config example_strategy in
  let s2 := onDidChangeConfiguration e config s1 in
  (getValue config "inlineChat.showDiff" = false
   /\ CSChatEditsDiffDecorations.visible (_diffDecorations s1) = true)
  /\ CSChatEditsDiffDecorations.visible (_diffDecorations s1)
     = negb (CSChatEditsDiffDecorations.visible
               (_diffDecorations example_strategy))
  /\ CSChatEditsDiffDecorations.visible (_diffDecorations s2)
     = CSChatEditsDiffDecorations.visible (_diffDecorations example_strategy).
Proof.
  intros e config s1 s2. split; [split; reflexivity|].
  apply (configuration_change_negates_visibility example_strategy e e
           config config).
  - apply reach_new.
  - reflexivity.
  - reflexivity.
  - reflexivity.
Defined.

(** ** Undo stops *)

Section UndoStops.
Context `{Host}.

Lemma log_grew_by_trans (s1 s2 s3 : LiveStrategy) (evs evs' : list ModelEvent) :
  log_grew_by s1 s2 evs -> log_grew_by s2 s3 evs' ->
  log_grew_by s1 s3 (evs ++ evs').
Proof.
  unfold log_grew_by. intros H1 H2. rewrite H2, H1, <- app_assoc. reflexivity.
Qed.

Lemma executeEdits_log (edits : list ISingleEditOperation) (s : LiveStrategy) :
  log_grew_by s (executeEdits edits s) [MPushEditOperations edits]
  /\ _editCount (executeEdits edits s) = _editCount s.
Proof. split; reflexivity. Qed.

Lemma revealEdit_log (opts : ProgressingEditsOptions) (s : LiveStrategy)
    (edit : ISingleEditOperation) :
  exists evs, log_grew_by s (revealEdit opts s edit) evs
              /\ Forall is_edit_event evs.
Proof.
  unfold revealEdit, performAsyncTextEdit, log_grew_by.
  destruct (isCancellationRequested opts); cbn.
  - exists []. rewrite app_nil_r. split; [reflexivity | constructor].
  - exists [MPushEditOperations [edit]]. split; [reflexivity|].
    repeat constructor. eexists; reflexivity.
Qed.

Lemma revealEdits_log (opts : ProgressingEditsOptions)
    (edits : list ISingleEditOperation) (s : LiveStrategy) :
  exists evs, log_grew_by s (fold_left (revealEdit opts) edits s) evs
              /\ Forall is_edit_event evs.
Proof.
  revert s. induction edits as [|e es IH]; intros s; cbn [fold_left].
  - exists []. unfold log_grew_by. rewrite app_nil_r.
    split; [reflexivity | constructor].
  - destruct (revealEdit_log opts s e) as (evs1 & H1 & F1).
    destruct (IH (revealEdit opts s e)) as (evs2 & H2 & F2).
    exists (evs1 ++ evs2). split.
    + eapply log_grew_by_trans; eassumption.
    + apply Forall_app; split; assumption.
Qed.

(** The first call on an instance pushes the undo stop and then only
    edits. *)
Lemma first_call_log (s : LiveStrategy) (c : EditCall) :
  _editCount s = 0 ->
  exists evs, log_grew_by s (run_call s c) (MPushStackElement :: evs)
              /\ Forall is_edit_event evs
              /\ _editCount (run_call s c) = 1.
Proof.
  intros H0. destruct c as [edits | edits opts]; cbn [run_call].
  - unfold makeChanges. cbn [_editCount with_editCount]. rewrite H0.
    change (0 + 1 =? 1) with true. cbn iota.
    destruct edits as [|e es]; cbn [fst].
    + exists []. repeat split; constructor.
    + exists [MPushEditOperations (e :: es)]. repeat split.
      * unfold log_grew_by. cbn. rewrite <- app_assoc. reflexivity.
      * repeat constructor. eexists; reflexivity.
  - unfold makeProgressiveChanges. cbn [_editCount with_editCount].
    rewrite H0. change (0 + 1 =? 1) with true. cbn iota. change (0 + 1) with 1.
    destruct (revealEdits_log opts edits (pushUndoStop (with_editCount 1 s)))
      as (evs & Hlog & Hall).
    destruct (revealEdits_flags opts edits (pushUndoStop (with_editCount 1 s)))
      as (_ & _ & Hcount).
    exists evs. repeat split; [| exact Hall | rewrite Hcount; reflexivity].
    unfold log_grew_by in *. rewrite Hlog. cbn. rewrite <- app_assoc.
    reflexivity.
Qed.

(** Every later call pushes edits only. *)
Lemma later_call_log (s : LiveStrategy) (c : EditCall) :
  1 <= _editCount s ->
  exists evs, log_grew_by s (run_call s c) evs
              /\ Forall is_edit_event evs
              /\ 1 <= _editCount (run_call s c).
Proof.
  intros H1. destruct c as [edits | edits opts]; cbn [run_call].
  - unfold makeChanges. cbn [_editCount with_editCount].
    destruct (Z.eqb_spec (_editCount s + 1) 1) as [Heq|_]; [lia|]. cbn [fst].
    exists [MPushEditOperations edits]. repeat split.
    + repeat constructor. eexists; reflexivity.
    + cbn. lia.
  - unfold makeProgressiveChanges. cbn [_editCount with_editCount].
    destruct (Z.eqb_spec (_editCount s + 1) 1) as [Heq|_]; [lia|].
    destruct (revealEdits_log opts edits (with_editCount (_editCount s + 1) s))
      as (evs & Hlog & Hall).
    destruct (revealEdits_flags opts edits (with_editCount (_editCount s + 1) s))
      as (_ & _ & Hcount).
    exists evs. repeat split; [exact Hlog | exact Hall |].
    rewrite Hcount. cbn. lia.
Qed.

Lemma later_calls_log (calls : list EditCall) (s : LiveStrategy) :
  1 <= _editCount s ->
  exists evs, log_grew_by s (run_calls calls s) evs /\ Forall is_edit_event evs.
Proof.
  revert s. induction calls as [|c cs IH]; intros s H1; cbn [run_calls fold_left].
  - exists []. unfold log_grew_by. rewrite app_nil_r.
    split; [reflexivity | constructor].
  - destruct (later_call_log s c H1) as (evs1 & L1 & F1 & H1').
    destruct (IH (run_call s c) H1') as (evs2 & L2 & F2).
    exists (evs1 ++ evs2). split.
    + eapply log_grew_by_trans; eassumption.
    + apply Forall_app; split; assumption.
Qed.

(** C5: on an instance that has applied no edit yet, a run of calls of
    [makeChanges] and [makeProgressiveChanges], in any order, pushes one undo
    stop, before everything else the run does to the buffer; all that follows
    it in the log of the buffer is edit operations. *)
Theorem undo_stop_pushed_once (s : LiveStrategy) (c : EditCall)
    (calls : list EditCall) :
  _editCount s = 0 ->
  exists evs : list ModelEvent,
    tm_log (textModelN (_models (run_calls (c :: calls) s)))
    = tm_log (textModelN (_models s)) ++ MPushStackElement :: evs
    /\ Forall is_edit_event evs
    /\ ~ In MPushStackElement evs.
Proof.
  intros H0. cbn [run_calls fold_left].
  destruct (first_call_log s c H0) as (evs1 & L1 & F1 & Hc).
  destruct (later_calls_log calls (run_call s c)) as (evs2 & L2 & F2); [lia|].
  exists (evs1 ++ evs2).
  assert (Hall : Forall is_edit_event (evs1 ++ evs2))
    by (apply Forall_app; split; assumption).
  split; [| split; [exact Hall|]].
  - exact (log_grew_by_trans _ _ _ _ _ L1 L2).
  - intros Hin. rewrite List.Forall_forall in Hall.
    destruct (Hall _ Hin) as [edits Hed]. discriminate.
Qed.

End UndoStops.

Lemma undo_stop_pushed_once_witness :
  exists evs : list ModelEvent,
    tm_log
      (textModelN
         (_models
            (run_calls
               [CallMakeProgressiveChanges [example_edit "a"] (mkOpts 1000 false);
                CallMakeChanges [example_edit "b"];
                CallMakeProgressiveChanges [example_edit "c"] (mkOpts 500 false)]
               example_strategy)))
    = tm_log (textModelN (_models example_strategy)) ++ MPushStackElement :: evs
    /\ Forall is_edit_event evs
    /\ ~ In MPushStackElement evs.
Proof.
  apply (undo_stop_pushed_once example_strategy). reflexivity.
Defined.

(** ** Rewinding *)

Section Rewind.
Context `{Host}.

Lemma undone_succ (k : nat) (model : TextModel) :
  undone (S k) model = undone k (undo model).
Proof. unfold undone. apply Nat.iter_succ_r. Qed.

Lemma undo_pops (model : TextModel) :
  canUndo model = true ->
  S (length (tm_undoStack (undo model))) = length (tm_undoStack model).
Proof.
  unfold canUndo, undo. destruct (tm_undoStack model); [discriminate|].
  reflexivity.
Qed.

(** With more fuel than the undo stack has elements the loop ends: it has
    undone [k] times, the test held before each undo and fails now. *)
Lemma _undoModelUntil_loop_ends (fuel : nat) (model : TextModel) (target : Z) :
  (length (tm_undoStack model) < fuel)%nat ->
  exists k : nat,
    _undoModelUntil_loop fuel model target = Some (undone k model)
    /\ (forall j : nat, (j < k)%nat ->
          rewind_pending target (undone j model) = true)
    /\ rewind_pending target (undone k model) = false.
Proof.
  revert model. induction fuel as [|fuel IH]; intros model Hfuel; [lia|].
  cbn [_undoModelUntil_loop]. fold (rewind_pending target model).
  destruct (rewind_pending target model) eqn:Hp.
  - assert (Hc : canUndo model = true).
    { unfold rewind_pending in Hp. apply andb_true_iff in Hp. tauto. }
    pose proof (undo_pops model Hc) as Hlen.
    destruct (IH (undo model)) as (k & Hk & Hbefore & Hafter); [lia|].
    exists (S k). rewrite undone_succ. split; [exact Hk|]. split; [|exact Hafter].
    intros [|j] Hj; [exact Hp|]. rewrite undone_succ. apply Hbefore. lia.
  - exists O. split; [reflexivity|]. split; [intros j Hj; lia | exact Hp].
Qed.

(** C4: on a disposed buffer [cancel] changes nothing.  Otherwise it
    returns, having undone the buffer some [k] times and cleared the
    decorations: the collection of the editor is empty, no decoration is
    tracked and no edit range is in progress, and nothing else of the strategy
    changes.  Each undo was made while the alternative version was above the
    target (the snapshot version when there is one, else the version at the
    creation of the pair) and an undo was available; in the end the
    alternative version is at or below the target, or no undo is left. *)
Theorem cancel_rewinds (s : LiveStrategy) :
  let modelN := textModelN (_models s) in
  if isDisposed modelN then cancel s = Some s
  else
    exists (k : nat) (s' : LiveStrategy),
      cancel s = Some s'
      /\ s' = with_decorations (_diffDecorations s')
                (with_modelN (undone k modelN) s)
      /\ CSChatEditsDiffDecorations._collection (_diffDecorations s') = []
      /\ CSChatEditsDiffDecorations._data (_diffDecorations s') = []
      /\ CSChatEditsDiffDecorations.decorationRanges (_diffDecorations s') = []
      /\ getEditRangesInProgress s' = []
      /\ CSChatEditsDiffDecorations.visible (_diffDecorations s')
         = CSChatEditsDiffDecorations.visible (_diffDecorations s)
      /\ (forall j : nat, (j < k)%nat ->
            cancel_target s < getAlternativeVersionId (undone j modelN)
            /\ canUndo (undone j modelN) = true)
      /\ (getAlternativeVersionId (undone k modelN) <= cancel_target s
          \/ canUndo (undone k modelN) = false).
Proof.
  intros modelN. unfold cancel. fold modelN. fold (cancel_target s).
  destruct (isDisposed modelN); [reflexivity|].
  destruct (_undoModelUntil_loop_ends (S (length (tm_undoStack modelN))) modelN
              (cancel_target s)) as (k & Hk & Hbefore & Hafter); [lia|].
  exists k. unfold _undoModelUntil. rewrite Hk. eexists.
  split; [reflexivity|]. split_and!; try reflexivity.
  - intros j Hj. specialize (Hbefore j Hj). unfold rewind_pending in Hbefore.
    apply andb_true_iff in Hbefore as [Hlt Hc]. split; [lia | exact Hc].
  - unfold rewind_pending in Hafter. apply andb_false_iff in Hafter as [Hlt|Hc].
    + left. lia.
    + right. exact Hc.
Qed.

End Rewind.

(** ** Requests that are turned down *)

Section TurnedDown.
Context `{Host}.

(** C6: a request whose context list does not have exactly one element gets
    nothing back, and the coordinator is left as it was but for one error
    entry in the log: the markers, the pending requests and edits, the buffer
    pairs, the strategies and the services are the same. *)
Theorem sendEditRequest_invalid_shape (responseVM : IChatResponseViewModel)
    (request : ICSChatAgentEditRequest) (this : ChatEditSessionService) :
  length (request_context request) <> 1%nat ->
  let result := sendEditRequest responseVM request this in
  snd result = None
  /\ logService (fst result)
     = logService this
       ++ [LogError
             (String.append
                "CSChatEditSession#sendRequest Expected exactly one context, got "
                (JS.toString (Z.of_nat (length (request_context request)))))]
  /\ editResponseIdInProgress (fst result) = editResponseIdInProgress this
  /\ editCodeblockInProgress (fst result) = editCodeblockInProgress this
  /\ _pendingRequests (fst result) = _pendingRequests this
  /\ _pendingEdits (fst result) = _pendingEdits this
  /\ textModels (fst result) = textModels this
  /\ editStrategies (fst result) = editStrategies this
  /\ services (fst result) = services this.
Proof.
  intros Hlen result. subst result. unfold sendEditRequest.
  destruct (request_context request) as [|c [|c' cs]] eqn:Hc.
  - cbn. repeat split.
  - cbn in Hlen. congruence.
  - cbn -[JS.toString Z.of_nat]. repeat split.
Qed.

(** C9: a well-formed request for a session that has a request pending is
    turned down, and yet the two markers now hold the response id and the
    code-block index of the request that was turned down. *)
Theorem rejected_duplicate_overwrites_markers
    (responseVM : IChatResponseViewModel) (request : ICSChatAgentEditRequest)
    (context0 : ICSChatAgentEditContext) (pending : PendingRequest)
    (this : ChatEditSessionService) :
  request_context request = [context0] ->
  _pendingRequests this !! vm_sessionId responseVM = Some pending ->
  let result := sendEditRequest responseVM request this in
  snd result = None
  /\ ck_get (editResponseIdInProgress (fst result)) = vm_id responseVM
  /\ ck_get (editCodeblockInProgress (fst result)) = codeBlockIndex context0
  /\ activeEditRequestId (fst result)
     = (if String.eqb (vm_id responseVM) EmptyString then None
        else Some (vm_id responseVM))
  /\ activeEditCodeblockNumber (fst result)
     = (if codeBlockIndex context0 =? -1 then None
        else Some (codeBlockIndex context0)).
Proof.
  intros Hc Hp result. subst result. unfold sendEditRequest.
  rewrite Hc. cbn [_pendingRequests with_markers]. rewrite Hp.
  repeat split.
Qed.

Lemma sendEditRequest_turned_down (responseVM : IChatResponseViewModel)
    (request : ICSChatAgentEditRequest) (context0 : ICSChatAgentEditContext)
    (pending : PendingRequest) (this : ChatEditSessionService) :
  request_context request = [context0] ->
  _pendingRequests this !! vm_sessionId responseVM = Some pending ->
  sendEditRequest responseVM request this
  = (turned_down responseVM context0 this, None).
Proof.
  intros Hc Hp. unfold sendEditRequest.
  rewrite Hc. cbn [_pendingRequests with_markers]. rewrite Hp. reflexivity.
Qed.

End TurnedDown.

Lemma sendEditRequest_invalid_shape_witness :
  let result :=
    sendEditRequest example_response (mkRequest [mkContext 0; mkContext 1])
      example_coordinator in
  snd result = None
  /\ logService (fst result)
     = [LogError
          "CSChatEditSession#sendRequest Expected exactly one context, got 2"]
  /\ editResponseIdInProgress (fst result)
     = editResponseIdInProgress example_coordinator
  /\ editCodeblockInProgress (fst result)
     = editCodeblockInProgress example_coordinator
  /\ _pendingRequests (fst result) = _pendingRequests example_coordinator
  /\ _pendingEdits (fst result) = _pendingEdits example_coordinator
  /\ textModels (fst result) = textModels example_coordinator
  /\ editStrategies (fst result) = editStrategies example_coordinator
  /\ services (fst result) = services example_coordinator.
Proof.
  apply (sendEditRequest_invalid_shape example_response
           (mkRequest [mkContext 0; mkContext 1]) example_coordinator).
  cbn. lia.
Defined.

(** The first request marks response-1 and code block 0; the second one,
    for the same session, is turned down and leaves response-2 and code block
    7 in the markers. *)
Lemma rejected_duplicate_overwrites_markers_witness :
  let first :=
    fst (sendEditRequest example_response (example_request 0)
           example_coordinator) in
  let result := sendEditRequest example_response2 (example_request 7) first in
  (activeEditRequestId first = Some "response-1"
   /\ activeEditCodeblockNumber first = Some 0)
  /\ snd result = None
  /\ ck_get (editResponseIdInProgress (fst result)) = "response-2"
  /\ ck_get (editCodeblockInProgress (fst result)) = 7
  /\ activeEditRequestId (fst result) = Some "response-2"
  /\ activeEditCodeblockNumber (fst result) = Some 7.
Proof.
  intros first result. split; [split; reflexivity|].
  apply (rejected_duplicate_overwrites_markers example_response2
           (example_request 7) (mkContext 7)
           (mkPending "response-1" (example_request 0)) first).
  - reflexivity.
  - reflexivity.
Defined.

(** ** A failing edit within a batch *)

Section FailingEdit.
Context `{Host}.


Lemma getTextModels_frame (uri : URI) (this : ChatEditSessionService) :
  let this1 := fst (getTextModels uri this) in
  modelService (services this1) = modelService (services this)
  /\ codeEditors (services this1) = codeEditors (services this)
  /\ canOpen (services this1) = canOpen (services this)
  /\ editStrategies this1 = editStrategies this
  /\ _pendingRequests this1 = _pendingRequests this
  /\ (is_Some (textModels this !! uri_ref uri)
      \/ is_Some (getModel (services this) uri) ->
      logService this1 = logService this
      /\ exists pair, snd (getTextModels uri this) = inl pair).
Proof.
  unfold getTextModels.
  destruct (textModels this !! uri_ref uri) as [pair|] eqn:Hcache.
  - cbn. split_and!; try reflexivity. intros _. split; [reflexivity | eauto].
  - destruct (getModel (services this) uri) as [m|] eqn:Hmodel.
    + cbn. split_and!; try reflexivity. intros _. split; [reflexivity | eauto].
    + cbn. split_and!; try reflexivity.
      intros [[? ?]|[? ?]]; discriminate.
Qed.




End FailingEdit.



(** A batch on [a.ts], on [c.ts], which no editor can show, and on [b.ts]:
    [a.ts] is edited, [_makeChanges] returns at [c.ts], and [b.ts] is left as
    it was. *)
Example example_missing_editor :
  let result :=
    _makeChanges example_response
      (example_batch [example_textEdit 12 "file:///a.ts" "x";
                      example_textEdit 13 "file:///c.ts" "y";
                      example_textEdit 14 "file:///b.ts" "z"])
      (Some (mkOpts 1000 false)) example_coordinator in
  snd result = Normal
  /\ content_of (fst result) "file:///a.ts" = Some "onex"
  /\ content_of (fst result) "file:///c.ts" = Some "three"
  /\ content_of (fst result) "file:///b.ts" = Some "two"
  /\ logService (fst result)
     = [LogError
          "CSChatEditSession#sendRequest Failed to find code editor for file:///c.ts"].
Proof. vm_compute. repeat split. Qed.

(** ** One request in flight per session *)

Section InFlight.
Context `{Host}.

Lemma obtainCodeEditor_pendingRequests (uri : URI)
    (this : ChatEditSessionService) :
  _pendingRequests (fst (obtainCodeEditor uri this)) = _pendingRequests this.
Proof.
  unfold obtainCodeEditor, openCodeEditor.
  destruct (findCodeEditor (services this) uri); [reflexivity|].
  destruct (canOpen (services this) (uri_str uri)); reflexivity.
Qed.

Lemma obtainStrategy_pendingRequests (uri : URI)
    (pair : ICSChatCodeblockTextModels) (codeEditor : ICodeEditor)
    (response : IChatResponseViewModel) (this : ChatEditSessionService) :
  _pendingRequests (fst (obtainStrategy uri pair codeEditor response this))
  = _pendingRequests this.
Proof.
  unfold obtainStrategy.
  destruct (editStrategies this !! uri_ref uri); reflexivity.
Qed.

Lemma changeAndRender_pendingRequests (uri : URI) (edit : ISingleEditOperation)
    (opts : option ProgressingEditsOptions) (editStrategy : LiveStrategy)
    (this : ChatEditSessionService) :
  _pendingRequests (fst (changeAndRender uri edit opts editStrategy this))
  = _pendingRequests this.
Proof.
  unfold changeAndRender. destruct opts as [opts|]; cbn [fst snd].
  - reflexivity.
  - destruct (makeChanges [edit] (bind (services this) editStrategy))
      as [s [|e]]; reflexivity.
Qed.

Lemma iteration_pendingRequests (response : IChatResponseViewModel)
    (opts : option ProgressingEditsOptions) (this : ChatEditSessionService)
    (editOp : URI * ISingleEditOperation) :
  _pendingRequests (fst (_makeChanges_iteration response opts this editOp))
  = _pendingRequests this.
Proof.
  destruct editOp as [uri edit]. unfold _makeChanges_iteration. cbn [fst snd].
  destruct (getTextModels_frame uri this) as (_ & _ & _ & _ & Hp & _).
  destruct (getTextModels uri this) as [this1 [pair|message]];
    cbn [fst snd] in *; [|exact Hp].
  pose proof (obtainCodeEditor_pendingRequests uri this1) as Hp1.
  destruct (obtainCodeEditor uri this1) as [this2 [codeEditor|]];
    cbn [fst snd] in *; [|congruence].
  rewrite changeAndRender_pendingRequests, obtainStrategy_pendingRequests.
  congruence.
Qed.

Lemma start_next_same (task : StreamingTask) :
  session_of (start_next task) = session_of task
  /\ settled (start_next task) = settled task.
Proof. unfold start_next. destruct (running task); split; reflexivity. Qed.

Lemma progressCallback_same (progress : ICSChatAgentEditResponse) (average : Z)
    (st : ChatEditSessionService * StreamingTask) :
  _pendingRequests (fst (progressCallback progress average st))
  = _pendingRequests (fst st)
  /\ session_of (snd (progressCallback progress average st)) = session_of (snd st)
  /\ settled (snd (progressCallback progress average st)) = settled (snd st).
Proof.
  unfold progressCallback. destruct (task_cancelled (snd st)); [auto|].
  cbn [fst snd].
  match goal with
  | |- context [start_next ?t] => destruct (start_next_same t) as [-> ->]
  end.
  auto.
Qed.

Lemma run_queue_same (st : ChatEditSessionService * StreamingTask) :
  _pendingRequests (fst (run_queue st)) = _pendingRequests (fst st)
  /\ session_of (snd (run_queue st)) = session_of (snd st)
  /\ settled (snd (run_queue st)) = settled (snd st).
Proof.
  unfold run_queue. destruct (running (snd st)) as [[duration [|editOp rest]]|].
  - cbn [fst snd].
    destruct (start_next_same (set_running None (snd st))) as [-> ->]. auto.
  - pose proof (iteration_pendingRequests (task_response (snd st))
                  (Some (mkOpts duration (task_cancelled (snd st)))) (fst st)
                  editOp) as Hp.
    destruct (_makeChanges_iteration _ _ _ _) as [this' [| |e]];
      cbn [fst snd] in *;
      try (destruct (start_next_same (set_running None (snd st))) as [-> ->]);
      auto.
  - cbn [fst snd]. destruct (start_next_same (snd st)) as [-> ->]. auto.
Qed.

Lemma at_task_same (i : nat)
    (f : ChatEditSessionService * StreamingTask ->
         ChatEditSessionService * StreamingTask) (sys : System) :
  (forall st, _pendingRequests (fst (f st)) = _pendingRequests (fst st)
              /\ session_of (snd (f st)) = session_of (snd st)
              /\ settled (snd (f st)) = settled (snd st)) ->
  in_flight_entered sys /\ one_in_flight_per_session sys ->
  in_flight_entered (at_task i f sys)
  /\ one_in_flight_per_session (at_task i f sys).
Proof.
  intros Hf [Hentered Hone]. unfold at_task.
  destruct (tasks sys !! i) as [task|] eqn:Hi; [|split; assumption].
  destruct (Hf (coordinator sys, task)) as (Hp & Hs & Hd). cbn [fst snd] in *.
  assert (Hlook : forall j t, <[i := snd (f (coordinator sys, task))]> (tasks sys) !! j = Some t ->
            exists t0, tasks sys !! j = Some t0
                       /\ session_of t = session_of t0 /\ settled t = settled t0).
  { intros j t Hj. apply list_lookup_insert_Some in Hj
      as [(<- & <- & _) | (Hne & Hj)]; eauto. }
  split.
  - intros j t Hj Hunsettled. cbn [coordinator tasks] in *.
    destruct (Hlook j t Hj) as (t0 & Hj0 & Hs0 & Hd0).
    rewrite Hp, Hs0. apply (Hentered j t0 Hj0). congruence.
  - intros j k tj tk Hj Hk Huj Huk Hsame. cbn [tasks] in *.
    destruct (Hlook j tj Hj) as (tj0 & Hj0 & Hsj & Hdj).
    destruct (Hlook k tk Hk) as (tk0 & Hk0 & Hsk & Hdk).
    apply (Hone j k tj0 tk0 Hj0 Hk0); unfold session_of in *; congruence.
Qed.

Lemma settle_keeps (i : nat) (sys : System) :
  in_flight_entered sys /\ one_in_flight_per_session sys ->
  in_flight_entered (at_task i settle sys)
  /\ one_in_flight_per_session (at_task i settle sys).
Proof.
  intros [Hentered Hone]. unfold at_task.
  destruct (tasks sys !! i) as [task|] eqn:Hi; [|split; assumption].
  unfold settle. cbn [fst snd].
  destruct (settled task) eqn:Hsettled.
  - cbn [fst snd]. rewrite list_insert_id by exact Hi.
    destruct sys; split; assumption.
  - cbn [fst snd].
    assert (Hlook : forall j t,
              <[i := mkTask (task_response task) (task_cancelled task)
                       (progressiveEditsAvgDuration task)
                       (progressiveEditsQueue task) (running task) true]>
                (tasks sys) !! j = Some t ->
              settled t = false -> i <> j /\ tasks sys !! j = Some t).
    { intros j t Hj Hu. apply list_lookup_insert_Some in Hj
        as [(_ & <- & _) | (Hne & Hj)]; [discriminate | auto]. }
    split.
    + intros j t Hj Hu. cbn [coordinator tasks] in *.
      destruct (Hlook j t Hj Hu) as [Hne Hj0].
      cbn [_pendingRequests with_pendingRequests with_markers with_pendingEdits].
      rewrite lookup_delete_ne.
      * apply (Hentered j t Hj0 Hu).
      * intros Hsame. apply Hne.
        apply (Hone i j task t Hi Hj0 Hsettled Hu). exact Hsame.
    + intros j k tj tk Hj Hk Huj Huk Hsame. cbn [tasks] in *.
      destruct (Hlook j tj Hj Huj) as [_ Hj0].
      destruct (Hlook k tk Hk Huk) as [_ Hk0].
      apply (Hone j k tj tk Hj0 Hk0 Huj Huk Hsame).
Qed.

Lemma send_keeps (responseVM : IChatResponseViewModel)
    (request : ICSChatAgentEditRequest) (sys : System) :
  in_flight_entered sys /\ one_in_flight_per_session sys ->
  in_flight_entered (system_step sys (SendEditRequest responseVM request))
  /\ one_in_flight_per_session
       (system_step sys (SendEditRequest responseVM request)).
Proof.
  intros [Hentered Hone]. cbn [system_step]. unfold sendEditRequest.
  destruct (request_context request) as [|context0 [|context1 more]];
    cbn [fst snd]; try (rewrite app_nil_r; split; assumption).
  cbn [_pendingRequests with_markers].
  destruct (_pendingRequests (coordinator sys) !! vm_sessionId responseVM)
    as [pending|] eqn:Hpending; unfold _sendEditRequestAsync; cbn [fst snd].
  - rewrite app_nil_r. split; assumption.
  - split.
    + intros j t Hj Hu. cbn [coordinator tasks] in *.
      cbn [_pendingRequests with_pendingRequests with_markers].
      apply lookup_snoc_Some in Hj as [[_ Hj] | [_ <-]].
      * destruct (decide (vm_sessionId responseVM = session_of t)) as [<-|Hne].
        -- rewrite lookup_insert_eq. eauto.
        -- rewrite lookup_insert_ne by exact Hne. apply (Hentered j t Hj Hu).
      * unfold session_of. cbn [task_response]. rewrite lookup_insert_eq. eauto.
    + intros j k tj tk Hj Hk Huj Huk Hsame. cbn [tasks] in *.
      apply lookup_snoc_Some in Hj as [[_ Hj] | [-> <-]];
        apply lookup_snoc_Some in Hk as [[_ Hk] | [-> <-]].
      * apply (Hone j k tj tk Hj Hk Huj Huk Hsame).
      * exfalso. destruct (Hentered j tj Hj Huj) as [p Hp].
        unfold session_of in Hp. rewrite Hsame in Hp. cbn in Hp. congruence.
      * exfalso. destruct (Hentered k tk Hk Huk) as [p Hp].
        unfold session_of in Hp. rewrite <- Hsame in Hp. cbn in Hp. congruence.
      * reflexivity.
Qed.

Lemma system_invariant (sv : Services) (events : list Event) :
  in_flight_entered (run_system events (new_System sv))
  /\ one_in_flight_per_session (run_system events (new_System sv)).
Proof.
  unfold run_system.
  assert (Hinit : in_flight_entered (new_System sv)
                  /\ one_in_flight_per_session (new_System sv)).
  { split; intros i; intros; cbn in *; discriminate. }
  revert Hinit. generalize (new_System sv).
  induction events as [|ev events IH]; intros sys Hsys; [exact Hsys|].
  cbn [fold_left]. apply IH.
  destruct ev as [responseVM request | i progress average | i | i].
  - apply send_keeps. exact Hsys.
  - apply at_task_same; [apply progressCallback_same | exact Hsys].
  - apply at_task_same; [apply run_queue_same | exact Hsys].
  - apply settle_keeps. exact Hsys.
Qed.

(** C2, as the code has it: at every moment the tasks that have not settled
    are of different sessions; and a well-formed request for a session that
    has a request pending returns nothing, starts no task and changes no task
    (nothing is queued or merged), and changes nothing of the coordinator but
    the two markers, which take the values of the request that is turned
    down, and the log. *)
Theorem one_request_in_flight_per_session (sv : Services)
    (events : list Event) :
  let sys := run_system events (new_System sv) in
  one_in_flight_per_session sys
  /\ (forall (responseVM : IChatResponseViewModel)
             (request : ICSChatAgentEditRequest)
             (context0 : ICSChatAgentEditContext) (pending : PendingRequest),
        request_context request = [context0] ->
        _pendingRequests (coordinator sys) !! vm_sessionId responseVM
        = Some pending ->
        snd (sendEditRequest responseVM request (coordinator sys)) = None
        /\ system_step sys (SendEditRequest responseVM request)
           = mkSystem (turned_down responseVM context0 (coordinator sys))
               (tasks sys)).
Proof.
  intros sys. split; [apply system_invariant|].
  intros responseVM request context0 pending Hc Hp. cbn [system_step].
  rewrite (sendEditRequest_turned_down _ _ _ _ _ Hc Hp). cbn [fst snd].
  rewrite app_nil_r. split; reflexivity.
Qed.

End InFlight.

(** ** Batches are applied in the order of their arrival *)

Section Ordering.
Context `{Host}.

Lemma renderChanges_models (s : LiveStrategy) :
  _models (renderChanges s) = _models s.
Proof.
  unfold renderChanges, _updateSummaryMessage.
  destruct (0 <? length _)%nat; reflexivity.
Qed.

(** A progressive change of one edit whose token is not cancelled: the live
    buffer holds the text the edit produces, and is the same model still. *)
Lemma makeProgressiveChanges_one (edit : ISingleEditOperation)
    (opts : ProgressingEditsOptions) (s : LiveStrategy) :
  isCancellationRequested opts = false ->
  let m := textModelN (_models s) in
  let m' := textModelN (_models (makeProgressiveChanges [edit] opts s)) in
  tm_content m' = fst (pushEditOperations (tm_content m) [edit])
  /\ tm_uri m' = tm_uri m
  /\ tm_disposed m' = tm_disposed m.
Proof.
  intros Hopts. unfold makeProgressiveChanges. cbn [fold_left].
  unfold revealEdit, performAsyncTextEdit. rewrite Hopts.
  cbn [_editCount with_editCount].
  destruct (_editCount s + 1 =? 1); cbn; auto.
Qed.

Lemma ready_same (uris : list URI) (this this' : ChatEditSessionService) :
  modelService (services this') = modelService (services this) ->
  canOpen (services this') = canOpen (services this) ->
  codeEditors (services this') = codeEditors (services this) ->
  textModels this' = textModels this ->
  editStrategies this' = editStrategies this ->
  ready uris this -> ready uris this'.
Proof.
  intros Hm Ho He Ht Hs [R1 R2 R3 R4 R5 R6].
  constructor; unfold findCodeEditor, editors_by_id in *;
    rewrite ?Hm, ?Ho, ?He, ?Ht, ?Hs; assumption.
Qed.

Lemma find_app_Some {A} (f : A -> bool) (l l' : list A) :
  is_Some (List.find f l) -> is_Some (List.find f (l ++ l')).
Proof.
  induction l as [|a l IH]; cbn; intros [x Hx]; [discriminate|].
  destruct (f a); eauto.
Qed.

Lemma revealEdits_editor (opts : ProgressingEditsOptions)
    (edits : list ISingleEditOperation) :
  forall s : LiveStrategy,
    _editor (fold_left (revealEdit opts) edits s) = _editor s.
Proof.
  induction edits as [|e es IH]; intros s; cbn [fold_left]; [reflexivity|].
  rewrite IH. reflexivity.
Qed.

(** A progressive change and the rendering after it leave the editor of the
    strategy as it is, so the editors of the service are the same after the
    strategy is put back. *)
Lemma progressive_commit_editors (u : URI) (edits : list ISingleEditOperation)
    (opts : ProgressingEditsOptions) (s : LiveStrategy)
    (this : ChatEditSessionService) :
  editors_by_id (services this) ->
  codeEditors
    (services
       (commit u
          (renderChanges
             (makeProgressiveChanges edits opts (bind (services this) s)))
          this))
  = codeEditors (services this).
Proof.
  intros Hid. unfold commit, unbind.
  cbn [services with_services with_editStrategies codeEditors].
  assert (He : _editor
                 (renderChanges
                    (makeProgressiveChanges edits opts (bind (services this) s)))
               = default (_editor s)
                   (codeEditors (services this) !! ed_id (_editor s))).
  { unfold renderChanges, _updateSummaryMessage.
    destruct (0 <? length _)%nat;
      cbn [_editor with_decorations with_response];
      unfold makeProgressiveChanges; rewrite revealEdits_editor;
      cbn [_editCount with_editCount];
      destruct (_editCount (bind (services this) s) + 1 =? 1); reflexivity. }
  rewrite He.
  destruct (codeEditors (services this) !! ed_id (_editor s)) as [e|] eqn:Hlook;
    cbn [default from_option id].
  - rewrite (Hid _ _ Hlook). apply list_insert_id. exact Hlook.
  - apply list_insert_ge. apply lookup_ge_None. exact Hlook.
Qed.

Lemma getTextModels_ready (uris : list URI) (u : URI)
    (this : ChatEditSessionService) :
  ready uris this -> In u uris ->
  exists (this1 : ChatEditSessionService) (pair : ICSChatCodeblockTextModels),
    getTextModels u this = (this1, inl pair)
    /\ uri_str (tm_uri (textModelN pair)) = uri_str u
    /\ ready uris this1
    /\ modelService (services this1) = modelService (services this).
Proof.
  intros Hready Hu. pose proof Hready as [R1 R2 R3 R4 R5 R6].
  unfold getTextModels.
  destruct (textModels this !! uri_ref u) as [pair|] eqn:Hcache.
  - exists this, pair. split; [reflexivity|]. split; [eauto|]. split; auto.
  - destruct (R2 u Hu) as (m & Hm & Hlive).
    unfold getModel, isDisposed. rewrite Hm, Hlive.
    do 2 eexists. split; [reflexivity|]. cbn [textModelN].
    split; [eauto|]. split; [|reflexivity].
    constructor; cbn; try assumption.
    intros u' pair Hu' Hpair.
    destruct (decide (uri_ref u = uri_ref u')) as [Heq|Hne].
    + rewrite Heq, lookup_insert_eq in Hpair. injection Hpair as <-.
      cbn [textModelN]. rewrite (R1 _ _ Hm). apply R4; assumption.
    + rewrite lookup_insert_ne in Hpair by exact Hne. eauto.
Qed.

Lemma obtainCodeEditor_ready (uris : list URI) (u : URI)
    (this : ChatEditSessionService) :
  ready uris this -> In u uris ->
  exists (this2 : ChatEditSessionService) (codeEditor : ICodeEditor),
    obtainCodeEditor u this = (this2, Some codeEditor)
    /\ ready uris this2
    /\ modelService (services this2) = modelService (services this).
Proof.
  intros Hready Hu. pose proof Hready as [R1 R2 R3 R4 R5 R6].
  unfold obtainCodeEditor, openCodeEditor.
  destruct (findCodeEditor (services this) u) as [codeEditor|] eqn:Hfind.
  - exists this, codeEditor. auto.
  - destruct (R3 u Hu) as [Hopen|[Hshown _]];
      [|rewrite Hfind in Hshown; destruct Hshown; discriminate].
    rewrite Hopen. do 2 eexists. split; [reflexivity|]. split; [|reflexivity].
    constructor;
      cbn [services with_services modelService canOpen textModels
           editStrategies]; try assumption.
    intros u0 Hu0. destruct (R3 u0 Hu0) as [Ho|[Hf Hid]]; [left; exact Ho|].
    right. split.
    + unfold findCodeEditor in *. cbn [codeEditors]. apply find_app_Some.
      exact Hf.
    + intros i e0 Hi. cbn [codeEditors] in Hi.
      apply lookup_snoc_Some in Hi as [[_ Hi]|[-> <-]];
        [exact (Hid _ _ Hi) | reflexivity].
Qed.

Lemma obtainStrategy_ready (uris : list URI) (u : URI)
    (pair : ICSChatCodeblockTextModels) (codeEditor : ICodeEditor)
    (response : IChatResponseViewModel) (this : ChatEditSessionService) :
  ready uris this -> In u uris ->
  uri_str (tm_uri (textModelN pair)) = uri_str u ->
  let obtained := obtainStrategy u pair codeEditor response this in
  uri_str (tm_uri (textModelN (_models (snd obtained)))) = uri_str u
  /\ ready uris (fst obtained)
  /\ modelService (services (fst obtained)) = modelService (services this).
Proof.
  intros Hready Hu Hpair. pose proof Hready as [R1 R2 R3 R4 R5 R6].
  unfold obtainStrategy.
  destruct (editStrategies this !! uri_ref u) as [s|] eqn:Hs; cbn [fst snd].
  - split; [eauto|]. split; auto.
  - split; [exact Hpair|]. split; [|reflexivity].
    constructor; cbn; try assumption.
    intros u' s Hu' Hs'.
    destruct (decide (uri_ref u = uri_ref u')) as [Heq|Hne].
    + rewrite Heq, lookup_insert_eq in Hs'. injection Hs' as <-.
      cbn. rewrite Hpair. apply R4; assumption.
    + rewrite lookup_insert_ne in Hs' by exact Hne. eauto.
Qed.

Lemma bind_modelN (sv : Services) (s : LiveStrategy) :
  textModelN (_models (bind sv s))
  = default (textModelN (_models s))
      (modelService sv !! uri_str (tm_uri (textModelN (_models s)))).
Proof. reflexivity. Qed.

Lemma changeAndRender_ready (uris : list URI) (u : URI)
    (edit : ISingleEditOperation) (opts : ProgressingEditsOptions)
    (s : LiveStrategy) (this : ChatEditSessionService) :
  ready uris this -> In u uris ->
  uri_str (tm_uri (textModelN (_models s))) = uri_str u ->
  isCancellationRequested opts = false ->
  exists this4 : ChatEditSessionService,
    changeAndRender u edit (Some opts) s this = (this4, Continue)
    /\ ready uris this4
    /\ content_of this4 (uri_str u)
       = (fun c => fst (pushEditOperations c [edit]))
           <$> content_of this (uri_str u)
    /\ (forall k : string, k <> uri_str u ->
          content_of this4 k = content_of this k).
Proof.
  intros Hready Hu Hs Hopts. pose proof Hready as [R1 R2 R3 R4 R5 R6].
  destruct (R2 u Hu) as (m & Hm & Hlive).
  unfold changeAndRender. cbn [fst snd].
  set (bound := bind (services this) s).
  assert (Hbound : textModelN (_models bound) = m).
  { subst bound. rewrite bind_modelN, Hs, Hm. reflexivity. }
  set (s' := renderChanges (makeProgressiveChanges [edit] opts bound)).
  destruct (makeProgressiveChanges_one edit opts bound Hopts)
    as (Hcontent & Huri & Hdisposed).
  rewrite Hbound in Hcontent, Huri, Hdisposed.
  assert (Hmodels : _models s'
                    = _models (makeProgressiveChanges [edit] opts bound))
    by apply renderChanges_models.
  pose (m' := textModelN (_models s')).
  assert (Hm' : tm_content m' = fst (pushEditOperations (tm_content m) [edit])
                /\ uri_str (tm_uri m') = uri_str u
                /\ tm_disposed m' = false).
  { unfold m'. rewrite Hmodels, Hcontent, Huri, Hdisposed, (R1 _ _ Hm). auto. }
  destruct Hm' as (Hc' & Hu' & Hd').
  eexists. split; [reflexivity|].
  assert (Hstore : modelService (services (commit u s' this))
                   = <[uri_str u := m']> (modelService (services this))).
  { unfold commit, unbind.
    cbn [services with_services with_editStrategies modelService].
    unfold m' in Hu'. rewrite Hu'. reflexivity. }
  split; [|split].
  - constructor.
    + intros k m0. rewrite Hstore. intros Hk.
      destruct (decide (uri_str u = k)) as [<-|Hne].
      * rewrite lookup_insert_eq in Hk. injection Hk as <-. exact Hu'.
      * rewrite lookup_insert_ne in Hk by exact Hne. eauto.
    + intros u0 Hu0. rewrite Hstore.
      destruct (decide (uri_str u = uri_str u0)) as [Heq|Hne].
      * rewrite <- Heq, lookup_insert_eq. eauto.
      * rewrite lookup_insert_ne by exact Hne. eauto.
    + intros u0 Hu0. destruct (R3 u0 Hu0) as [Ho|[Hf Hid]]; [left; exact Ho|].
      right. unfold findCodeEditor, editors_by_id, s', bound.
      rewrite (progressive_commit_editors u [edit] opts s this Hid).
      split; assumption.
    + exact R4.
    + exact R5.
    + intros u0 s0 Hu0 Hs0. unfold commit in Hs0. cbn in Hs0.
      destruct (decide (uri_ref u = uri_ref u0)) as [Heq|Hne].
      * rewrite Heq, lookup_insert_eq in Hs0. injection Hs0 as <-.
        fold m'. rewrite Hu'. apply R4; assumption.
      * rewrite lookup_insert_ne in Hs0 by exact Hne. eauto.
  - unfold content_of. rewrite Hstore, lookup_insert_eq, Hm. cbn.
    rewrite Hc'. reflexivity.
  - intros k Hk. unfold content_of. rewrite Hstore.
    rewrite lookup_insert_ne by congruence. reflexivity.
Qed.

(** One edit operation on a document the coordinator is ready for: the loop
    goes on, and the document holds what the edit makes of its text. *)
Lemma iteration_ready (uris : list URI) (response : IChatResponseViewModel)
    (opts : ProgressingEditsOptions) (this : ChatEditSessionService)
    (u : URI) (edit : ISingleEditOperation) :
  ready uris this -> In u uris ->
  isCancellationRequested opts = false ->
  exists this' : ChatEditSessionService,
    _makeChanges_iteration response (Some opts) this (u, edit)
    = (this', Continue)
    /\ ready uris this'
    /\ content_of this' (uri_str u)
       = (fun c => fst (pushEditOperations c [edit]))
           <$> content_of this (uri_str u)
    /\ (forall k : string, k <> uri_str u ->
          content_of this' k = content_of this k).
Proof.
  intros Hready Hu Hopts. unfold _makeChanges_iteration. cbn [fst snd].
  destruct (getTextModels_ready uris u this Hready Hu)
    as (this1 & pair & -> & Hpair & Hready1 & Hm1).
  destruct (obtainCodeEditor_ready uris u this1 Hready1 Hu)
    as (this2 & codeEditor & -> & Hready2 & Hm2).
  destruct (obtainStrategy_ready uris u pair codeEditor response this2
              Hready2 Hu Hpair) as (Hs & Hready3 & Hm3).
  destruct (changeAndRender_ready uris u edit opts _ _ Hready3 Hu Hs Hopts)
    as (this4 & -> & Hready4 & Hc & Hother).
  exists this4. split; [reflexivity|]. split; [exact Hready4|].
  unfold content_of in *. rewrite Hm3, Hm2, Hm1 in Hc, Hother.
  split; assumption.
Qed.

Lemma edits_for_app (uri : string)
    (l1 l2 : list (URI * ISingleEditOperation)) :
  edits_for uri (l1 ++ l2) = edits_for uri l1 ++ edits_for uri l2.
Proof. unfold edits_for. rewrite List.filter_app, List.map_app. reflexivity. Qed.

Lemma operations_of_app (l1 l2 : list ICSChatAgentEditResponse) :
  operations_of (l1 ++ l2) = operations_of l1 ++ operations_of l2.
Proof. unfold operations_of. apply List.flat_map_app. Qed.

Lemma content_after_same (this this' : ChatEditSessionService)
    (editOps : list (URI * ISingleEditOperation)) (uri : string) :
  content_of this' uri = content_of this uri ->
  content_after this' editOps uri = content_after this editOps uri.
Proof. unfold content_after. intros ->. reflexivity. Qed.

(** Applying the first operation of a run and then the rest, or the whole
    run, gives one text. *)
Lemma content_after_cons (this this' : ChatEditSessionService) (u : URI)
    (edit : ISingleEditOperation) (rest : list (URI * ISingleEditOperation))
    (uri : string) :
  content_of this' (uri_str u)
  = (fun c => fst (pushEditOperations c [edit])) <$> content_of this (uri_str u) ->
  (forall k : string, k <> uri_str u -> content_of this' k = content_of this k) ->
  content_after this' rest uri = content_after this ((u, edit) :: rest) uri.
Proof.
  intros Hc Hother. unfold content_after, edits_for.
  cbn [List.filter fst snd].
  destruct (String.eqb_spec (uri_str u) uri) as [<-|Hne].
  - rewrite Hc. cbn [map]. destruct (content_of this (uri_str u)); reflexivity.
  - rewrite Hother by congruence. reflexivity.
Qed.

Lemma start_next_backlog (task : StreamingTask) :
  task_cancelled task = false ->
  backlog (start_next task) = backlog task
  /\ task_cancelled (start_next task) = false.
Proof.
  intros Hc. unfold start_next, backlog.
  destruct (running task) as [r|] eqn:Hr; [rewrite Hr; auto|].
  rewrite Hc. destruct (progressiveEditsQueue task) as [|p queue]; cbn; auto.
Qed.

Lemma progressCallback_step (uris : list URI)
    (progress : ICSChatAgentEditResponse) (average : Z)
    (this : ChatEditSessionService) (task : StreamingTask) :
  task_cancelled task = false -> ready uris this ->
  let st' := progressCallback progress average (this, task) in
  ready uris (fst st')
  /\ task_cancelled (snd st') = false
  /\ backlog (snd st') = backlog task ++ editOperations progress
  /\ (forall uri : string, content_of (fst st') uri = content_of this uri).
Proof.
  intros Hc Hready. unfold progressCallback. cbn [fst snd]. rewrite Hc.
  cbn [fst snd].
  match goal with
  | |- context [start_next ?t] =>
      destruct (start_next_backlog t) as [-> ->]; [reflexivity|]
  end.
  split; [|split; [reflexivity|split; [|reflexivity]]].
  - apply (ready_same uris this); auto.
  - unfold backlog. cbn [running progressiveEditsQueue].
    rewrite operations_of_app, app_assoc. unfold operations_of at 2. cbn.
    rewrite app_nil_r. reflexivity.
Qed.

Lemma run_queue_step (uris : list URI) (this : ChatEditSessionService)
    (task : StreamingTask) (suffix : list (URI * ISingleEditOperation)) :
  task_cancelled task = false -> ready uris this ->
  incl (map fst (backlog task)) uris ->
  let st' := run_queue (this, task) in
  ready uris (fst st')
  /\ task_cancelled (snd st') = false
  /\ incl (map fst (backlog (snd st'))) uris
  /\ (forall uri : string,
        content_after (fst st') (backlog (snd st') ++ suffix) uri
        = content_after this (backlog task ++ suffix) uri).
Proof.
  intros Hc Hready Hincl. unfold run_queue. cbn [fst snd].
  destruct (running task) as [[duration [|[u edit] rest]]|] eqn:Hr.
  - cbn [fst snd].
    destruct (start_next_backlog (set_running None task) Hc) as [-> ->].
    assert (Hb : backlog (set_running None task) = backlog task)
      by (unfold backlog; cbn [running set_running progressiveEditsQueue];
          rewrite Hr; reflexivity).
    rewrite Hb. auto.
  - assert (Hu : In u uris).
    { apply Hincl. unfold backlog. rewrite Hr. cbn. auto. }
    destruct (iteration_ready uris (task_response task)
                (mkOpts duration (task_cancelled task)) this u edit
                Hready Hu Hc) as (this' & -> & Hready' & Hcontent & Hother).
    cbn [fst snd].
    assert (Hb : backlog task
                 = (u, edit) :: backlog (set_running (Some (duration, rest)) task))
      by (unfold backlog; cbn [running set_running progressiveEditsQueue];
          rewrite Hr; reflexivity).
    split; [exact Hready'|]. split; [exact Hc|]. split.
    + intros x Hx. apply Hincl. rewrite Hb. cbn. auto.
    + intros uri. rewrite Hb. cbn [app].
      apply content_after_cons; assumption.
  - cbn [fst snd]. destruct (start_next_backlog task Hc) as [-> ->]. auto.
Qed.

Lemma incl_app_left {A} (l1 l2 l3 : list A) :
  incl (l1 ++ l2) l3 -> incl l1 l3 /\ incl l2 l3.
Proof.
  intros Hincl. split; intros x Hx; apply Hincl, in_app_iff; auto.
Qed.

(** Whatever the schedule, the texts that the documents hold once the
    backlog is worked off are those that the first backlog and the arrivals
    of the schedule, applied in this order, give. *)
Lemma run_task_content (uris : list URI) (schedule : list TaskEvent) :
  forall (this : ChatEditSessionService) (task : StreamingTask),
    task_cancelled task = false -> ready uris this ->
    incl (map fst (backlog task ++ operations_of (arrivals schedule))) uris ->
    let st' := run_task schedule (this, task) in
    forall uri : string,
      content_after (fst st') (backlog (snd st')) uri
      = content_after this (backlog task ++ operations_of (arrivals schedule))
          uri.
Proof.
  induction schedule as [|ev schedule IH]; intros this task Hc Hready Hincl.
  - cbn. intros uri. rewrite app_nil_r. reflexivity.
  - cbn [run_task fold_left] in *. rewrite List.map_app in Hincl.
    apply incl_app_left in Hincl as [Hbacklog Hfuture].
    destruct ev as [progress average|];
      cbn [task_step arrivals flat_map] in *.
    + destruct (progressCallback_step uris progress average this task Hc Hready)
        as (Hready' & Hc' & Hb' & Hcontent).
      destruct (progressCallback progress average (this, task))
        as [this' task'] eqn:Hstep. cbn [fst snd] in *.
      rewrite operations_of_app in Hfuture |- *.
      assert (Hone : operations_of [progress] = editOperations progress)
        by (unfold operations_of; cbn; apply app_nil_r).
      rewrite Hone in Hfuture |- *. rewrite List.map_app in Hfuture.
      apply incl_app_left in Hfuture as [Hnow Hlater].
      intros uri. fold (run_task schedule (this', task')).
      rewrite (IH this' task' Hc' Hready').
      * rewrite Hb', <- app_assoc. apply content_after_same, Hcontent.
      * rewrite Hb', !List.map_app.
        repeat apply incl_app; assumption.
    + destruct (run_queue_step uris this task
                  (operations_of (arrivals schedule)) Hc Hready Hbacklog)
        as (Hready' & Hc' & Hb' & Hcontent).
      destruct (run_queue (this, task)) as [this' task'] eqn:Hstep.
      cbn [fst snd] in *.
      intros uri. fold (run_task schedule (this', task')).
      rewrite (IH this' task' Hc' Hready').
      * apply Hcontent.
      * rewrite List.map_app. apply incl_app; assumption.
Qed.

Lemma list_sum_head (x : nat) (l : list nat) :
  list_sum (x :: l) = (x + list_sum l)%nat.
Proof. reflexivity. Qed.

Lemma start_next_work (task : StreamingTask) :
  (work (start_next task) <= work task)%nat
  /\ (running task = None -> progressiveEditsQueue task <> [] ->
      (work (start_next task) < work task)%nat).
Proof.
  unfold start_next, work.
  destruct (running task) as [r|] eqn:Hr; [rewrite Hr; split; [lia|congruence]|].
  cbn [running progressiveEditsQueue].
  generalize (progressiveEditsAvgDuration task) as duration.
  generalize (task_cancelled task) as cancelled.
  induction (progressiveEditsQueue task) as [|p queue IH]; intros cancelled duration.
  - cbn. split; [lia|congruence].
  - cbn [consume]. destruct cancelled.
    + destruct (IH true duration) as [Hle _].
      cbn [map]. rewrite list_sum_head. split; [lia|intros _ _; lia].
    + cbn [fst snd map]. rewrite list_sum_head. split; [lia|intros _ _; lia].
Qed.

Lemma run_queue_work (this : ChatEditSessionService) (task : StreamingTask) :
  quiescent task = false ->
  (work (snd (run_queue (this, task))) < work task)%nat.
Proof.
  intros Hq. unfold run_queue. cbn [fst snd].
  destruct (running task) as [[duration [|editOp rest]]|] eqn:Hr.
  - cbn [fst snd].
    destruct (start_next_work (set_running None task)) as [Hle _].
    unfold work in *. cbn [running set_running progressiveEditsQueue] in *.
    rewrite Hr. cbn [length]. lia.
  - destruct (_makeChanges_iteration _ _ _ _) as [this' [| |e]]; cbn [fst snd].
    + unfold work. cbn [running set_running progressiveEditsQueue].
      rewrite Hr. cbn [length]. lia.
    + destruct (start_next_work (set_running None task)) as [Hle _].
      unfold work in *. cbn [running set_running progressiveEditsQueue] in *.
      rewrite Hr. cbn [length]. lia.
    + destruct (start_next_work (set_running None task)) as [Hle _].
      unfold work in *. cbn [running set_running progressiveEditsQueue] in *.
      rewrite Hr. cbn [length]. lia.
  - cbn [fst snd]. apply start_next_work; [exact Hr|].
    unfold quiescent in Hq. rewrite Hr in Hq.
    destruct (progressiveEditsQueue task); [discriminate|congruence].
Qed.

Lemma run_task_turns (schedule : list TaskEvent) (n : nat)
    (st : ChatEditSessionService * StreamingTask) :
  run_task (schedule ++ repeat Runs n) st
  = Nat.iter n run_queue (run_task schedule st).
Proof.
  unfold run_task. rewrite fold_left_app.
  generalize (fold_left task_step schedule st) as st'.
  induction n as [|n IH]; intros st'; [reflexivity|].
  cbn [repeat fold_left task_step]. rewrite IH, <- Nat.iter_succ_r.
  reflexivity.
Qed.

(** Turns of the queue alone bring every task to rest. *)
Lemma turns_reach_quiescence (n : nat) :
  forall st : ChatEditSessionService * StreamingTask,
    (work (snd st) <= n)%nat ->
    quiescent (snd (Nat.iter n run_queue st)) = true.
Proof.
  induction n as [|n IH]; intros [this task] Hwork; cbn [snd] in Hwork.
  - cbn. destruct (quiescent task) eqn:Hq; [reflexivity|].
    unfold quiescent in Hq. unfold work in Hwork.
    destruct (running task) as [[? ?]|]; [cbn in Hwork; lia|].
    destruct (progressiveEditsQueue task); [discriminate|cbn in Hwork; lia].
  - rewrite Nat.iter_succ_r. apply IH.
    destruct (quiescent task) eqn:Hq.
    + unfold quiescent in Hq. unfold run_queue, start_next. cbn [fst snd].
      destruct (running task) as [r|] eqn:Hr; [discriminate|].
      rewrite ?Hr. unfold work. cbn [snd running progressiveEditsQueue].
      destruct (progressiveEditsQueue task); [|discriminate]. cbn. lia.
    + pose proof (run_queue_work this task Hq). lia.
Qed.

Lemma arrivals_turns (schedule : list TaskEvent) (n : nat) :
  arrivals (schedule ++ repeat Runs n) = arrivals schedule.
Proof.
  unfold arrivals. rewrite List.flat_map_app.
  replace (flat_map _ (repeat Runs n)) with (@nil ICSChatAgentEditResponse).
  - apply app_nil_r.
  - induction n as [|n IH]; [reflexivity|]. cbn. exact IH.
Qed.

(** The edit operations that [_makeChanges] reads off the batches are the
    edits of the batches, each for the document it names. *)
Lemma operations_of_batch_edits (batches : list ICSChatAgentEditResponse) :
  operations_of batches
  = map (fun e => (resource e,
                   mkEdit (edit_range (textEdit e)) (edit_text (textEdit e))))
      (batch_edits batches).
Proof.
  unfold operations_of, batch_edits.
  induction batches as [|progress batches IH]; [reflexivity|].
  cbn [flat_map]. rewrite List.map_app, IH. reflexivity.
Qed.

Lemma targets_operations (batches : list ICSChatAgentEditResponse) :
  map fst (operations_of batches) = targets batches.
Proof.
  rewrite operations_of_batch_edits, List.map_map. reflexivity.
Qed.

Lemma edits_for_batches (uri : string)
    (batches : list ICSChatAgentEditResponse) :
  edits_for uri (operations_of batches) = edits_in_arrival_order uri batches.
Proof.
  rewrite operations_of_batch_edits. unfold edits_for, edits_in_arrival_order.
  induction (batch_edits batches) as [|[r [rg tx]] l IH]; [reflexivity|].
  cbn [map List.filter fst snd resource textEdit edit_range edit_text].
  destruct (String.eqb (uri_str r) uri); cbn [map snd]; rewrite IH;
    reflexivity.
Qed.

(** C1, as the code has it: let the batches [batches] arrive in this order,
    interleaved in any way with the turns of the application queue, for a
    request whose token is not cancelled, and let every document that the
    batches target have a live buffer and an editor view.  Some more turns
    bring the queue to rest; and whenever it is at rest after the schedule and
    further turns, every document holds the text that the edits of all the
    batches for it, applied one after the other in the order of arrival, make
    of the text it had. *)
Theorem batches_applied_in_arrival_order (this : ChatEditSessionService)
    (responseVM : IChatResponseViewModel)
    (batches : list ICSChatAgentEditResponse) (schedule : list TaskEvent) :
  arrivals schedule = batches ->
  ready (targets batches) this ->
  (exists n : nat,
     quiescent
       (snd (run_task (schedule ++ repeat Runs n) (this, new_task responseVM)))
     = true)
  /\ (forall n : nat,
        let final :=
          run_task (schedule ++ repeat Runs n) (this, new_task responseVM) in
        quiescent (snd final) = true ->
        forall uri : string,
          content_of (fst final) uri
          = content_in_arrival_order this batches uri).
Proof.
  intros Harrivals Hready. rewrite <- targets_operations in Hready. split.
  - exists (work (snd (run_task schedule (this, new_task responseVM)))).
    rewrite run_task_turns. apply turns_reach_quiescence. lia.
  - intros n final Hq uri.
    pose proof (run_task_content (map fst (operations_of batches))
                  (schedule ++ repeat Runs n) this (new_task responseVM)
                  eq_refl Hready) as Hcontent.
    rewrite arrivals_turns, Harrivals in Hcontent.
    specialize (Hcontent (incl_refl _) uri). fold final in Hcontent.
    cbn [app backlog new_task running progressiveEditsQueue operations_of
         flat_map] in Hcontent.
    unfold content_in_arrival_order. rewrite <- edits_for_batches.
    fold (content_after this (operations_of batches) uri).
    rewrite <- Hcontent.
    unfold quiescent in Hq. unfold content_after, backlog.
    destruct (running (snd final)); [discriminate|].
    destruct (progressiveEditsQueue (snd final)); [|discriminate].
    cbn. destruct (content_of (fst final) uri); reflexivity.
Qed.

End Ordering.

Lemma example_ready :
  ready (map fst (operations_of example_batches)) example_coordinator.
Proof.
  constructor.
  - intros k m Hk. cbn in Hk.
    apply lookup_insert_Some in Hk as [[<- <-]|[_ Hk]]; [reflexivity|].
    apply lookup_insert_Some in Hk as [[<- <-]|[_ Hk]]; [reflexivity|].
    apply lookup_insert_Some in Hk as [[<- <-]|[_ Hk]]; [reflexivity|].
    rewrite lookup_empty in Hk. discriminate.
  - intros u [<-|[<-|[<-|[<-|[]]]]]; eexists; split; reflexivity.
  - intros u [<-|[<-|[<-|[<-|[]]]]]; left; reflexivity.
  - intros u u' [<-|[<-|[<-|[<-|[]]]]] [<-|[<-|[<-|[<-|[]]]]] Href;
      solve [reflexivity | discriminate Href].
  - intros u pair _ Hpair. cbn in Hpair. rewrite lookup_empty in Hpair.
    discriminate.
  - intros u s _ Hs. cbn in Hs. rewrite lookup_empty in Hs. discriminate.
Qed.

Lemma batches_applied_in_arrival_order_witness :
  (exists n : nat,
     quiescent
       (snd (run_task (example_schedule ++ repeat Runs n)
               (example_coordinator, new_task example_response)))
     = true)
  /\ (forall n : nat,
        let final :=
          run_task (example_schedule ++ repeat Runs n)
            (example_coordinator, new_task example_response) in
        quiescent (snd final) = true ->
        forall uri : string,
          content_of (fst final) uri
          = content_in_arrival_order example_coordinator example_batches uri).
Proof.
  apply (batches_applied_in_arrival_order example_coordinator example_response
           example_batches example_schedule).
  - reflexivity.
  - exact example_ready.
Defined.

(** The first batch names a document that has no live buffer before it names
    [a.ts]: its edit of [a.ts] is never applied, and at rest [a.ts] holds the
    edit of the second batch only. *)
Lemma failing_edit_breaks_arrival_order : ~ applied_in_arrival_order.
Proof.
  intros Hclaim.
  specialize (Hclaim example_coordinator example_response
                example_failing_batches example_failing_schedule eq_refl).
  cbn zeta in Hclaim.
  assert (Hrest : quiescent
                    (snd (run_task example_failing_schedule
                            (example_coordinator, new_task example_response)))
                  = true) by (vm_compute; reflexivity).
  specialize (Hclaim Hrest "file:///a.ts").
  vm_compute in Hclaim. discriminate Hclaim.
Qed.

Example example_failing_schedule_runs :
  let final :=
    run_task example_failing_schedule
      (example_coordinator, new_task example_response) in
  quiescent (snd final) = true
  /\ content_of (fst final) "file:///a.ts" = Some "onez"
  /\ content_in_arrival_order example_coordinator example_failing_batches
       "file:///a.ts" = Some "onexz".
Proof. vm_compute. repeat split. Qed.

(** A document that cannot be opened and that an editor shows already is one
    the coordinator is ready for, and its edits are applied. *)
Example example_shown_ready :
  ready (targets (arrivals example_shown_schedule)) example_shown_coordinator.
Proof.
  constructor.
  - intros k m Hk. cbn in Hk.
    apply lookup_insert_Some in Hk as [[<- <-]|[_ Hk]]; [reflexivity|].
    apply lookup_insert_Some in Hk as [[<- <-]|[_ Hk]]; [reflexivity|].
    apply lookup_insert_Some in Hk as [[<- <-]|[_ Hk]]; [reflexivity|].
    rewrite lookup_empty in Hk. discriminate.
  - intros u [<-|[<-|[]]]; eexists; split; reflexivity.
  - intros u [<-|[<-|[]]]; right; (split; [eexists; reflexivity|]);
      intros [|[|i]] e Hi; cbn in Hi; try discriminate;
      injection Hi as <-; reflexivity.
  - intros u u' [<-|[<-|[]]] [<-|[<-|[]]] Href; reflexivity.
  - intros u pair _ Hpair. cbn in Hpair. rewrite lookup_empty in Hpair.
    discriminate.
  - intros u s _ Hs. cbn in Hs. rewrite lookup_empty in Hs. discriminate.
Qed.

Example example_shown_schedule_runs :
  let final :=
    run_task (example_shown_schedule ++ repeat Runs 3)
      (example_shown_coordinator, new_task example_response) in
  quiescent (snd final) = true
  /\ canOpen (services example_shown_coordinator) "file:///c.ts" = false
  /\ content_of (fst final) "file:///c.ts" = Some "threexz".
Proof. vm_compute. repeat split. Qed.

(** The example schedule, run to rest: both documents hold their edits in
    the order of arrival. *)
Example example_schedule_runs :
  let final :=
    run_task (example_schedule ++ repeat Runs 5)
      (example_coordinator, new_task example_response) in
  quiescent (snd final) = true
  /\ content_of (fst final) "file:///a.ts" = Some "onexz"
  /\ content_of (fst final) "file:///b.ts" = Some "twoyw".
Proof. vm_compute. repeat split. Qed.

(** The response of the first request has its summary recorded under code
    block 7 when the second request was sent in between, and under code block
    0 when it was not. *)
Lemma duplicate_affects_original : ~ duplicate_leaves_original_unaffected.
Proof.
  intros Hclaim.
  specialize (Hclaim example_services example_first_request example_stream
                example_response2 (example_request 7) (mkContext 7)
                (mkPending "response-1" (example_request 0))
                eq_refl eq_refl).
  apply (f_equal (fun sv => vm_recorded <$> responses sv !! "response-1"))
    in Hclaim.
  vm_compute in Hclaim. discriminate Hclaim.
Qed.

Lemma one_request_in_flight_per_session_witness :
  let sys := run_system example_first_request (new_System example_services) in
  snd (sendEditRequest example_response2 (example_request 7) (coordinator sys))
  = None
  /\ system_step sys example_duplicate
     = mkSystem (turned_down example_response2 (mkContext 7) (coordinator sys))
         (tasks sys).
Proof.
  intros sys.
  apply (proj2 (one_request_in_flight_per_session example_services
                  example_first_request)
           example_response2 (example_request 7) (mkContext 7)
           (mkPending "response-1" (example_request 0))).
  - reflexivity.
  - reflexivity.
Defined.

Lemma cancel_rewinds_witness :
  exists (k : nat) (s' : LiveStrategy),
    cancel example_edited = Some s'
    /\ s' = with_decorations (_diffDecorations s')
              (with_modelN (undone k (textModelN (_models example_edited)))
                 example_edited)
    /\ CSChatEditsDiffDecorations._collection (_diffDecorations s') = []
    /\ CSChatEditsDiffDecorations._data (_diffDecorations s') = []
    /\ CSChatEditsDiffDecorations.decorationRanges (_diffDecorations s') = []
    /\ getEditRangesInProgress s' = []
    /\ CSChatEditsDiffDecorations.visible (_diffDecorations s')
       = CSChatEditsDiffDecorations.visible (_diffDecorations example_edited)
    /\ (forall j : nat, (j < k)%nat ->
          cancel_target example_edited
          < getAlternativeVersionId
              (undone j (textModelN (_models example_edited)))
          /\ canUndo (undone j (textModelN (_models example_edited))) = true)
    /\ (getAlternativeVersionId
          (undone k (textModelN (_models example_edited)))
        <= cancel_target example_edited
        \/ canUndo (undone k (textModelN (_models example_edited))) = false).
Proof. exact (cancel_rewinds example_edited). Defined.

(** Rejecting the edit of the example undoes it. *)
Example example_cancel :
  tm_content (textModelN (_models example_edited)) = "onex"
  /\ (fun s => tm_content (textModelN (_models s))) <$> cancel example_edited
     = Some "one".
Proof. split; reflexivity. Qed.

(** * Further properties *)

(** ** The decorations *)

Section Decorations.
Import CSChatEditsDiffDecorations.

Lemma update_ranges (d : t) :
  map range (_collection (update d)) = decorationRanges d.
Proof.
  unfold update, decorationRanges. cbn [_collection]. rewrite List.map_map.
  apply List.map_ext. intros x. destruct (_visible d); reflexivity.
Qed.

(** X1: setting the visibility re-renders and discards nothing: the tracked
    ranges are the same, the view shows one decoration per tracked range, on
    that range, and it carries the decorating options merged in exactly
    when the decorations are visible; setting the visibility again replaces
    the first setting altogether. *)
Theorem set_visible_rerenders (value value' : bool) (d : t) :
  decorationRanges (set_visible value d) = decorationRanges d
  /\ map range (_collection (set_visible value d)) = decorationRanges d
  /\ map options (_collection (set_visible value d))
     = map (fun x =>
              if value then spread (options (tracking x)) (decorating x)
              else options (tracking x))
         (_data d)
  /\ set_visible value' (set_visible value d) = set_visible value' d.
Proof.
  split; [reflexivity|]. split; [|split].
  - unfold set_visible. rewrite update_ranges. reflexivity.
  - unfold set_visible, update. cbn [_collection _data _visible].
    rewrite List.map_map. apply List.map_ext. intros x.
    destruct value; reflexivity.
  - reflexivity.
Qed.

Lemma isBefore_spec (p q : IPosition) :
  Position.isBefore p q = true
  <-> lineNumber p < lineNumber q
      \/ (lineNumber p = lineNumber q /\ column p < column q).
Proof.
  unfold Position.isBefore.
  destruct (Z.ltb_spec (lineNumber p) (lineNumber q)); [intuition lia|].
  destruct (Z.ltb_spec (lineNumber q) (lineNumber p)).
  - split; [discriminate | lia].
  - destruct (Z.ltb_spec (column p) (column q)); split;
      try discriminate; try reflexivity; lia.
Qed.

Lemma not_after_spec (p q : IPosition) :
  not_after p q
  <-> lineNumber q < lineNumber p
      \/ (lineNumber q = lineNumber p /\ column q <= column p).
Proof.
  unfold not_after. pose proof (isBefore_spec p q) as Hs.
  destruct (Position.isBefore p q).
  - split; [discriminate|]. intros Hq.
    assert (Ht : true = true) by reflexivity. apply Hs in Ht. lia.
  - split; [|reflexivity]. intros _.
    destruct (Z.lt_trichotomy (lineNumber q) (lineNumber p)) as [Hl|[Hl|Hl]];
      [lia| |].
    + destruct (Z.le_gt_cases (column q) (column p)); [lia|].
      assert (Hf : false = true); [|discriminate].
      apply Hs. lia.
    + assert (Hf : false = true); [|discriminate]. apply Hs. lia.
Qed.

(** The loop of the cursor state computer, from any state of its two
    variables. *)
Lemma cursorState_loop (undoEdits : list IValidEditOperation) :
  forall (d : t) (last : option IPosition) (seen : list IPosition),
    match last with
    | None => seen = []
    | Some p => In p seen /\ Forall (not_after p) seen
    end ->
    let step := fun (acc : t * option IPosition) edit =>
      let endPosition := Range.getEndPosition (valid_range edit) in
      let last :=
        match snd acc with
        | None => endPosition
        | Some l => if Position.isBefore l endPosition then endPosition else l
        end in
      (collectEditOperation edit (fst acc), Some last) in
    let result := fold_left step undoEdits (d, last) in
    decorationRanges (fst result)
    = decorationRanges d ++ map valid_range undoEdits
    /\ _collection (fst result) = _collection d
    /\ _visible (fst result) = _visible d
    /\ match snd result with
       | None => seen ++ end_positions undoEdits = []
       | Some p =>
           In p (seen ++ end_positions undoEdits)
           /\ Forall (not_after p) (seen ++ end_positions undoEdits)
       end.
Proof.
  induction undoEdits as [|edit rest IH]; intros d last seen Hlast; cbn zeta.
  - cbn. rewrite !app_nil_r. auto.
  - cbn [fold_left fst snd].
    set (endPosition := Range.getEndPosition (valid_range edit)).
    set (last' := match last with
                  | None => endPosition
                  | Some l =>
                      if Position.isBefore l endPosition then endPosition else l
                  end).
    assert (Hlast' : In last' (seen ++ [endPosition])
                     /\ Forall (not_after last') (seen ++ [endPosition])).
    { subst last'. destruct last as [l|].
      - destruct Hlast as [Hin Hall].
        destruct (Position.isBefore l endPosition) eqn:Hb.
        + split; [apply in_app_iff; right; left; reflexivity|].
          apply Forall_app. split.
          * apply isBefore_spec in Hb.
            eapply List.Forall_impl; [|exact Hall]. intros q Hq.
            apply not_after_spec. apply not_after_spec in Hq. lia.
          * repeat constructor. apply not_after_spec. lia.
        + split; [apply in_app_iff; left; exact Hin|].
          apply Forall_app. split; [exact Hall|]. repeat constructor. exact Hb.
      - subst seen. cbn. split; [left; reflexivity|].
        repeat constructor. apply not_after_spec. lia. }
    specialize (IH (collectEditOperation edit d) (Some last')
                  (seen ++ [endPosition]) Hlast').
    cbn zeta in IH. destruct IH as (Hr & Hc & Hv & Hl).
    split; [|split; [exact Hc|split; [exact Hv|]]].
    + rewrite Hr. unfold decorationRanges, collectEditOperation.
      cbn [_data map]. rewrite List.map_app, <- app_assoc. reflexivity.
    + unfold end_positions in *. cbn [map]. fold endPosition.
      rewrite <- app_assoc in Hl. exact Hl.
Qed.

(** X2: the cursor state computer tracks one range per inverse edit, in
    their order, and leaves the view as it is; it returns no cursor state
    when there is no inverse edit, and otherwise the end position of one of
    them that none of the others lies after. *)
Theorem cursorState_furthest_end (undoEdits : list IValidEditOperation)
    (d : t) :
  let result := cursorStateComputerAndInlineDiffCollection undoEdits d in
  decorationRanges (fst result)
  = decorationRanges d ++ map valid_range undoEdits
  /\ _collection (fst result) = _collection d
  /\ match snd result with
     | None => undoEdits = []
     | Some p =>
         In p (end_positions undoEdits)
         /\ Forall (not_after p) (end_positions undoEdits)
     end.
Proof.
  pose proof (cursorState_loop undoEdits d None [] eq_refl) as Hloop.
  cbn zeta in Hloop. destruct Hloop as (Hr & Hc & _ & Hl).
  unfold cursorStateComputerAndInlineDiffCollection. cbn zeta.
  split; [exact Hr|]. split; [exact Hc|].
  cbn [app] in Hl. destruct (snd _) as [p|]; [exact Hl|].
  unfold end_positions in Hl. destruct undoEdits; [reflexivity|discriminate].
Qed.

End Decorations.

(** ** Counting calls, accepting and rejecting *)

Section AcceptReject.
Context `{Host}.

Lemma run_call_count (s : LiveStrategy) (c : EditCall) :
  _editCount (run_call s c) = _editCount s + 1.
Proof.
  destruct c as [edits | edits opts]; cbn [run_call].
  - unfold makeChanges. cbn [_editCount with_editCount].
    destruct (_editCount s + 1 =? 1); [destruct edits as [|e es]|];
      reflexivity.
  - unfold makeProgressiveChanges.
    match goal with
    | |- context [fold_left (revealEdit opts) edits ?s0] =>
        destruct (revealEdits_flags opts edits s0) as (_ & _ & ->)
    end.
    cbn [_editCount with_editCount].
    destruct (_editCount s + 1 =? 1); reflexivity.
Qed.

Lemma run_calls_count (calls : list EditCall) (s : LiveStrategy) :
  _editCount (run_calls calls s) = _editCount s + Z.of_nat (length calls).
Proof.
  revert s. induction calls as [|c calls IH]; intros s.
  - cbn. lia.
  - cbn [run_calls fold_left length]. fold (run_calls calls (run_call s c)).
    rewrite IH, run_call_count. lia.
Qed.

(** X3: [_editCount] counts the calls of the two editing methods, whatever
    they applied.  So on an instance that starts with no call made, [apply]
    pushes its closing undo stop exactly when a call was made before, even
    one with no edit; it leaves the text as it is and no range in progress. *)
Theorem apply_closes_after_calls (s : LiveStrategy) (calls : list EditCall) :
  _editCount s = 0 ->
  let s' := run_calls calls s in
  _editCount s' = Z.of_nat (length calls)
  /\ tm_log (textModelN (_models (apply s')))
     = tm_log (textModelN (_models s'))
       ++ match calls with [] => [] | _ :: _ => [MPushStackElement] end
  /\ tm_content (textModelN (_models (apply s')))
     = tm_content (textModelN (_models s'))
  /\ getEditRangesInProgress (apply s') = [].
Proof.
  intros H0 s'. pose proof (run_calls_count calls s) as Hcount.
  fold s' in Hcount. rewrite H0 in Hcount. cbn [Z.add] in Hcount.
  split; [exact Hcount|]. unfold apply. rewrite Hcount.
  destruct calls as [|c calls].
  - cbn. rewrite app_nil_r. auto.
  - replace (0 <? Z.of_nat (length (c :: calls))) with true
      by (symmetry; apply Z.ltb_lt; cbn [length]; lia).
    cbn. auto.
Qed.

Lemma revealEdits_text (opts : ProgressingEditsOptions)
    (edits : list ISingleEditOperation) (s : LiveStrategy) :
  tm_content (textModelN (_models (fold_left (revealEdit opts) edits s)))
  = if isCancellationRequested opts
    then tm_content (textModelN (_models s))
    else apply_sequentially (tm_content (textModelN (_models s))) edits.
Proof.
  revert s. induction edits as [|e es IH]; intros s; cbn [fold_left].
  - destruct (isCancellationRequested opts); reflexivity.
  - rewrite IH. unfold revealEdit, performAsyncTextEdit.
    destruct (isCancellationRequested opts); reflexivity.
Qed.

(** X4: [makeProgressiveChanges] applies its edits one after the other,
    each to the text the one before it left, and none when the token is
    cancelled; [makeChanges], when it does not throw, applies its whole list
    as one edit operation. *)
Theorem progressive_and_discrete_text (edits : list ISingleEditOperation)
    (opts : ProgressingEditsOptions) (s : LiveStrategy) :
  let text := tm_content (textModelN (_models s)) in
  tm_content (textModelN (_models (makeProgressiveChanges edits opts s)))
  = (if isCancellationRequested opts then text
     else apply_sequentially text edits)
  /\ tm_content (textModelN (_models (fst (makeChanges edits s))))
     = match snd (makeChanges edits s) with
       | Normal => fst (pushEditOperations text edits)
       | Throw _ => text
       end.
Proof.
  intros text. split.
  - unfold makeProgressiveChanges. rewrite revealEdits_text.
    cbn [_editCount with_editCount].
    destruct (_editCount s + 1 =? 1); reflexivity.
  - unfold makeChanges. cbn [_editCount with_editCount].
    destruct (_editCount s + 1 =? 1); [destruct edits as [|e es]|];
      reflexivity.
Qed.

Lemma undo_disposed (model : TextModel) :
  tm_disposed (undo model) = tm_disposed model.
Proof. unfold undo. destruct (tm_undoStack model); reflexivity. Qed.

Lemma undone_disposed (k : nat) (model : TextModel) :
  tm_disposed (undone k model) = tm_disposed model.
Proof.
  induction k as [|k IH]; [reflexivity|].
  unfold undone in *. rewrite Nat.iter_succ, undo_disposed. exact IH.
Qed.

Lemma _undoModelUntil_settled (model : TextModel) (target : Z) :
  rewind_pending target model = false ->
  _undoModelUntil model target = Some model.
Proof.
  intros Hp. unfold _undoModelUntil. cbn [_undoModelUntil_loop].
  fold (rewind_pending target model). rewrite Hp. reflexivity.
Qed.

(** X5: rejecting is idempotent: a second [cancel] right after a first one
    changes nothing. *)
Theorem cancel_idempotent (s s' : LiveStrategy) :
  cancel s = Some s' -> cancel s' = Some s'.
Proof.
  intros Hc. unfold cancel in Hc.
  destruct (isDisposed (textModelN (_models s))) eqn:Hd.
  - injection Hc as <-. unfold cancel. rewrite Hd. reflexivity.
  - fold (cancel_target s) in Hc.
    destruct (_undoModelUntil_loop_ends
                (S (length (tm_undoStack (textModelN (_models s)))))
                (textModelN (_models s)) (cancel_target s))
      as (k & Hk & _ & Hafter); [lia|].
    unfold _undoModelUntil in Hc. rewrite Hk in Hc. injection Hc as <-.
    unfold cancel. cbn [_models with_modelN with_decorations textModelN].
    unfold isDisposed in *. rewrite undone_disposed, Hd.
    cbn [textModelNSnapshotAltVersion textModelNAltVersion].
    fold (cancel_target s).
    rewrite (_undoModelUntil_settled _ _ Hafter). reflexivity.
Qed.

End AcceptReject.

Lemma apply_closes_after_calls_witness :
  let s' :=
    run_calls [CallMakeProgressiveChanges [] (mkOpts 1000 false)]
      example_strategy in
  _editCount s' = 1
  /\ tm_log (textModelN (_models (apply s')))
     = tm_log (textModelN (_models s')) ++ [MPushStackElement]
  /\ tm_content (textModelN (_models (apply s')))
     = tm_content (textModelN (_models s'))
  /\ getEditRangesInProgress (apply s') = [].
Proof.
  apply (apply_closes_after_calls example_strategy
           [CallMakeProgressiveChanges [] (mkOpts 1000 false)]).
  reflexivity.
Defined.

Lemma cancel_idempotent_witness :
  cancel (with_decorations
            (CSChatEditsDiffDecorations.clear (_diffDecorations example_edited))
            (with_modelN (undone 1 (textModelN (_models example_edited)))
               example_edited))
  = Some
      (with_decorations
         (CSChatEditsDiffDecorations.clear (_diffDecorations example_edited))
         (with_modelN (undone 1 (textModelN (_models example_edited)))
            example_edited)).
Proof.
  apply (cancel_idempotent example_edited). reflexivity.
Defined.

(** ** Rejecting restores the text *)

Section Restore.
Context `{Host}.

Lemma rewinds_to_closed (c0 : Content) (alt0 : Z) (c : Content) (alt : Z)
    (u : UndoElement) (rest : list UndoElement) (closed : bool) :
  rewinds_to c0 alt0 c alt (u :: rest) ->
  rewinds_to c0 alt0 c alt
    (mkUndoElement (ue_content u) (ue_alternativeVersionId u) closed :: rest).
Proof.
  inversion 1; subst; [apply rewinds_here|].
  apply rewinds_undo; assumption.
Qed.

Lemma pushStackElement_rewindable (c0 : Content) (alt0 : Z)
    (model : TextModel) :
  rewindable c0 alt0 model ->
  rewindable c0 alt0 (pushStackElement model)
  /\ opens_element alt0 (pushStackElement model).
Proof.
  intros (Hr & Hv & Hd). unfold rewindable, opens_element, closed_top.
  unfold pushStackElement. cbn.
  destruct (tm_undoStack model) as [|u rest]; cbn.
  - auto.
  - split; [|reflexivity]. split; [|auto].
    apply rewinds_to_closed. exact Hr.
Qed.

Lemma edited_rewindable (c0 : Content) (alt0 : Z) (model : TextModel)
    (edits : list ISingleEditOperation) (c : Content) :
  rewindable c0 alt0 model -> opens_element alt0 model ->
  rewindable c0 alt0 (edited model edits c)
  /\ opens_element alt0 (edited model edits c).
Proof.
  intros (Hr & Hv & Hd) Hopen. unfold rewindable, opens_element.
  unfold edited. cbn. split; [|lia]. split; [|split; [lia|exact Hd]].
  unfold record_undo. unfold opens_element, closed_top in Hopen.
  inversion Hr as [stack Hc Ha Hs | c' alt' u rest Hlt Hinner Hc Ha Hs].
  - symmetry in Ha. specialize (Hopen Ha).
    destruct (tm_undoStack model) as [|u rest].
    + apply rewinds_undo; [lia|]. cbn. apply rewinds_here.
    + rewrite Hopen. apply rewinds_undo; [lia|]. cbn. apply rewinds_here.
  - destruct (ue_closed u).
    + apply rewinds_undo; [lia|]. cbn. rewrite Hs. exact Hr.
    + apply rewinds_undo; [lia|]. exact Hinner.
Qed.

Lemma pushUndoStop_between (c0 : Content) (alt0 : Z) (s : LiveStrategy) :
  rewindable c0 alt0 (textModelN (_models s)) ->
  rewindable c0 alt0 (textModelN (_models (pushUndoStop s)))
  /\ opens_element alt0 (textModelN (_models (pushUndoStop s))).
Proof. intros Hr. apply pushStackElement_rewindable. exact Hr. Qed.

Lemma executeEdits_between (c0 : Content) (alt0 : Z)
    (edits : list ISingleEditOperation) (s : LiveStrategy) :
  rewindable c0 alt0 (textModelN (_models s)) ->
  opens_element alt0 (textModelN (_models s)) ->
  rewindable c0 alt0 (textModelN (_models (executeEdits edits s)))
  /\ opens_element alt0 (textModelN (_models (executeEdits edits s))).
Proof. intros Hr Ho. apply edited_rewindable; assumption. Qed.

Lemma revealEdits_between (c0 : Content) (alt0 : Z)
    (opts : ProgressingEditsOptions) (edits : list ISingleEditOperation) :
  forall s : LiveStrategy,
    rewindable c0 alt0 (textModelN (_models s)) ->
    opens_element alt0 (textModelN (_models s)) ->
    rewindable c0 alt0
      (textModelN (_models (fold_left (revealEdit opts) edits s)))
    /\ opens_element alt0
         (textModelN (_models (fold_left (revealEdit opts) edits s))).
Proof.
  induction edits as [|e es IH]; intros s Hr Ho; cbn [fold_left]; [auto|].
  assert (Hstep : rewindable c0 alt0 (textModelN (_models (revealEdit opts s e)))
                  /\ opens_element alt0
                       (textModelN (_models (revealEdit opts s e)))).
  { unfold revealEdit, performAsyncTextEdit.
    destruct (isCancellationRequested opts); cbn [fst snd]; [auto|].
    apply edited_rewindable; assumption. }
  destruct Hstep as [Hr' Ho']. apply IH; assumption.
Qed.

Lemma stamps_with_modelN (m : TextModel) (s : LiveStrategy) :
  textModelNSnapshotAltVersion (_models (with_modelN m s))
  = textModelNSnapshotAltVersion (_models s)
  /\ textModelNAltVersion (_models (with_modelN m s))
     = textModelNAltVersion (_models s).
Proof. split; reflexivity. Qed.

Lemma revealEdits_stamps (opts : ProgressingEditsOptions)
    (edits : list ISingleEditOperation) :
  forall s : LiveStrategy,
    textModelNSnapshotAltVersion
      (_models (fold_left (revealEdit opts) edits s))
    = textModelNSnapshotAltVersion (_models s)
    /\ textModelNAltVersion (_models (fold_left (revealEdit opts) edits s))
       = textModelNAltVersion (_models s)
    /\ textModel0 (_models (fold_left (revealEdit opts) edits s))
       = textModel0 (_models s)
    /\ _editCodeblockInProgress (fold_left (revealEdit opts) edits s)
       = _editCodeblockInProgress s.
Proof.
  induction edits as [|e es IH]; intros s; cbn [fold_left]; [auto|].
  destruct (IH (revealEdit opts s e)) as (-> & -> & -> & ->). auto.
Qed.

Lemma run_call_between (c0 : Content) (alt0 : Z) (s : LiveStrategy)
    (c : EditCall) :
  between_calls c0 alt0 s -> between_calls c0 alt0 (run_call s c)
                             /\ 1 <= _editCount (run_call s c).
Proof.
  intros (Hcount & Hr & Ho & Hsnap & Halt).
  assert (Hcount' : _editCount (run_call s c) = _editCount s + 1)
    by apply run_call_count.
  split; [|lia]. unfold between_calls. rewrite Hcount'.
  split; [lia|].
  assert (Hmodel : rewindable c0 alt0 (textModelN (_models (run_call s c)))
                   /\ opens_element alt0 (textModelN (_models (run_call s c)))
                   /\ textModelNSnapshotAltVersion (_models (run_call s c))
                      = textModelNSnapshotAltVersion (_models s)
                   /\ textModelNAltVersion (_models (run_call s c))
                      = textModelNAltVersion (_models s)).
  { destruct c as [edits | edits opts]; cbn [run_call].
    - unfold makeChanges. cbn [_editCount with_editCount].
      destruct (Z.eqb_spec (_editCount s + 1) 1) as [H1|H1].
      + destruct (pushUndoStop_between c0 alt0
                    (with_editCount (_editCount s + 1) s) Hr) as [Hr1 Ho1].
        destruct edits as [|e es]; cbn [fst]; [auto|].
        destruct (executeEdits_between c0 alt0 (e :: es)
                    (with_editor_event
                       (EvRevealPositionInCenter
                          (mkPosition (startLineNumber (edit_range e))
                             (startColumn (edit_range e))))
                       (pushUndoStop (with_editCount (_editCount s + 1) s)))
                    Hr1 Ho1) as [Hr2 Ho2].
        auto.
      + cbn [fst].
        destruct (executeEdits_between c0 alt0 edits
                    (with_editCount (_editCount s + 1) s) Hr) as [Hr2 Ho2];
          [apply Ho; lia|]. auto.
    - unfold makeProgressiveChanges. cbn [_editCount with_editCount].
      destruct (Z.eqb_spec (_editCount s + 1) 1) as [H1|H1].
      + destruct (pushUndoStop_between c0 alt0
                    (with_editCount (_editCount s + 1) s) Hr) as [Hr1 Ho1].
        destruct (revealEdits_between c0 alt0 opts edits _ Hr1 Ho1)
          as [Hr2 Ho2].
        destruct (revealEdits_stamps opts edits
                    (pushUndoStop (with_editCount (_editCount s + 1) s)))
          as (Hs1 & Hs2 & _).
        rewrite Hs1, Hs2. auto.
      + destruct (revealEdits_between c0 alt0 opts edits
                    (with_editCount (_editCount s + 1) s) Hr) as [Hr2 Ho2];
          [apply Ho; lia|].
        destruct (revealEdits_stamps opts edits
                    (with_editCount (_editCount s + 1) s))
          as (Hs1 & Hs2 & _).
        rewrite Hs1, Hs2. auto. }
  destruct Hmodel as (Hr' & Ho' & -> & ->). auto.
Qed.

Lemma run_calls_between (c0 : Content) (alt0 : Z) (calls : list EditCall) :
  forall s : LiveStrategy,
    between_calls c0 alt0 s -> between_calls c0 alt0 (run_calls calls s).
Proof.
  induction calls as [|c calls IH]; intros s Hs; [exact Hs|].
  cbn [run_calls fold_left]. apply IH. apply run_call_between. exact Hs.
Qed.

Lemma apply_between (c0 : Content) (alt0 : Z) (s : LiveStrategy) :
  between_calls c0 alt0 s -> between_calls c0 alt0 (apply s).
Proof.
  intros (Hcount & Hr & Ho & Hsnap & Halt). unfold between_calls, apply.
  destruct (Z.ltb_spec 0 (_editCount s)).
  - destruct (pushUndoStop_between c0 alt0 s Hr) as [Hr1 Ho1].
    cbn. auto.
  - cbn. auto.
Qed.

Lemma rewinds_to_loop (c0 : Content) (alt0 : Z) (c : Content) (alt : Z)
    (stack : list UndoElement) :
  rewinds_to c0 alt0 c alt stack ->
  forall (model : TextModel) (fuel : nat),
    tm_content model = c -> tm_alternativeVersionId model = alt ->
    tm_undoStack model = stack -> (length stack < fuel)%nat ->
    exists model' : TextModel,
      _undoModelUntil_loop fuel model alt0 = Some model'
      /\ tm_content model' = c0.
Proof.
  induction 1 as [stack | c alt u rest Hlt Hinner IH];
    intros model fuel Hc Ha Hs Hfuel.
  - destruct fuel as [|fuel]; [lia|]. cbn [_undoModelUntil_loop].
    unfold getAlternativeVersionId. rewrite Ha, Z.ltb_irrefl. cbn.
    eauto.
  - destruct fuel as [|fuel]; [cbn in Hfuel; lia|]. cbn [_undoModelUntil_loop].
    unfold getAlternativeVersionId, canUndo. rewrite Ha, Hs.
    replace (alt0 <? alt) with true by (symmetry; apply Z.ltb_lt; exact Hlt).
    cbn [andb]. apply IH.
    + unfold undo. rewrite Hs. reflexivity.
    + unfold undo. rewrite Hs. reflexivity.
    + unfold undo. rewrite Hs. reflexivity.
    + cbn in Hfuel. lia.
Qed.

(** X6: take an instance that has made no call yet, on a live buffer that
    is not disposed and whose alternative version is the one its pair
    recorded.  After any calls of the two editing methods, with [apply]
    called in between or not, [cancel] returns and the live buffer holds the
    text it had before the first call. *)
Theorem cancel_restores_text (s : LiveStrategy)
    (calls calls' : list EditCall) (accepted : bool) :
  _editCount s = 0 ->
  isDisposed (textModelN (_models s)) = false ->
  textModelNSnapshotAltVersion (_models s) = None ->
  textModelNAltVersion (_models s)
  = tm_alternativeVersionId (textModelN (_models s)) ->
  tm_alternativeVersionId (textModelN (_models s))
  <= tm_versionId (textModelN (_models s)) ->
  let s1 := run_calls calls s in
  let s2 := if accepted then apply s1 else s1 in
  let s3 := run_calls calls' s2 in
  exists s' : LiveStrategy,
    cancel s3 = Some s'
    /\ tm_content (textModelN (_models s'))
       = tm_content (textModelN (_models s)).
Proof.
  intros H0 Hd Hsnap Halt Hversion s1 s2 s3.
  set (c0 := tm_content (textModelN (_models s))).
  set (alt0 := tm_alternativeVersionId (textModelN (_models s))).
  assert (Hs : between_calls c0 alt0 s).
  { unfold between_calls, rewindable. rewrite H0.
    split; [lia|]. split; [|split; [lia|auto]].
    split; [apply rewinds_here|auto]. }
  assert (Hs3 : between_calls c0 alt0 s3).
  { subst s3. apply run_calls_between. subst s2.
    destruct accepted; [apply apply_between|]; subst s1;
      apply run_calls_between; exact Hs. }
  destruct Hs3 as (_ & (Hr & _ & Hd3) & _ & Hsnap3 & Halt3).
  destruct (rewinds_to_loop c0 alt0 _ _ _ Hr (textModelN (_models s3))
              (S (length (tm_undoStack (textModelN (_models s3)))))
              eq_refl eq_refl eq_refl) as (model' & Hloop & Hc); [lia|].
  unfold cancel, isDisposed. rewrite Hd3, Hsnap3, Halt3.
  unfold _undoModelUntil. rewrite Hloop.
  eexists. split; [reflexivity|]. exact Hc.
Qed.

End Restore.

Lemma cancel_restores_text_witness :
  exists s' : LiveStrategy,
    cancel
      (run_calls [CallMakeChanges [example_edit "c"]]
         (apply
            (run_calls
               [CallMakeProgressiveChanges [example_edit "a"; example_edit "b"]
                  (mkOpts 1000 false)]
               example_strategy)))
    = Some s'
    /\ tm_content (textModelN (_models s')) = "one".
Proof.
  apply (cancel_restores_text example_strategy
           [CallMakeProgressiveChanges [example_edit "a"; example_edit "b"]
              (mkOpts 1000 false)]
           [CallMakeChanges [example_edit "c"]] true);
    first [reflexivity | cbn; lia].
Defined.

(** ** The bookkeeping of requests *)

Section Bookkeeping.
Context `{Host}.

Lemma same_bookkeeping_refl (this : ChatEditSessionService) :
  same_bookkeeping this this.
Proof. repeat split. Qed.

Lemma same_bookkeeping_trans (this1 this2 this3 : ChatEditSessionService) :
  same_bookkeeping this1 this2 -> same_bookkeeping this2 this3 ->
  same_bookkeeping this1 this3.
Proof.
  intros (A1 & A2 & A3 & A4) (B1 & B2 & B3 & B4).
  unfold same_bookkeeping. split_and!; congruence.
Qed.

Lemma getTextModels_bookkeeping (uri : URI) (this : ChatEditSessionService) :
  same_bookkeeping this (fst (getTextModels uri this)).
Proof.
  unfold getTextModels.
  destruct (textModels this !! uri_ref uri); [repeat split|].
  destruct (getModel (services this) uri); repeat split.
Qed.

Lemma obtainCodeEditor_bookkeeping (uri : URI) (this : ChatEditSessionService) :
  same_bookkeeping this (fst (obtainCodeEditor uri this)).
Proof.
  unfold obtainCodeEditor, openCodeEditor.
  destruct (findCodeEditor (services this) uri); [repeat split|].
  destruct (canOpen (services this) (uri_str uri)); repeat split.
Qed.

Lemma obtainStrategy_bookkeeping (uri : URI)
    (pair : ICSChatCodeblockTextModels) (codeEditor : ICodeEditor)
    (response : IChatResponseViewModel) (this : ChatEditSessionService) :
  same_bookkeeping this
    (fst (obtainStrategy uri pair codeEditor response this)).
Proof.
  unfold obtainStrategy.
  destruct (editStrategies this !! uri_ref uri); repeat split.
Qed.

Lemma changeAndRender_bookkeeping (uri : URI) (edit : ISingleEditOperation)
    (opts : option ProgressingEditsOptions) (editStrategy : LiveStrategy)
    (this : ChatEditSessionService) :
  same_bookkeeping this (fst (changeAndRender uri edit opts editStrategy this)).
Proof.
  unfold changeAndRender. destruct opts as [opts|]; cbn [fst snd].
  - repeat split.
  - destruct (makeChanges [edit] (bind (services this) editStrategy))
      as [s [|e]]; repeat split.
Qed.

Lemma iteration_bookkeeping (response : IChatResponseViewModel)
    (opts : option ProgressingEditsOptions) (this : ChatEditSessionService)
    (editOp : URI * ISingleEditOperation) :
  same_bookkeeping this (fst (_makeChanges_iteration response opts this editOp)).
Proof.
  destruct editOp as [uri edit]. unfold _makeChanges_iteration. cbn [fst snd].
  pose proof (getTextModels_bookkeeping uri this) as H1.
  destruct (getTextModels uri this) as [this1 [pair|message]];
    cbn [fst snd] in *; [|exact H1].
  pose proof (obtainCodeEditor_bookkeeping uri this1) as H2.
  destruct (obtainCodeEditor uri this1) as [this2 [codeEditor|]];
    cbn [fst snd] in *;
    [|exact (same_bookkeeping_trans _ _ _ H1 H2)].
  eapply same_bookkeeping_trans; [exact H1|].
  eapply same_bookkeeping_trans; [exact H2|].
  eapply same_bookkeeping_trans; [apply obtainStrategy_bookkeeping|].
  apply changeAndRender_bookkeeping.
Qed.

Lemma loop_bookkeeping (response : IChatResponseViewModel)
    (opts : option ProgressingEditsOptions)
    (editOps : list (URI * ISingleEditOperation)) :
  forall this : ChatEditSessionService,
    same_bookkeeping this (fst (_makeChanges_loop response opts editOps this)).
Proof.
  induction editOps as [|editOp rest IH]; intros this; cbn [_makeChanges_loop].
  - apply same_bookkeeping_refl.
  - pose proof (iteration_bookkeeping response opts this editOp) as Hi.
    destruct (_makeChanges_iteration response opts this editOp)
      as [this' [| |e]]; cbn [fst snd] in *; try exact Hi.
    eapply same_bookkeeping_trans; [exact Hi | apply IH].
Qed.

Lemma run_queue_bookkeeping (st : ChatEditSessionService * StreamingTask) :
  same_bookkeeping (fst st) (fst (run_queue st)).
Proof.
  unfold run_queue. destruct (running (snd st)) as [[duration [|editOp rest]]|];
    try apply same_bookkeeping_refl.
  pose proof (iteration_bookkeeping (task_response (snd st))
                (Some (mkOpts duration (task_cancelled (snd st)))) (fst st)
                editOp) as Hi.
  destruct (_makeChanges_iteration _ _ _ _) as [this' [| |e]];
    cbn [fst snd] in *; exact Hi.
Qed.

Lemma start_next_response (task : StreamingTask) :
  task_response (start_next task) = task_response task
  /\ task_cancelled (start_next task) = task_cancelled task.
Proof. unfold start_next. destruct (running task); split; reflexivity. Qed.

Lemma progressCallback_response (progress : ICSChatAgentEditResponse)
    (average : Z) (st : ChatEditSessionService * StreamingTask) :
  task_response (snd (progressCallback progress average st))
  = task_response (snd st)
  /\ task_cancelled (snd (progressCallback progress average st))
     = task_cancelled (snd st).
Proof.
  unfold progressCallback. destruct (task_cancelled (snd st)) eqn:Hc; [auto|].
  cbn [fst snd].
  match goal with
  | |- context [start_next ?t] => destruct (start_next_response t) as [-> ->]
  end.
  auto.
Qed.

Lemma run_queue_response (st : ChatEditSessionService * StreamingTask) :
  task_response (snd (run_queue st)) = task_response (snd st)
  /\ task_cancelled (snd (run_queue st)) = task_cancelled (snd st).
Proof.
  unfold run_queue. destruct (running (snd st)) as [[duration [|editOp rest]]|].
  - cbn [fst snd].
    destruct (start_next_response (set_running None (snd st))) as [-> ->].
    auto.
  - destruct (_makeChanges_iteration _ _ _ _) as [this' [| |e]];
      cbn [fst snd];
      try (destruct (start_next_response (set_running None (snd st)))
             as [-> ->]);
      auto.
  - cbn [fst snd]. destruct (start_next_response (snd st)) as [-> ->]. auto.
Qed.

Lemma consume_cancelled (duration : Z)
    (queue : list ICSChatAgentEditResponse) :
  consume true duration queue = (None, []).
Proof. induction queue as [|p queue IH]; [reflexivity | exact IH]. Qed.

(** X7: the list of pending edits of a session takes in every batch that
    arrives while the token is not cancelled, in the order of arrival and
    whatever turns the queue takes in between, and no list of another session
    changes. *)
Theorem pending_edits_accumulate (schedule : list TaskEvent) :
  forall (this : ChatEditSessionService) (task : StreamingTask),
    task_cancelled task = false ->
    let this' := fst (run_task schedule (this, task)) in
    default [] (_pendingEdits this' !! session_of task)
    = default [] (_pendingEdits this !! session_of task)
      ++ map progress_edits (arrivals schedule)
    /\ forall session : string,
         session <> session_of task ->
         _pendingEdits this' !! session = _pendingEdits this !! session.
Proof.
  unfold run_task.
  induction schedule as [|ev schedule IH]; intros this task Hc.
  - cbn. rewrite app_nil_r. auto.
  - cbn [fold_left arrivals flat_map].
    destruct ev as [progress average|]; cbn [task_step].
    + pose proof (progressCallback_response progress average (this, task))
        as [Hr Hc'].
      pose proof (progressCallback_same progress average (this, task))
        as (_ & Hs & _).
      destruct (progressCallback progress average (this, task))
        as [this1 task1] eqn:Hstep.
      cbn [fst snd] in *.
      destruct (IH this1 task1) as [Hacc Hother]; [congruence|].
      assert (Hthis1 : this1
                = with_pendingEdits
                    (<[session_of task :=
                         match _pendingEdits this !! session_of task with
                         | Some pendingEdits =>
                             pendingEdits ++ [progress_edits progress]
                         | None => [progress_edits progress]
                         end]> (_pendingEdits this)) this).
      { unfold progressCallback in Hstep. cbn [fst snd] in Hstep.
        rewrite Hc in Hstep. inversion Hstep. reflexivity. }
      rewrite Hs in Hacc, Hother. split.
      * rewrite Hacc, Hthis1. cbn [_pendingEdits with_pendingEdits].
        rewrite lookup_insert_eq. cbn [default app map].
        destruct (_pendingEdits this !! session_of task); cbn [default id];
          [rewrite <- List.app_assoc|]; reflexivity.
      * intros session Hne. rewrite (Hother session Hne), Hthis1.
        cbn [_pendingEdits with_pendingEdits].
        apply lookup_insert_ne. congruence.
    + pose proof (run_queue_response (this, task)) as [Hr Hc'].
      pose proof (run_queue_same (this, task)) as (_ & Hs & _).
      pose proof (run_queue_bookkeeping (this, task)) as (_ & _ & _ & He).
      destruct (run_queue (this, task)) as [this1 task1].
      cbn [fst snd] in *.
      destruct (IH this1 task1) as [Hacc Hother]; [congruence|].
      rewrite Hs, He in *. cbn [app]. auto.
Qed.

(** X8: once the token is cancelled and no application task is under way,
    batches that arrive and turns of the queue change nothing of the
    coordinator: the batches that wait are dropped without being applied. *)
Theorem cancelled_task_is_inert (schedule : list TaskEvent) :
  forall (this : ChatEditSessionService) (task : StreamingTask),
    task_cancelled task = true -> running task = None ->
    let st := run_task schedule (this, task) in
    fst st = this
    /\ running (snd st) = None
    /\ (In Runs schedule -> progressiveEditsQueue (snd st) = []).
Proof.
  unfold run_task.
  induction schedule as [|ev schedule IH]; intros this task Hc Hr.
  - cbn. split_and!; [reflexivity | exact Hr | contradiction].
  - cbn [fold_left]. destruct ev as [progress average|]; cbn [task_step].
    + unfold progressCallback. cbn [fst snd]. rewrite Hc.
      destruct (IH this task Hc Hr) as (H1 & H2 & H3).
      split_and!; [exact H1 | exact H2|].
      intros [Hin|Hin]; [discriminate | exact (H3 Hin)].
    + unfold run_queue. cbn [fst snd]. rewrite Hr.
      unfold start_next. rewrite Hr, Hc, consume_cancelled. cbn [fst snd].
      destruct (IH this
                  (mkTask (task_response task) true
                     (progressiveEditsAvgDuration task) [] None (settled task))
                  eq_refl eq_refl) as (H1 & H2 & H3).
      split_and!; [exact H1 | exact H2|].
      intros _. clear -IH.
      assert (Hempty : forall schedule' this' task',
                 task_cancelled task' = true -> running task' = None ->
                 progressiveEditsQueue task' = [] ->
                 progressiveEditsQueue
                   (snd (fold_left task_step schedule' (this', task'))) = []).
      { clear. induction schedule' as [|ev' schedule' IH']; intros this' task' Hc Hr Hq.
        - exact Hq.
        - cbn [fold_left]. destruct ev' as [progress average|]; cbn [task_step].
          + unfold progressCallback. cbn [fst snd]. rewrite Hc.
            apply IH'; assumption.
          + unfold run_queue. cbn [fst snd]. rewrite Hr.
            unfold start_next. rewrite Hr, Hc, consume_cancelled.
            cbn [fst snd]. apply IH'; reflexivity. }
      apply Hempty; reflexivity.
Qed.

Lemma at_task_pending (i : nat)
    (f : ChatEditSessionService * StreamingTask ->
         ChatEditSessionService * StreamingTask) (sys : System) :
  (forall st, same_bookkeeping (fst st) (fst (f st))
              /\ task_response (snd (f st)) = task_response (snd st)
              /\ settled (snd (f st)) = settled (snd st)) ->
  pending_in_flight sys /\ marker_defaults (coordinator sys) ->
  pending_in_flight (at_task i f sys)
  /\ marker_defaults (coordinator (at_task i f sys)).
Proof.
  intros Hf [Hpending Hdefaults]. unfold at_task.
  destruct (tasks sys !! i) as [task|] eqn:Hi; [|split; assumption].
  destruct (Hf (coordinator sys, task)) as ((Hm1 & Hm2 & Hp & _) & Hr & Hd).
  cbn [fst snd] in *. split.
  - intros session p Hlook. cbn [coordinator tasks] in *.
    rewrite Hp in Hlook.
    destruct (Hpending session p Hlook) as (j & t & Hj & Hu & Hs & Hid).
    destruct (decide (i = j)) as [<-|Hne].
    + exists i, (snd (f (coordinator sys, task))).
      assert (t = task) by congruence. subst t.
      split_and!.
      * apply list_lookup_insert_eq. apply lookup_lt_Some in Hi. exact Hi.
      * congruence.
      * unfold session_of in *. congruence.
      * congruence.
    + exists j, t. split_and!; try assumption.
      rewrite list_lookup_insert_ne by exact Hne. exact Hj.
  - unfold marker_defaults in *. cbn [coordinator]. rewrite Hm1, Hm2.
    exact Hdefaults.
Qed.

Lemma settle_pending (i : nat) (sys : System) :
  pending_in_flight sys /\ marker_defaults (coordinator sys) ->
  pending_in_flight (at_task i settle sys)
  /\ marker_defaults (coordinator (at_task i settle sys)).
Proof.
  intros [Hpending Hdefaults]. unfold at_task.
  destruct (tasks sys !! i) as [task|] eqn:Hi; [|split; assumption].
  unfold settle. cbn [fst snd].
  destruct (settled task) eqn:Hsettled; cbn [fst snd].
  - rewrite list_insert_id by exact Hi. destruct sys; split; assumption.
  - split; [|exact Hdefaults].
    intros session p Hlook. cbn [coordinator tasks] in *.
    cbn [_pendingRequests with_pendingRequests with_markers with_pendingEdits]
      in Hlook.
    apply lookup_delete_Some in Hlook as [Hne Hlook].
    destruct (Hpending session p Hlook) as (j & t & Hj & Hu & Hs & Hid).
    exists j, t. split_and!; try assumption.
    rewrite list_lookup_insert_ne; [exact Hj|].
    intros <-. apply Hne. unfold session_of in Hs. congruence.
Qed.

Lemma send_pending (responseVM : IChatResponseViewModel)
    (request : ICSChatAgentEditRequest) (sys : System) :
  pending_in_flight sys /\ marker_defaults (coordinator sys) ->
  pending_in_flight (system_step sys (SendEditRequest responseVM request))
  /\ marker_defaults
       (coordinator (system_step sys (SendEditRequest responseVM request))).
Proof.
  intros [Hpending Hdefaults]. cbn [system_step]. unfold sendEditRequest.
  destruct (request_context request) as [|context0 [|context1 more]];
    cbn [fst snd]; try (rewrite app_nil_r; split; assumption).
  cbn [_pendingRequests with_markers].
  destruct (_pendingRequests (coordinator sys) !! vm_sessionId responseVM)
    as [pending|] eqn:Hlook; unfold _sendEditRequestAsync; cbn [fst snd].
  - rewrite app_nil_r. split; [exact Hpending | exact Hdefaults].
  - split; [|exact Hdefaults].
    intros session p Hp. cbn [coordinator tasks] in *.
    cbn [_pendingRequests with_pendingRequests with_markers] in Hp.
    apply lookup_insert_Some in Hp as [[<- <-] | [Hne Hp]].
    + exists (length (tasks sys)), (new_task responseVM).
      split_and!; try reflexivity.
      apply lookup_snoc_Some. right. auto.
    + destruct (Hpending session p Hp) as (j & t & Hj & Hu & Hs & Hid).
      exists j, t. split_and!; try assumption.
      apply lookup_snoc_Some. left. split; [|exact Hj].
      apply lookup_lt_Some in Hj. exact Hj.
Qed.

Lemma progressCallback_bookkeeping (progress : ICSChatAgentEditResponse)
    (average : Z) (st : ChatEditSessionService * StreamingTask) :
  editResponseIdInProgress (fst (progressCallback progress average st))
  = editResponseIdInProgress (fst st)
  /\ editCodeblockInProgress (fst (progressCallback progress average st))
     = editCodeblockInProgress (fst st).
Proof.
  unfold progressCallback. destruct (task_cancelled (snd st)); split;
    reflexivity.
Qed.

Lemma pending_invariant (sv : Services) (events : list Event) :
  pending_in_flight (run_system events (new_System sv))
  /\ marker_defaults (coordinator (run_system events (new_System sv))).
Proof.
  unfold run_system.
  assert (Hinit : pending_in_flight (new_System sv)
                  /\ marker_defaults (coordinator (new_System sv))).
  { split; [|split; reflexivity].
    intros session p Hp. cbn in Hp. rewrite lookup_empty in Hp. discriminate. }
  revert Hinit. generalize (new_System sv).
  induction events as [|ev events IH]; intros sys Hsys; [exact Hsys|].
  cbn [fold_left]. apply IH.
  destruct ev as [responseVM request | i progress average | i | i].
  - apply send_pending. exact Hsys.
  - cbn [system_step]. destruct Hsys as [Hpending Hdefaults].
    unfold at_task.
    destruct (tasks sys !! i) as [task|] eqn:Hi; [|split; assumption].
    destruct (progressCallback_same progress average (coordinator sys, task))
      as (Hp & _ & Hd).
    destruct (progressCallback_response progress average (coordinator sys, task))
      as [Hr _].
    destruct (progressCallback_bookkeeping progress average
                (coordinator sys, task)) as [Hm1 Hm2].
    cbn [fst snd coordinator tasks] in *. split.
    + intros session p Hlook. cbn [coordinator tasks] in *.
      rewrite Hp in Hlook.
      destruct (Hpending session p Hlook) as (j & t & Hj & Hu & Hs & Hid).
      destruct (decide (i = j)) as [<-|Hne].
      * exists i, (snd (progressCallback progress average (coordinator sys, task))).
        assert (t = task) by congruence. subst t.
        split_and!.
        -- apply list_lookup_insert_eq. apply lookup_lt_Some in Hi. exact Hi.
        -- congruence.
        -- unfold session_of in *. congruence.
        -- congruence.
      * exists j, t. split_and!; try assumption.
        rewrite list_lookup_insert_ne by exact Hne. exact Hj.
    + unfold marker_defaults in *. rewrite Hm1, Hm2. exact Hdefaults.
  - apply at_task_pending; [|exact Hsys].
    intros st. split; [apply run_queue_bookkeeping|].
    split; [apply run_queue_response | apply run_queue_same].
  - apply settle_pending. exact Hsys.
Qed.

(** X9: at every moment the sessions entered in [_pendingRequests] are the
    sessions of the tasks that have not settled, and the entry of a session is
    for the response its task serves. *)
Theorem pending_requests_are_in_flight (sv : Services) (events : list Event) :
  let sys := run_system events (new_System sv) in
  (forall session : string,
     is_Some (_pendingRequests (coordinator sys) !! session)
     <-> exists (i : nat) (task : StreamingTask),
           tasks sys !! i = Some task /\ settled task = false
           /\ session_of task = session)
  /\ pending_in_flight sys.
Proof.
  intros sys. destruct (pending_invariant sv events) as [Hpending _].
  destruct (system_invariant sv events) as [Hentered _].
  fold sys in Hpending, Hentered. split; [|exact Hpending].
  intros session. split.
  - intros [p Hp]. destruct (Hpending session p Hp) as (i & t & ? & ? & ? & _).
    eauto.
  - intros (i & t & Hi & Hu & <-). apply (Hentered i t Hi Hu).
Qed.

(** X10: when the agent call of a task returns, the entries of its session
    are gone from both maps, both markers read as unset whichever request set
    them last, and the next well-formed request of that session is
    accepted. *)
Theorem settled_request_frees_session (sv : Services) (events : list Event)
    (i : nat) (task : StreamingTask) :
  let sys := run_system events (new_System sv) in
  tasks sys !! i = Some task -> settled task = false ->
  let this' := coordinator (system_step sys (Settled i)) in
  activeEditRequestId this' = None
  /\ activeEditCodeblockNumber this' = None
  /\ _pendingRequests this'
     = delete (session_of task) (_pendingRequests (coordinator sys))
  /\ _pendingEdits this'
     = delete (session_of task) (_pendingEdits (coordinator sys))
  /\ forall (responseVM : IChatResponseViewModel)
            (request : ICSChatAgentEditRequest)
            (context0 : ICSChatAgentEditContext),
       request_context request = [context0] ->
       vm_sessionId responseVM = session_of task ->
       is_Some (snd (sendEditRequest responseVM request this')).
Proof.
  intros sys Hi Hu this'.
  destruct (pending_invariant sv events) as [_ [Hd1 Hd2]]. fold sys in Hd1, Hd2.
  subst this'. cbn [system_step]. unfold at_task. rewrite Hi.
  unfold settle. cbn [fst snd]. rewrite Hu. cbn [fst snd coordinator].
  split_and!.
  - unfold activeEditRequestId, ck_get. cbn. rewrite Hd1. reflexivity.
  - unfold activeEditCodeblockNumber, ck_get. cbn. rewrite Hd2. reflexivity.
  - reflexivity.
  - reflexivity.
  - intros responseVM request context0 Hc Hs. unfold sendEditRequest.
    rewrite Hc.
    cbn [_pendingRequests with_pendingRequests with_markers with_pendingEdits].
    rewrite Hs. unfold session_of. rewrite lookup_delete_eq.
    cbn [fst snd]. eauto.
Qed.

End Bookkeeping.

Lemma pending_edits_accumulate_witness :
  default []
    (_pendingEdits (fst (run_task example_schedule
                           (example_coordinator, new_task example_response)))
       !! "session-1")
  = map progress_edits example_batches.
Proof.
  apply (pending_edits_accumulate example_schedule example_coordinator
           (new_task example_response)).
  reflexivity.
Defined.

Lemma cancelled_task_is_inert_witness :
  fst (run_task example_schedule
         (example_coordinator,
          mkTask example_response true 0 example_batches None false))
  = example_coordinator.
Proof.
  apply (cancelled_task_is_inert example_schedule example_coordinator
           (mkTask example_response true 0 example_batches None false));
    reflexivity.
Defined.

Lemma settled_request_frees_session_witness :
  is_Some
    (snd (sendEditRequest example_response2 (example_request 7)
            (coordinator
               (system_step
                  (run_system (example_first_request ++ [example_duplicate])
                     (new_System example_services))
                  (Settled 0))))).
Proof.
  destruct (settled_request_frees_session example_services
              (example_first_request ++ [example_duplicate]) 0
              (new_task example_response) eq_refl eq_refl)
    as (_ & _ & _ & _ & Hnext).
  apply (Hnext example_response2 (example_request 7) (mkContext 7));
    reflexivity.
Defined.

(** ** Rejecting the edits of a document *)

Section RejectDocument.
Context `{Host}.

Lemma restorable_same (uris : list URI)
    (this0 this this' : ChatEditSessionService) :
  modelService (services this') = modelService (services this) ->
  textModels this' = textModels this ->
  editStrategies this' = editStrategies this ->
  restorable uris this0 this -> restorable uris this0 this'.
Proof.
  intros Hm Ht Hs Hres u Hu. rewrite Hm, Ht, Hs. exact (Hres u Hu).
Qed.

Lemma renderChanges_count (s : LiveStrategy) :
  _editCount (renderChanges s) = _editCount s.
Proof.
  unfold renderChanges, _updateSummaryMessage.
  destruct (0 <? length _)%nat; reflexivity.
Qed.

Lemma _undoModelUntil_loop_uri (fuel : nat) (target : Z) :
  forall model model' : TextModel,
    _undoModelUntil_loop fuel model target = Some model' ->
    tm_uri model' = tm_uri model.
Proof.
  induction fuel as [|fuel IH]; intros model model' Hloop; [discriminate|].
  cbn [_undoModelUntil_loop] in Hloop.
  destruct ((target <? getAlternativeVersionId model) && canUndo model).
  - rewrite (IH _ _ Hloop). unfold undo.
    destruct (tm_undoStack model); reflexivity.
  - injection Hloop as <-. reflexivity.
Qed.

Lemma getTextModels_restorable (uris : list URI) (u' : URI)
    (this0 this : ChatEditSessionService) :
  ready uris this -> restorable uris this0 this -> In u' uris ->
  restorable uris this0 (fst (getTextModels u' this))
  /\ (forall pair, snd (getTextModels u' this) = inl pair ->
        textModels (fst (getTextModels u' this)) !! uri_ref u' = Some pair).
Proof.
  intros Hready Hres Hu'. pose proof Hready as [R1 R2 R3 R4 R5 R6].
  unfold getTextModels.
  destruct (textModels this !! uri_ref u') as [pair|] eqn:Hcache.
  - cbn [fst snd]. split; [exact Hres|]. intros pair0 [= <-]. exact Hcache.
  - destruct (R2 u' Hu') as (m' & Hm' & Hlive).
    unfold getModel, isDisposed. rewrite Hm', Hlive. cbn [fst snd]. split.
    + intros u Hu.
      destruct (Hres u Hu)
        as (m0 & m & H0 & Hm & Hrew & Hpair & Hsp & Hnone & Hsome).
      exists m0, m.
      cbn [services with_textModels with_services createModel fst snd
           modelService textModels editStrategies].
      split_and!; try assumption.
      * intros pair0 Hlook.
        destruct (decide (uri_ref u' = uri_ref u)) as [Heq|Hne].
        -- rewrite Heq, lookup_insert_eq in Hlook. injection Hlook as <-.
           assert (Hsame : m' = m).
           { rewrite (R4 u' u Hu' Hu Heq) in Hm'. congruence. }
           subst m'. split; [|reflexivity].
           cbn [textModelNAltVersion]. unfold getAlternativeVersionId.
           apply Hnone, Hsp. rewrite <- Heq. exact Hcache.
        -- rewrite lookup_insert_ne in Hlook by exact Hne. auto.
      * intros Hlook.
        destruct (decide (uri_ref u' = uri_ref u)) as [Heq|Hne].
        -- rewrite Heq, lookup_insert_eq in Hlook. discriminate.
        -- rewrite lookup_insert_ne in Hlook by exact Hne. auto.
    + intros pair0 [= <-].
      cbn [textModels with_textModels]. apply lookup_insert_eq.
Qed.

Lemma obtainStrategy_restorable (uris : list URI) (u' : URI)
    (pair : ICSChatCodeblockTextModels) (codeEditor : ICodeEditor)
    (response : IChatResponseViewModel)
    (this0 this : ChatEditSessionService) :
  restorable uris this0 this -> In u' uris ->
  textModels this !! uri_ref u' = Some pair ->
  let obtained := obtainStrategy u' pair codeEditor response this in
  restorable uris this0 (fst obtained)
  /\ editStrategies (fst obtained) !! uri_ref u' = Some (snd obtained).
Proof.
  intros Hres Hu' Hlook. unfold obtainStrategy.
  destruct (editStrategies this !! uri_ref u') as [s|] eqn:Hs; cbn [fst snd].
  - auto.
  - split; [|cbn; apply lookup_insert_eq].
    intros u Hu.
    destruct (Hres u Hu)
      as (m0 & m & H0 & Hm & Hrew & Hpair & Hsp & Hnone & Hsome).
    exists m0, m.
    cbn [services with_editStrategies modelService textModels editStrategies].
    split_and!; try assumption.
    + intros Hnopair.
      destruct (decide (uri_ref u' = uri_ref u)) as [Heq|Hne].
      * rewrite <- Heq, Hlook in Hnopair. discriminate.
      * rewrite lookup_insert_ne by exact Hne. auto.
    + intros Hnos.
      destruct (decide (uri_ref u' = uri_ref u)) as [Heq|Hne].
      * rewrite Heq, lookup_insert_eq in Hnos. discriminate.
      * rewrite lookup_insert_ne in Hnos by exact Hne. auto.
    + intros s Hs'.
      destruct (decide (uri_ref u' = uri_ref u)) as [Heq|Hne].
      * rewrite Heq, lookup_insert_eq in Hs'. injection Hs' as <-.
        cbn [new_LiveStrategy _models _editCount].
        split_and!; [|lia|lia].
        apply Hpair. rewrite <- Heq. exact Hlook.
      * rewrite lookup_insert_ne in Hs' by exact Hne. auto.
Qed.

Lemma changeAndRender_restorable (uris : list URI) (u' : URI)
    (edit : ISingleEditOperation) (opts : ProgressingEditsOptions)
    (s : LiveStrategy) (this0 this : ChatEditSessionService) :
  ready uris this -> one_object_per_document uris ->
  restorable uris this0 this -> In u' uris ->
  editStrategies this !! uri_ref u' = Some s ->
  isCancellationRequested opts = false ->
  restorable uris this0 (fst (changeAndRender u' edit (Some opts) s this)).
Proof.
  intros Hready Hone Hres Hu' Hs Hopts. pose proof Hready as [R1 R2 R3 R4 R5 R6].
  unfold changeAndRender. cbn [fst snd].
  set (bound := bind (services this) s).
  set (s1 := makeProgressiveChanges [edit] opts bound).
  set (s' := renderChanges s1).
  destruct (Hres u' Hu')
    as (m0' & m' & H0' & Hm' & Hrew' & Hpair' & Hsp' & Hnone' & Hsome').
  destruct (Hsome' s Hs) as ([Hst1 Hst2] & Hcount & Hopen).
  assert (Hbound : textModelN (_models bound) = m').
  { subst bound. rewrite bind_modelN, (R6 u' s Hu' Hs), Hm'. reflexivity. }
  assert (Hbetween : between_calls (tm_content m0')
                       (tm_alternativeVersionId m0') bound).
  { unfold between_calls. rewrite Hbound. split_and!; assumption. }
  destruct (run_call_between _ _ bound
              (CallMakeProgressiveChanges [edit] opts) Hbetween)
    as [(Hc1 & Hr1 & Ho1 & Hsn1 & Ha1) Hge1].
  cbn [run_call] in Hc1, Hr1, Ho1, Hsn1, Ha1, Hge1. fold s1 in Hc1, Hr1, Ho1, Hsn1, Ha1, Hge1.
  destruct (makeProgressiveChanges_one edit opts bound Hopts)
    as (_ & Huri & _). fold s1 in Huri. rewrite Hbound in Huri.
  assert (Hmodels : _models s' = _models s1) by apply renderChanges_models.
  assert (Hcount' : _editCount s' = _editCount s1) by apply renderChanges_count.
  assert (Hkey : uri_str (tm_uri (textModelN (_models s'))) = uri_str u').
  { rewrite Hmodels, Huri. apply (R1 _ _ Hm'). }
  assert (Hstore : modelService (services (commit u' s' this))
                   = <[uri_str u' := textModelN (_models s')]>
                       (modelService (services this))).
  { unfold commit, unbind.
    cbn [services with_services with_editStrategies modelService].
    rewrite Hkey. reflexivity. }
  assert (Hstrategies : editStrategies (commit u' s' this)
                        = <[uri_ref u' := s']> (editStrategies this))
    by reflexivity.
  assert (Hpairs : textModels (commit u' s' this) = textModels this)
    by reflexivity.
  intros u Hu. rewrite Hstore, Hstrategies, Hpairs.
  destruct (decide (uri_str u' = uri_str u)) as [Hsame|Hother].
  - assert (Href : uri_ref u' = uri_ref u) by (apply Hone; assumption).
    exists m0', (textModelN (_models s')).
    rewrite <- Hsame, <- Href, !lookup_insert_eq.
    split_and!; try assumption; try reflexivity.
    + rewrite Hmodels. exact Hr1.
    + intros Hnopair. rewrite (Hsp' Hnopair) in Hs. discriminate.
    + discriminate.
    + intros s0 [= <-]. rewrite Hmodels, Hcount'.
      split_and!; [split; assumption | exact Hc1 | exact Ho1].
  - assert (Href : uri_ref u' <> uri_ref u).
    { intros Heq. apply Hother. apply R4; assumption. }
    destruct (Hres u Hu)
      as (m0 & m & H0 & Hm & Hrew & Hpair & Hsp & Hnone & Hsome).
    exists m0, m.
    rewrite !lookup_insert_ne by assumption.
    split_and!; assumption.
Qed.

Lemma iteration_restorable (uris : list URI)
    (response : IChatResponseViewModel) (opts : ProgressingEditsOptions)
    (this0 this : ChatEditSessionService) (u' : URI)
    (edit : ISingleEditOperation) :
  ready uris this -> one_object_per_document uris ->
  restorable uris this0 this -> In u' uris ->
  isCancellationRequested opts = false ->
  restorable uris this0
    (fst (_makeChanges_iteration response (Some opts) this (u', edit))).
Proof.
  intros Hready Hone Hres Hu' Hopts.
  unfold _makeChanges_iteration. cbn [fst snd].
  destruct (getTextModels_restorable uris u' this0 this Hready Hres Hu')
    as [Hres1 Hlook1].
  destruct (getTextModels_ready uris u' this Hready Hu')
    as (this1 & pair & Hget & Hpair & Hready1 & Hm1).
  rewrite Hget in Hres1, Hlook1 |- *. cbn [fst snd] in Hres1, Hlook1.
  specialize (Hlook1 pair eq_refl).
  destruct (obtainCodeEditor_ready uris u' this1 Hready1 Hu')
    as (this2 & codeEditor & Hed & Hready2 & Hm2).
  assert (Hframe2 : textModels this2 = textModels this1
                    /\ editStrategies this2 = editStrategies this1).
  { revert Hed. unfold obtainCodeEditor, openCodeEditor.
    destruct (findCodeEditor (services this1) u').
    - intros [= <- _]. auto.
    - destruct (canOpen (services this1) (uri_str u')); intros [= <- _]; auto. }
  destruct Hframe2 as [Ht2 Hs2].
  assert (Hres2 : restorable uris this0 this2)
    by (apply (restorable_same uris this0 this1); assumption).
  rewrite Hed. rewrite <- Ht2 in Hlook1.
  destruct (obtainStrategy_restorable uris u' pair codeEditor response
              this0 this2 Hres2 Hu' Hlook1) as [Hres3 Hs3].
  destruct (obtainStrategy_ready uris u' pair codeEditor response this2
              Hready2 Hu' Hpair) as (_ & Hready3 & _).
  apply changeAndRender_restorable; assumption.
Qed.

Lemma run_queue_restorable (uris : list URI)
    (this0 this : ChatEditSessionService) (task : StreamingTask) :
  task_cancelled task = false -> ready uris this ->
  one_object_per_document uris -> restorable uris this0 this ->
  incl (map fst (backlog task)) uris ->
  restorable uris this0 (fst (run_queue (this, task))).
Proof.
  intros Hc Hready Hone Hres Hincl. unfold run_queue. cbn [fst snd].
  destruct (running task) as [[duration [|[u edit] rest]]|] eqn:Hr;
    try exact Hres.
  assert (Hu : In u uris).
  { apply Hincl. unfold backlog. rewrite Hr. cbn. auto. }
  pose proof (iteration_restorable uris (task_response task)
                (mkOpts duration (task_cancelled task)) this0 this u edit
                Hready Hone Hres Hu Hc) as Hres'.
  destruct (_makeChanges_iteration _ _ _ _) as [this' [| |e]];
    cbn [fst snd] in *; exact Hres'.
Qed.

Lemma run_task_restorable (uris : list URI)
    (this0 : ChatEditSessionService) (schedule : list TaskEvent) :
  forall (this : ChatEditSessionService) (task : StreamingTask),
    task_cancelled task = false -> ready uris this ->
    one_object_per_document uris -> restorable uris this0 this ->
    incl (map fst (backlog task ++ operations_of (arrivals schedule))) uris ->
    ready uris (fst (run_task schedule (this, task)))
    /\ restorable uris this0 (fst (run_task schedule (this, task))).
Proof.
  induction schedule as [|ev schedule IH];
    intros this task Hc Hready Hone Hres Hincl.
  - cbn. auto.
  - cbn [run_task fold_left] in *. rewrite List.map_app in Hincl.
    apply incl_app_left in Hincl as [Hbacklog Hfuture].
    destruct ev as [progress average|];
      cbn [task_step arrivals flat_map] in *.
    + destruct (progressCallback_step uris progress average this task Hc Hready)
        as (Hready' & Hc' & Hb' & _).
      assert (Hres' : restorable uris this0
                        (fst (progressCallback progress average (this, task)))).
      { unfold progressCallback. cbn [fst snd]. rewrite Hc. exact Hres. }
      destruct (progressCallback progress average (this, task))
        as [this' task'] eqn:Hstep. cbn [fst snd] in *.
      rewrite operations_of_app in Hfuture.
      assert (Hfirst : operations_of [progress] = editOperations progress)
        by (unfold operations_of; cbn; apply app_nil_r).
      rewrite Hfirst, List.map_app in Hfuture.
      apply incl_app_left in Hfuture as [Hnow Hlater].
      fold (run_task schedule (this', task')).
      apply IH; try assumption.
      rewrite Hb', !List.map_app. repeat apply incl_app; assumption.
    + destruct (run_queue_step uris this task [] Hc Hready Hbacklog)
        as (Hready' & Hc' & Hb' & _).
      pose proof (run_queue_restorable uris this0 this task Hc Hready Hone
                    Hres Hbacklog) as Hres'.
      destruct (run_queue (this, task)) as [this' task'] eqn:Hstep.
      cbn [fst snd] in *.
      fold (run_task schedule (this', task')).
      apply IH; try assumption.
      rewrite List.map_app. apply incl_app; assumption.
Qed.

Lemma confirmEdits_restores (uris : list URI)
    (this0 this : ChatEditSessionService) (u : URI) :
  ready uris this -> restorable uris this0 this -> In u uris ->
  exists this' : ChatEditSessionService,
    Coordinator.confirmEdits u false this = Some this'
    /\ content_of this' (uri_str u) = content_of this0 (uri_str u)
    /\ forall k : string,
         k <> uri_str u -> content_of this' k = content_of this k.
Proof.
  intros Hready Hres Hu. pose proof Hready as [R1 R2 R3 R4 R5 R6].
  destruct (Hres u Hu)
    as (m0 & m & H0 & Hm & (Hrew & Hv & Hd) & Hpair & Hsp & Hnone & Hsome).
  unfold Coordinator.confirmEdits.
  destruct (editStrategies this !! uri_ref u) as [s|] eqn:Hs.
  - destruct (Hsome s eq_refl) as ([Hst1 Hst2] & _).
    set (bound := bind (services this) s).
    assert (Hbound : textModelN (_models bound) = m).
    { subst bound. rewrite bind_modelN, (R6 u s Hu Hs), Hm. reflexivity. }
    assert (Hst1' : textModelNAltVersion (_models bound)
                    = tm_alternativeVersionId m0) by exact Hst1.
    assert (Hst2' : textModelNSnapshotAltVersion (_models bound) = None)
      by exact Hst2.
    destruct (rewinds_to_loop _ _ _ _ _ Hrew m
                (S (length (tm_undoStack m))) eq_refl eq_refl eq_refl)
      as (model' & Hloop & Hc); [lia|].
    pose proof (_undoModelUntil_loop_uri _ _ _ _ Hloop) as Huri.
    unfold cancel, isDisposed. rewrite Hbound, Hd, Hst2', Hst1'.
    unfold _undoModelUntil. rewrite Hloop.
    eexists. split; [reflexivity|].
    assert (Hstore : forall d,
              modelService
                (services (commit u (with_decorations d
                                       (with_modelN model' bound)) this))
              = <[uri_str u := model']> (modelService (services this))).
    { intros d. unfold commit, unbind.
      cbn [services with_services with_editStrategies modelService
           with_decorations with_modelN _models textModelN].
      rewrite Huri, (R1 _ _ Hm). reflexivity. }
    unfold content_of. split.
    + rewrite Hstore, lookup_insert_eq, H0. cbn. rewrite Hc. reflexivity.
    + intros k Hk. rewrite Hstore, lookup_insert_ne by congruence. reflexivity.
  - eexists. split; [reflexivity|]. unfold content_of.
    cbn [error with_log services]. split; [|reflexivity].
    rewrite Hm, H0. cbn. f_equal.
    specialize (Hnone eq_refl).
    inversion Hrew as [stack Hc Ha Hst | c' alt' e rest Hlt Hinner Hc Ha Hst].
    + reflexivity.
    + lia.
Qed.

(** X11: take a coordinator that keeps no pair and no strategy yet, and
    documents that have a live buffer, can be opened and are each named by one
    [URI] object.  After any schedule of arrivals and turns of a task whose
    token is not cancelled, [confirmEdits(uri, false)] returns, the document
    holds the text it had before the task, and no other document changes. *)
Theorem rejecting_restores_document (uris : list URI)
    (this : ChatEditSessionService) (responseVM : IChatResponseViewModel)
    (schedule : list TaskEvent) (u : URI) :
  ready uris this -> one_object_per_document uris ->
  versions_in_order uris this ->
  textModels this = ∅ -> editStrategies this = ∅ ->
  incl (map fst (operations_of (arrivals schedule))) uris ->
  In u uris ->
  let after := fst (run_task schedule (this, new_task responseVM)) in
  exists this' : ChatEditSessionService,
    Coordinator.confirmEdits u false after = Some this'
    /\ content_of this' (uri_str u) = content_of this (uri_str u)
    /\ forall k : string,
         k <> uri_str u -> content_of this' k = content_of after k.
Proof.
  intros Hready Hone Hversions Hpairs Hstrategies Hincl Hu after.
  assert (Hres : restorable uris this this).
  { intros u0 Hu0. destruct (ready_live uris this Hready u0 Hu0)
      as (m & Hm & Hlive).
    exists m, m. rewrite Hpairs, Hstrategies.
    split_and!; try assumption; try reflexivity.
    - split_and!; [apply rewinds_here | exact (Hversions u0 m Hu0 Hm)
                   | exact Hlive].
    - intros pair Hlook. rewrite lookup_empty in Hlook. discriminate.
    - intros s Hlook. rewrite lookup_empty in Hlook. discriminate. }
  destruct (run_task_restorable uris this schedule this (new_task responseVM)
              eq_refl Hready Hone Hres) as [Hready' Hres'].
  { cbn [backlog new_task running progressiveEditsQueue operations_of
         flat_map app]. exact Hincl. }
  apply (confirmEdits_restores uris this after u); assumption.
Qed.

End RejectDocument.

Lemma example_documents_ready : ready example_documents example_coordinator.
Proof.
  constructor.
  - intros k m Hk. cbn in Hk.
    apply lookup_insert_Some in Hk as [[<- <-]|[_ Hk]]; [reflexivity|].
    apply lookup_insert_Some in Hk as [[<- <-]|[_ Hk]]; [reflexivity|].
    apply lookup_insert_Some in Hk as [[<- <-]|[_ Hk]]; [reflexivity|].
    rewrite lookup_empty in Hk. discriminate.
  - intros u [<-|[<-|[]]]; eexists; split; reflexivity.
  - intros u [<-|[<-|[]]]; left; reflexivity.
  - intros u u' [<-|[<-|[]]] [<-|[<-|[]]] Href;
      solve [reflexivity | discriminate Href].
  - intros u pair _ Hpair. cbn in Hpair. rewrite lookup_empty in Hpair.
    discriminate.
  - intros u s _ Hs. cbn in Hs. rewrite lookup_empty in Hs. discriminate.
Qed.

Lemma rejecting_restores_document_witness :
  exists this' : ChatEditSessionService,
    Coordinator.confirmEdits (mkURI 30 "file:///a.ts") false
      (fst (run_task example_schedule_documents
              (example_coordinator, new_task example_response)))
    = Some this'
    /\ content_of this' "file:///a.ts" = Some "one"
    /\ forall k : string,
         k <> "file:///a.ts" ->
         content_of this' k
         = content_of
             (fst (run_task example_schedule_documents
                     (example_coordinator, new_task example_response))) k.
Proof.
  apply (rejecting_restores_document example_documents example_coordinator
           example_response example_schedule_documents
           (mkURI 30 "file:///a.ts")).
  - exact example_documents_ready.
  - intros u u' [<-|[<-|[]]] [<-|[<-|[]]] Hstr;
      solve [reflexivity | discriminate Hstr].
  - intros u m [<-|[<-|[]]] Hm; vm_compute in Hm; injection Hm as <-;
      vm_compute; discriminate.
  - reflexivity.
  - reflexivity.
  - intros x Hx. vm_compute in Hx. vm_compute. tauto.
  - left. reflexivity.
Defined.

(** ** Pairs and strategies are kept *)

Section Bindings.
Context `{Host}.

Lemma same_binding_refl (s : LiveStrategy) : same_binding s s.
Proof. unfold same_binding. split_and!; first [reflexivity | lia]. Qed.

Lemma same_binding_trans (s1 s2 s3 : LiveStrategy) :
  same_binding s1 s2 -> same_binding s2 s3 -> same_binding s1 s3.
Proof.
  intros (A1 & A2 & A3 & A4 & A5) (B1 & B2 & B3 & B4 & B5).
  unfold same_binding. split_and!; first [congruence | lia].
Qed.

Lemma keeps_bindings_refl (this : ChatEditSessionService) :
  keeps_bindings this this.
Proof.
  split; [auto|]. intros k s Hs. exists s. split; [exact Hs|].
  apply same_binding_refl.
Qed.

Lemma keeps_bindings_trans (this1 this2 this3 : ChatEditSessionService) :
  keeps_bindings this1 this2 -> keeps_bindings this2 this3 ->
  keeps_bindings this1 this3.
Proof.
  intros [P1 S1] [P2 S2]. split; [auto|].
  intros k s Hs. destruct (S1 k s Hs) as (s' & Hs' & Hb).
  destruct (S2 k s' Hs') as (s'' & Hs'' & Hb').
  exists s''. split; [exact Hs''|]. exact (same_binding_trans _ _ _ Hb Hb').
Qed.

Lemma keeps_bindings_same (this this' : ChatEditSessionService) :
  textModels this' = textModels this ->
  editStrategies this' = editStrategies this ->
  keeps_bindings this this'.
Proof. intros Ht Hs. unfold keeps_bindings. rewrite Ht, Hs. apply keeps_bindings_refl. Qed.

Lemma getTextModels_bindings (uri : URI) (this : ChatEditSessionService) :
  keeps_bindings this (fst (getTextModels uri this)).
Proof.
  unfold getTextModels.
  destruct (textModels this !! uri_ref uri) as [pair|] eqn:Hcache;
    [apply keeps_bindings_refl|].
  destruct (getModel (services this) uri);
    [|apply keeps_bindings_same; reflexivity].
  cbn [fst]. split.
  - intros k pair Hk. cbn [textModels with_textModels].
    rewrite lookup_insert_ne; [exact Hk|]. intros <-. congruence.
  - intros k s Hs. exists s. split; [exact Hs | apply same_binding_refl].
Qed.

Lemma obtainCodeEditor_bindings (uri : URI) (this : ChatEditSessionService) :
  keeps_bindings this (fst (obtainCodeEditor uri this)).
Proof.
  unfold obtainCodeEditor, openCodeEditor.
  destruct (findCodeEditor (services this) uri); [apply keeps_bindings_refl|].
  destruct (canOpen (services this) (uri_str uri));
    apply keeps_bindings_same; reflexivity.
Qed.

Lemma obtainStrategy_bindings (uri : URI) (pair : ICSChatCodeblockTextModels)
    (codeEditor : ICodeEditor) (response : IChatResponseViewModel)
    (this : ChatEditSessionService) :
  let obtained := obtainStrategy uri pair codeEditor response this in
  keeps_bindings this (fst obtained)
  /\ editStrategies (fst obtained) !! uri_ref uri = Some (snd obtained).
Proof.
  unfold obtainStrategy.
  destruct (editStrategies this !! uri_ref uri) as [s|] eqn:Hs; cbn [fst snd].
  - split; [apply keeps_bindings_refl | exact Hs].
  - split; [|cbn; apply lookup_insert_eq]. split; [auto|].
    intros k s Hk. exists s. split; [|apply same_binding_refl].
    cbn [editStrategies with_editStrategies].
    rewrite lookup_insert_ne; [exact Hk|]. intros <-. congruence.
Qed.

Lemma bind_binding (sv : Services) (s : LiveStrategy) :
  same_binding s (bind sv s).
Proof. unfold same_binding. split_and!; first [reflexivity | cbn; lia]. Qed.

Lemma run_call_binding (s : LiveStrategy) (c : EditCall) :
  same_binding s (run_call s c).
Proof.
  pose proof (run_call_count s c) as Hcount.
  unfold same_binding. rewrite Hcount.
  destruct c as [edits | edits opts]; cbn [run_call].
  - unfold makeChanges. cbn [_editCount with_editCount].
    destruct (_editCount s + 1 =? 1); [destruct edits|]; cbn;
      split_and!; first [reflexivity | lia].
  - unfold makeProgressiveChanges. cbn [_editCount with_editCount].
    match goal with
    | |- context [fold_left (revealEdit opts) edits ?s0] =>
        destruct (revealEdits_stamps opts edits s0) as (-> & -> & -> & ->)
    end.
    destruct (_editCount s + 1 =? 1); cbn;
      split_and!; first [reflexivity | lia].
Qed.

Lemma renderChanges_binding (s : LiveStrategy) :
  same_binding s (renderChanges s).
Proof.
  unfold same_binding. rewrite renderChanges_models, renderChanges_count.
  split_and!; try reflexivity.
  unfold renderChanges, _updateSummaryMessage.
  destruct (0 <? length _)%nat; reflexivity.
Qed.

Lemma commit_bindings (uri : URI) (s s' : LiveStrategy)
    (this : ChatEditSessionService) :
  editStrategies this !! uri_ref uri = Some s -> same_binding s s' ->
  keeps_bindings this (commit uri s' this).
Proof.
  intros Hs Hb. split; [auto|].
  intros k s0 Hk. unfold commit. cbn [editStrategies with_editStrategies].
  destruct (decide (uri_ref uri = k)) as [<-|Hne].
  - rewrite lookup_insert_eq. exists s'. split; [reflexivity|]. congruence.
  - rewrite lookup_insert_ne by exact Hne.
    exists s0. split; [exact Hk | apply same_binding_refl].
Qed.

Lemma changeAndRender_bindings (uri : URI) (edit : ISingleEditOperation)
    (opts : option ProgressingEditsOptions) (s : LiveStrategy)
    (this : ChatEditSessionService) :
  editStrategies this !! uri_ref uri = Some s ->
  keeps_bindings this (fst (changeAndRender uri edit opts s this)).
Proof.
  intros Hs. unfold changeAndRender.
  pose proof (bind_binding (services this) s) as Hbound.
  destruct opts as [opts|]; cbn [fst snd].
  - apply (commit_bindings uri s _ this Hs).
    eapply same_binding_trans; [exact Hbound|].
    eapply same_binding_trans; [|apply renderChanges_binding].
    apply (run_call_binding _ (CallMakeProgressiveChanges [edit] opts)).
  - pose proof (run_call_binding (bind (services this) s)
                  (CallMakeChanges [edit])) as Hcall.
    cbn [run_call] in Hcall.
    destruct (makeChanges [edit] (bind (services this) s)) as [s1 [|e]];
      cbn [fst snd] in *; apply (commit_bindings uri s _ this Hs).
    + eapply same_binding_trans; [exact Hbound|].
      eapply same_binding_trans; [exact Hcall | apply renderChanges_binding].
    + eapply same_binding_trans; [exact Hbound | exact Hcall].
Qed.

Lemma iteration_bindings (response : IChatResponseViewModel)
    (opts : option ProgressingEditsOptions) (this : ChatEditSessionService)
    (editOp : URI * ISingleEditOperation) :
  keeps_bindings this (fst (_makeChanges_iteration response opts this editOp)).
Proof.
  destruct editOp as [uri edit]. unfold _makeChanges_iteration. cbn [fst snd].
  pose proof (getTextModels_bindings uri this) as H1.
  destruct (getTextModels uri this) as [this1 [pair|message]];
    cbn [fst snd] in *; [|exact H1].
  pose proof (obtainCodeEditor_bindings uri this1) as H2.
  destruct (obtainCodeEditor uri this1) as [this2 [codeEditor|]];
    cbn [fst snd] in *;
    [|exact (keeps_bindings_trans _ _ _ H1 H2)].
  destruct (obtainStrategy_bindings uri pair codeEditor response this2)
    as [H3 Hs].
  eapply keeps_bindings_trans; [exact H1|].
  eapply keeps_bindings_trans; [exact H2|].
  eapply keeps_bindings_trans; [exact H3|].
  apply changeAndRender_bindings. exact Hs.
Qed.

(** X12: [_makeChanges] leaves the two markers and the pending requests and
    edits as they are, replaces no buffer pair, and keeps every strategy bound
    to the code block, the snapshot and the recorded versions it was created
    with, whatever response and batch it is called for. *)
Theorem makeChanges_keeps_bindings (response : IChatResponseViewModel)
    (progress : ICSChatAgentEditResponse)
    (opts : option ProgressingEditsOptions) (this : ChatEditSessionService) :
  let this' := fst (_makeChanges response progress opts this) in
  same_bookkeeping this this' /\ keeps_bindings this this'.
Proof.
  cbn zeta. split; [apply loop_bookkeeping|].
  unfold _makeChanges. generalize (editOperations progress) as editOps.
  intros editOps. revert this.
  induction editOps as [|editOp rest IH]; intros this; cbn [_makeChanges_loop].
  - apply keeps_bindings_refl.
  - pose proof (iteration_bindings response opts this editOp) as Hi.
    destruct (_makeChanges_iteration response opts this editOp)
      as [this' [| |e]]; cbn [fst snd] in *; try exact Hi.
    eapply keeps_bindings_trans; [exact Hi | apply IH].
Qed.

(** X13: a lookup of the buffer pair that succeeds is repeatable: the same
    call right after it changes nothing and returns the same pair.  A pair
    that the lookup creates is on the live buffer of the model service, which
    is not disposed; its snapshot holds the text of that buffer, it records
    the alternative version of that buffer, and it has no checkpoint. *)
Theorem getTextModels_repeatable (uri : URI) (this : ChatEditSessionService) :
  is_Some (textModels this !! uri_ref uri)
  \/ is_Some (getModel (services this) uri) ->
  let found := getTextModels uri this in
  getTextModels uri (fst found) = found
  /\ (textModels this !! uri_ref uri = None ->
      exists pair : ICSChatCodeblockTextModels,
        snd found = inl pair
        /\ getModel (services this) uri = Some (textModelN pair)
        /\ tm_disposed (textModelN pair) = false
        /\ tm_content (textModel0 pair) = tm_content (textModelN pair)
        /\ tm_languageId (textModel0 pair) = tm_languageId (textModelN pair)
        /\ textModelNAltVersion pair
           = tm_alternativeVersionId (textModelN pair)
        /\ textModelNSnapshotAltVersion pair = None).
Proof.
  intros Hfound. cbn zeta. unfold getTextModels at 2 3 4.
  destruct (textModels this !! uri_ref uri) as [pair|] eqn:Hcache.
  - cbn [fst snd]. split; [|discriminate].
    unfold getTextModels. rewrite Hcache. reflexivity.
  - destruct Hfound as [[? ?]|[m Hm]]; [discriminate|]. rewrite Hm.
    cbn [fst snd]. split.
    + unfold getTextModels. cbn [textModels with_textModels].
      rewrite lookup_insert_eq. reflexivity.
    + intros _. eexists. split; [reflexivity|]. cbn.
      split_and!; try reflexivity.
      unfold getModel in Hm.
      destruct (modelService (services this) !! uri_str uri) as [m'|];
        [|discriminate].
      unfold isDisposed in Hm. destruct (tm_disposed m') eqn:Hd;
        [discriminate|]. congruence.
Qed.

Lemma cancel_returns (s : LiveStrategy) :
  exists s' : LiveStrategy,
    cancel s = Some s'
    /\ (isDisposed (textModelN (_models s)) = true -> s' = s)
    /\ (isDisposed (textModelN (_models s)) = false ->
        CSChatEditsDiffDecorations.decorationRanges (_diffDecorations s') = []).
Proof.
  unfold cancel. destruct (isDisposed (textModelN (_models s))).
  - exists s. split; [reflexivity|]. split; [reflexivity | discriminate].
  - destruct (_undoModelUntil_loop_ends
                (S (length (tm_undoStack (textModelN (_models s)))))
                (textModelN (_models s))
                match textModelNSnapshotAltVersion (_models s) with
                | Some v => v
                | None => textModelNAltVersion (_models s)
                end) as (k & Hk & _); [lia|].
    unfold _undoModelUntil. rewrite Hk. eexists. split; [reflexivity|].
    split; [discriminate | reflexivity].
Qed.

(** X14: [confirmEdits] returns, whichever way it is answered, and leaves
    the markers, the pending requests and edits and the buffer pairs as they
    are.  After it no edit range is in progress for the document, one case
    apart: rejecting the edits of a document whose buffer is disposed keeps
    the ranges there were. *)
Theorem confirmEdits_clears_ranges (uri : URI) (accept : bool)
    (this : ChatEditSessionService) :
  exists this' : ChatEditSessionService,
    Coordinator.confirmEdits uri accept this = Some this'
    /\ same_bookkeeping this this'
    /\ textModels this' = textModels this
    /\ (Coordinator.getEditRangesInProgress uri this' = []
        \/ accept = false
           /\ Coordinator.getEditRangesInProgress uri this'
              = Coordinator.getEditRangesInProgress uri this
           /\ exists s : LiveStrategy,
                editStrategies this !! uri_ref uri = Some s
                /\ isDisposed (textModelN (_models (bind (services this) s)))
                   = true).
Proof.
  unfold Coordinator.confirmEdits, Coordinator.getEditRangesInProgress.
  destruct (editStrategies this !! uri_ref uri) as [s|] eqn:Hs.
  - destruct accept.
    + eexists. split; [reflexivity|]. split; [repeat split|].
      split; [reflexivity|]. left.
      unfold commit. cbn [editStrategies with_editStrategies].
      rewrite lookup_insert_eq. unfold getEditRangesInProgress, apply.
      destruct (0 <? _editCount (bind (services this) s)); reflexivity.
    + destruct (cancel_returns (bind (services this) s))
        as (s' & -> & Hdisposed & Hlive).
      eexists. split; [reflexivity|]. split; [repeat split|].
      split; [reflexivity|].
      unfold commit. cbn [editStrategies with_editStrategies].
      rewrite lookup_insert_eq.
      destruct (isDisposed (textModelN (_models (bind (services this) s))))
        eqn:Hd.
      * right. split; [reflexivity|]. rewrite (Hdisposed eq_refl).
        split; [reflexivity | eauto].
      * left. unfold getEditRangesInProgress. rewrite (Hlive eq_refl).
        reflexivity.
  - eexists. split; [reflexivity|]. split; [repeat split|].
    split; [reflexivity|]. left.
    cbn [error with_log editStrategies]. rewrite Hs. reflexivity.
Qed.

End Bindings.

Lemma getTextModels_repeatable_witness :
  getTextModels example_uri (fst (getTextModels example_uri example_coordinator))
  = getTextModels example_uri example_coordinator.
Proof.
  apply (getTextModels_repeatable example_uri example_coordinator).
  right. vm_compute. eauto.
Defined.

(** ** Requests come and go, strategies stay *)

Section Lifecycle.
Context `{Host}.

(** X15: a request is accepted exactly when it has one targeting context and
    its session has no request pending.  An accepted request gets a task that
    has nothing queued and is not cancelled; its session is entered in
    [_pendingRequests] for its response, the markers hold its response id and
    code-block index, nothing else changes, and a further request of the same
    session is turned down. *)
Theorem sendEditRequest_accepts_iff (responseVM : IChatResponseViewModel)
    (request : ICSChatAgentEditRequest) (this : ChatEditSessionService) :
  let result := sendEditRequest responseVM request this in
  (is_Some (snd result)
   <-> length (request_context request) = 1%nat
       /\ _pendingRequests this !! vm_sessionId responseVM = None)
  /\ (forall task : StreamingTask,
        snd result = Some task ->
        task = new_task responseVM
        /\ _pendingRequests (fst result)
           = <[vm_sessionId responseVM :=
                 mkPending (vm_id responseVM) request]> (_pendingRequests this)
        /\ ck_get (editResponseIdInProgress (fst result)) = vm_id responseVM
        /\ map (fun c => ck_get (editCodeblockInProgress (fst result)))
             (request_context request)
           = map codeBlockIndex (request_context request)
        /\ _pendingEdits (fst result) = _pendingEdits this
        /\ textModels (fst result) = textModels this
        /\ editStrategies (fst result) = editStrategies this
        /\ services (fst result) = services this
        /\ logService (fst result) = logService this
        /\ forall (responseVM' : IChatResponseViewModel)
                  (request' : ICSChatAgentEditRequest),
             vm_sessionId responseVM' = vm_sessionId responseVM ->
             snd (sendEditRequest responseVM' request' (fst result)) = None).
Proof.
  cbn zeta. unfold sendEditRequest, _sendEditRequestAsync.
  destruct (request_context request) as [|context0 [|context1 more]] eqn:Hc;
    cbn [fst snd length].
  - split; [|discriminate].
    split; [intros [? ?]; discriminate | intros [? _]; discriminate].
  - cbn [_pendingRequests with_markers].
    destruct (_pendingRequests this !! vm_sessionId responseVM)
      as [pending|] eqn:Hp; cbn [fst snd].
    + split; [|discriminate].
      split; [intros [? ?]; discriminate | intros [_ ?]; discriminate].
    + split; [split; [auto | eauto]|].
      intros task [= <-]. split_and!; try reflexivity.
      intros responseVM' request' Hsame.
      destruct (request_context request') as [|c0 [|c1 cs]]; try reflexivity.
      cbn [fst snd _pendingRequests with_markers with_pendingRequests].
      rewrite Hsame, lookup_insert_eq. reflexivity.
  - split; [|discriminate].
    split; [intros [? ?]; discriminate | intros [? _]; discriminate].
Qed.

Lemma keeps_responses_refl (this : ChatEditSessionService) :
  keeps_responses this this.
Proof. intros k s Hs. eauto. Qed.

Lemma keeps_responses_trans (this1 this2 this3 : ChatEditSessionService) :
  keeps_responses this1 this2 -> keeps_responses this2 this3 ->
  keeps_responses this1 this3.
Proof.
  intros H1 H2 k s Hs. destruct (H1 k s Hs) as (s' & Hs' & Hid).
  destruct (H2 k s' Hs') as (s'' & Hs'' & Hid').
  exists s''. split; [exact Hs'' | congruence].
Qed.

Lemma keeps_responses_same (this this' : ChatEditSessionService) :
  editStrategies this' = editStrategies this -> keeps_responses this this'.
Proof. intros Hs k s Hk. rewrite Hs. eauto. Qed.

Lemma revealEdits_response (opts : ProgressingEditsOptions)
    (edits : list ISingleEditOperation) :
  forall s : LiveStrategy,
    _response (fold_left (revealEdit opts) edits s) = _response s.
Proof.
  induction edits as [|e es IH]; intros s; cbn [fold_left]; [reflexivity|].
  rewrite IH. reflexivity.
Qed.

Lemma run_call_response (s : LiveStrategy) (c : EditCall) :
  _response (run_call s c) = _response s.
Proof.
  destruct c as [edits | edits opts]; cbn [run_call].
  - unfold makeChanges. cbn [_editCount with_editCount].
    destruct (_editCount s + 1 =? 1); [destruct edits|]; reflexivity.
  - unfold makeProgressiveChanges. rewrite revealEdits_response.
    cbn [_editCount with_editCount].
    destruct (_editCount s + 1 =? 1); reflexivity.
Qed.

Lemma renderChanges_response_id (s : LiveStrategy) :
  vm_id (_response (renderChanges s)) = vm_id (_response s).
Proof.
  unfold renderChanges, _updateSummaryMessage.
  destruct (0 <? length _)%nat; reflexivity.
Qed.

Lemma bind_response_id (sv : Services) (s : LiveStrategy) :
  responses_by_id sv -> vm_id (_response (bind sv s)) = vm_id (_response s).
Proof.
  intros Hw. unfold bind. cbn [_response with_response].
  destruct (responses sv !! vm_id (_response s)) as [r|] eqn:Hr;
    [exact (Hw _ _ Hr) | reflexivity].
Qed.

(** What [changeAndRender] leaves in [editStrategies]. *)
Lemma changeAndRender_commits (uri : URI) (edit : ISingleEditOperation)
    (opts : option ProgressingEditsOptions) (s : LiveStrategy)
    (this : ChatEditSessionService) :
  exists s' : LiveStrategy,
    fst (changeAndRender uri edit opts s this) = commit uri s' this
    /\ same_binding s s'
    /\ (responses_by_id (services this) ->
        vm_id (_response s') = vm_id (_response s)).
Proof.
  unfold changeAndRender.
  pose proof (bind_binding (services this) s) as Hbound.
  pose proof (bind_response_id (services this) s) as Hid.
  destruct opts as [opts|]; cbn [fst snd].
  - eexists. split; [reflexivity|]. split.
    + eapply same_binding_trans; [exact Hbound|].
      eapply same_binding_trans; [|apply renderChanges_binding].
      apply (run_call_binding _ (CallMakeProgressiveChanges [edit] opts)).
    + intros Hw. rewrite renderChanges_response_id.
      pose proof (run_call_response (bind (services this) s)
                    (CallMakeProgressiveChanges [edit] opts)) as Hresponse.
      cbn [run_call] in Hresponse. rewrite Hresponse. exact (Hid Hw).
  - pose proof (run_call_binding (bind (services this) s)
                  (CallMakeChanges [edit])) as Hcall.
    pose proof (run_call_response (bind (services this) s)
                  (CallMakeChanges [edit])) as Hresponse.
    cbn [run_call] in Hcall, Hresponse.
    destruct (makeChanges [edit] (bind (services this) s)) as [s1 [|e]];
      cbn [fst snd] in *; eexists; (split; [reflexivity|]); split.
    + eapply same_binding_trans; [exact Hbound|].
      eapply same_binding_trans; [exact Hcall | apply renderChanges_binding].
    + intros Hw. rewrite renderChanges_response_id, Hresponse. exact (Hid Hw).
    + eapply same_binding_trans; [exact Hbound | exact Hcall].
    + intros Hw. rewrite Hresponse. exact (Hid Hw).
Qed.

Lemma commit_responses (uri : URI) (s s' : LiveStrategy)
    (this : ChatEditSessionService) :
  editStrategies this !! uri_ref uri = Some s ->
  responses_by_id (services this) ->
  vm_id (_response s') = vm_id (_response s) ->
  keeps_responses this (commit uri s' this)
  /\ responses_by_id (services (commit uri s' this)).
Proof.
  intros Hs Hw Hid. split.
  - intros k s0 Hk. unfold commit. cbn [editStrategies with_editStrategies].
    destruct (decide (uri_ref uri = k)) as [<-|Hne].
    + rewrite lookup_insert_eq. exists s'. split; [reflexivity|]. congruence.
    + rewrite lookup_insert_ne by exact Hne. eauto.
  - intros k r. unfold commit, unbind.
    cbn [services with_services with_editStrategies responses].
    intros Hk. apply lookup_insert_Some in Hk as [[<- <-]|[_ Hk]];
      [reflexivity | exact (Hw _ _ Hk)].
Qed.

Lemma iteration_responses (response : IChatResponseViewModel)
    (opts : option ProgressingEditsOptions) (this : ChatEditSessionService)
    (editOp : URI * ISingleEditOperation) :
  responses_by_id (services this) ->
  let this' := fst (_makeChanges_iteration response opts this editOp) in
  keeps_responses this this' /\ responses_by_id (services this').
Proof.
  intros Hw. destruct editOp as [uri edit]. cbn zeta.
  unfold _makeChanges_iteration. cbn [fst snd].
  assert (H1 : editStrategies (fst (getTextModels uri this))
               = editStrategies this
               /\ responses (services (fst (getTextModels uri this)))
                  = responses (services this)).
  { unfold getTextModels. destruct (textModels this !! uri_ref uri); [auto|].
    destruct (getModel (services this) uri); auto. }
  destruct (getTextModels uri this) as [this1 [pair|message]];
    cbn [fst snd] in *; destruct H1 as [Hs1 Hr1].
  2: { split; [apply keeps_responses_same; exact Hs1|].
       unfold responses_by_id. rewrite Hr1. exact Hw. }
  assert (H2 : editStrategies (fst (obtainCodeEditor uri this1))
               = editStrategies this1
               /\ responses (services (fst (obtainCodeEditor uri this1)))
                  = responses (services this1)).
  { unfold obtainCodeEditor, openCodeEditor.
    destruct (findCodeEditor (services this1) uri); [auto|].
    destruct (canOpen (services this1) (uri_str uri)); auto. }
  destruct (obtainCodeEditor uri this1) as [this2 [codeEditor|]];
    cbn [fst snd] in *; destruct H2 as [Hs2 Hr2].
  2: { split; [apply keeps_responses_same; congruence|].
       unfold responses_by_id. rewrite Hr2, Hr1. exact Hw. }
  destruct (obtainStrategy_bindings uri pair codeEditor response this2)
    as [[_ Hkeep3] Hs3].
  assert (Hr3 : services (fst (obtainStrategy uri pair codeEditor response
                                 this2)) = services this2).
  { unfold obtainStrategy.
    destruct (editStrategies this2 !! uri_ref uri); reflexivity. }
  set (this3 := fst (obtainStrategy uri pair codeEditor response this2)) in *.
  set (s := snd (obtainStrategy uri pair codeEditor response this2)) in *.
  assert (Hw3 : responses_by_id (services this3)).
  { rewrite Hr3. unfold responses_by_id. rewrite Hr2, Hr1. exact Hw. }
  destruct (changeAndRender_commits uri edit opts s this3)
    as (s' & -> & _ & Hid).
  destruct (commit_responses uri s s' this3 Hs3 Hw3 (Hid Hw3)) as [Hk4 Hw4].
  split; [|exact Hw4].
  intros k s0 Hk. rewrite <- Hs1, <- Hs2 in Hk.
  destruct (Hkeep3 k s0 Hk) as (s3 & Hk3 & _).
  assert (Hsame : vm_id (_response s3) = vm_id (_response s0)).
  { revert Hk3. unfold this3, obtainStrategy.
    destruct (editStrategies this2 !! uri_ref uri) as [s2|] eqn:Hlook;
      cbn [fst editStrategies with_editStrategies]; intros Hk3.
    - congruence.
    - destruct (decide (uri_ref uri = k)) as [<-|Hne]; [congruence|].
      rewrite lookup_insert_ne in Hk3 by exact Hne. congruence. }
  destruct (Hk4 k s3 Hk3) as (s4 & Hk4' & Hid4).
  exists s4. split; [exact Hk4' | congruence].
Qed.

Lemma sendEditRequest_frame (responseVM : IChatResponseViewModel)
    (request : ICSChatAgentEditRequest) (this : ChatEditSessionService) :
  textModels (fst (sendEditRequest responseVM request this)) = textModels this
  /\ editStrategies (fst (sendEditRequest responseVM request this))
     = editStrategies this
  /\ services (fst (sendEditRequest responseVM request this)) = services this.
Proof.
  unfold sendEditRequest.
  destruct (request_context request) as [|context0 [|context1 more]];
    cbn [fst]; auto.
  cbn [_pendingRequests with_markers].
  destruct (_pendingRequests this !! vm_sessionId responseVM); cbn [fst]; auto.
Qed.

Lemma progressCallback_frame (progress : ICSChatAgentEditResponse)
    (average : Z) (st : ChatEditSessionService * StreamingTask) :
  textModels (fst (progressCallback progress average st)) = textModels (fst st)
  /\ editStrategies (fst (progressCallback progress average st))
     = editStrategies (fst st)
  /\ services (fst (progressCallback progress average st)) = services (fst st).
Proof.
  unfold progressCallback. destruct (task_cancelled (snd st)); auto.
Qed.

Lemma settle_frame (st : ChatEditSessionService * StreamingTask) :
  textModels (fst (settle st)) = textModels (fst st)
  /\ editStrategies (fst (settle st)) = editStrategies (fst st)
  /\ services (fst (settle st)) = services (fst st).
Proof. unfold settle. destruct (settled (snd st)); auto. Qed.

Lemma run_queue_strategies (st : ChatEditSessionService * StreamingTask) :
  responses_by_id (services (fst st)) ->
  keeps_bindings (fst st) (fst (run_queue st))
  /\ keeps_responses (fst st) (fst (run_queue st))
  /\ responses_by_id (services (fst (run_queue st))).
Proof.
  intros Hw. unfold run_queue.
  destruct (running (snd st)) as [[duration [|editOp rest]]|]; cbn [fst];
    try (split_and!;
         [apply keeps_bindings_refl | apply keeps_responses_refl | exact Hw]).
  pose proof (iteration_bindings (task_response (snd st))
                (Some (mkOpts duration (task_cancelled (snd st)))) (fst st)
                editOp) as Hb.
  destruct (iteration_responses (task_response (snd st))
              (Some (mkOpts duration (task_cancelled (snd st)))) (fst st)
              editOp Hw) as [Hr Hw'].
  destruct (_makeChanges_iteration _ _ _ _) as [this' [| |e]];
    cbn [fst snd] in *; auto.
Qed.

Lemma system_step_strategies (sys : System) (ev : Event) :
  responses_by_id (services (coordinator sys)) ->
  let sys' := system_step sys ev in
  keeps_bindings (coordinator sys) (coordinator sys')
  /\ keeps_responses (coordinator sys) (coordinator sys')
  /\ responses_by_id (services (coordinator sys')).
Proof.
  intros Hw. cbn zeta.
  destruct ev as [responseVM request | i progress average | i | i];
    cbn [system_step].
  - destruct (sendEditRequest_frame responseVM request (coordinator sys))
      as (Ht & Hs & Hsv).
    cbn [coordinator]. split_and!.
    + apply keeps_bindings_same; assumption.
    + apply keeps_responses_same; assumption.
    + rewrite Hsv. exact Hw.
  - unfold at_task. destruct (tasks sys !! i) as [task|];
      [|split_and!; [apply keeps_bindings_refl | apply keeps_responses_refl
                     | exact Hw]].
    destruct (progressCallback_frame progress average (coordinator sys, task))
      as (Ht & Hs & Hsv).
    cbn [coordinator fst] in *. split_and!.
    + apply keeps_bindings_same; assumption.
    + apply keeps_responses_same; assumption.
    + rewrite Hsv. exact Hw.
  - unfold at_task. destruct (tasks sys !! i) as [task|];
      [|split_and!; [apply keeps_bindings_refl | apply keeps_responses_refl
                     | exact Hw]].
    cbn [coordinator]. apply (run_queue_strategies (coordinator sys, task) Hw).
  - unfold at_task. destruct (tasks sys !! i) as [task|];
      [|split_and!; [apply keeps_bindings_refl | apply keeps_responses_refl
                     | exact Hw]].
    destruct (settle_frame (coordinator sys, task)) as (Ht & Hs & Hsv).
    cbn [coordinator fst] in *. split_and!.
    + apply keeps_bindings_same; assumption.
    + apply keeps_responses_same; assumption.
    + rewrite Hsv. exact Hw.
Qed.

Lemma run_system_strategies (events : list Event) :
  forall sys : System,
    responses_by_id (services (coordinator sys)) ->
    keeps_bindings (coordinator sys) (coordinator (run_system events sys))
    /\ keeps_responses (coordinator sys) (coordinator (run_system events sys))
    /\ responses_by_id (services (coordinator (run_system events sys))).
Proof.
  unfold run_system.
  induction events as [|ev events IH]; intros sys Hw; cbn [fold_left].
  - split_and!; [apply keeps_bindings_refl | apply keeps_responses_refl
                 | exact Hw].
  - destruct (system_step_strategies sys ev Hw) as (Hb & Hr & Hw').
    destruct (IH _ Hw') as (Hb' & Hr' & Hw'').
    split_and!.
    + exact (keeps_bindings_trans _ _ _ Hb Hb').
    + exact (keeps_responses_trans _ _ _ Hr Hr').
    + exact Hw''.
Qed.

(** X16: nothing that happens to the system (requests sent, batches
    arriving, turns of the queues, agent calls returning) replaces a buffer
    pair or removes a strategy; and a strategy stays bound to the code block,
    the snapshot, the recorded versions and the response it was created with,
    also when the request it was created for is over. *)
Theorem strategies_outlive_requests (sv : Services)
    (events events' : list Event) :
  responses_by_id sv ->
  let before := coordinator (run_system events (new_System sv)) in
  let after := coordinator (run_system (events ++ events') (new_System sv)) in
  keeps_bindings before after /\ keeps_responses before after.
Proof.
  intros Hw. cbn zeta. unfold run_system at 2 4. rewrite fold_left_app.
  fold (run_system events (new_System sv)).
  destruct (run_system_strategies events (new_System sv) Hw) as (_ & _ & Hw').
  destruct (run_system_strategies events' _ Hw') as (Hb & Hr & _).
  unfold run_system at 1 3 in Hb. unfold run_system at 1 3 in Hr.
  split; assumption.
Qed.

Lemma getTextModels_checkpoint (uri : URI) (this : ChatEditSessionService) :
  no_checkpoint this ->
  no_checkpoint (fst (getTextModels uri this))
  /\ (forall pair, snd (getTextModels uri this) = inl pair ->
        textModelNSnapshotAltVersion pair = None).
Proof.
  intros [Hp Hs]. unfold getTextModels.
  destruct (textModels this !! uri_ref uri) as [pair|] eqn:Hcache.
  - cbn [fst snd]. split; [split; assumption|].
    intros pair0 [= <-]. exact (Hp _ _ Hcache).
  - destruct (getModel (services this) uri) as [m|]; cbn [fst snd].
    + split; [|intros pair0 [= <-]; reflexivity].
      split; [|exact Hs]. intros k pair Hk.
      cbn [textModels with_textModels] in Hk.
      apply lookup_insert_Some in Hk as [[_ <-]|[_ Hk]];
        [reflexivity | exact (Hp _ _ Hk)].
    + split; [split; assumption | discriminate].
Qed.

Lemma iteration_checkpoint (response : IChatResponseViewModel)
    (opts : option ProgressingEditsOptions) (this : ChatEditSessionService)
    (editOp : URI * ISingleEditOperation) :
  no_checkpoint this ->
  no_checkpoint (fst (_makeChanges_iteration response opts this editOp)).
Proof.
  intros Hno. destruct editOp as [uri edit].
  unfold _makeChanges_iteration. cbn [fst snd].
  destruct (getTextModels_checkpoint uri this Hno) as [Hno1 Hpair].
  destruct (getTextModels uri this) as [this1 [pair|message]];
    cbn [fst snd] in *; [|exact Hno1].
  specialize (Hpair pair eq_refl).
  assert (H2 : textModels (fst (obtainCodeEditor uri this1)) = textModels this1
               /\ editStrategies (fst (obtainCodeEditor uri this1))
                  = editStrategies this1).
  { unfold obtainCodeEditor, openCodeEditor.
    destruct (findCodeEditor (services this1) uri); [auto|].
    destruct (canOpen (services this1) (uri_str uri)); auto. }
  destruct (obtainCodeEditor uri this1) as [this2 [codeEditor|]];
    cbn [fst snd] in *; destruct H2 as [Ht2 Hs2].
  2: { unfold no_checkpoint. rewrite Ht2, Hs2. exact Hno1. }
  assert (Hno2 : no_checkpoint this2)
    by (unfold no_checkpoint; rewrite Ht2, Hs2; exact Hno1).
  assert (H3 : no_checkpoint
                 (fst (obtainStrategy uri pair codeEditor response this2))
               /\ textModelNSnapshotAltVersion
                    (_models (snd (obtainStrategy uri pair codeEditor response
                                     this2))) = None).
  { destruct Hno2 as [Hp2 Hst2]. unfold obtainStrategy.
    destruct (editStrategies this2 !! uri_ref uri) as [s|] eqn:Hlook;
      cbn [fst snd].
    - split; [split; assumption | exact (Hst2 _ _ Hlook)].
    - split; [|exact Hpair]. split; [exact Hp2|].
      intros k s Hk. cbn [editStrategies with_editStrategies] in Hk.
      apply lookup_insert_Some in Hk as [[_ <-]|[_ Hk]];
        [exact Hpair | exact (Hst2 _ _ Hk)]. }
  destruct H3 as [[Hp3 Hst3] Hsnap].
  destruct (changeAndRender_commits uri edit opts
              (snd (obtainStrategy uri pair codeEditor response this2))
              (fst (obtainStrategy uri pair codeEditor response this2)))
    as (s' & -> & (_ & _ & _ & Hsame & _) & _).
  split; [exact Hp3|].
  intros k s Hk. unfold commit in Hk.
  cbn [editStrategies with_editStrategies] in Hk.
  apply lookup_insert_Some in Hk as [[_ <-]|[_ Hk]];
    [congruence | exact (Hst3 _ _ Hk)].
Qed.

(** X17: no buffer pair and no strategy ever gets a checkpoint version, so
    every rejection rewinds to the version recorded when the pair was
    created. *)
Theorem no_checkpoint_is_recorded (sv : Services) (events : list Event) :
  let this := coordinator (run_system events (new_System sv)) in
  no_checkpoint this
  /\ forall (k : nat) (s : LiveStrategy),
       editStrategies this !! k = Some s ->
       cancel_target s = textModelNAltVersion (_models s).
Proof.
  cbn zeta.
  assert (Hno : no_checkpoint (coordinator (run_system events (new_System sv)))).
  { unfold run_system.
    assert (Hinit : no_checkpoint (coordinator (new_System sv))).
    { split; intros k x Hk; cbn in Hk; rewrite lookup_empty in Hk;
        discriminate. }
    revert Hinit. generalize (new_System sv).
    induction events as [|ev events IH]; intros sys Hsys; [exact Hsys|].
    cbn [fold_left]. apply IH.
    destruct ev as [responseVM request | i progress average | i | i];
      cbn [system_step].
    - destruct (sendEditRequest_frame responseVM request (coordinator sys))
        as (Ht & Hs & _).
      cbn [coordinator]. unfold no_checkpoint. rewrite Ht, Hs. exact Hsys.
    - unfold at_task. destruct (tasks sys !! i) as [task|]; [|exact Hsys].
      destruct (progressCallback_frame progress average (coordinator sys, task))
        as (Ht & Hs & _).
      cbn [coordinator fst] in *. unfold no_checkpoint. rewrite Ht, Hs.
      exact Hsys.
    - unfold at_task. destruct (tasks sys !! i) as [task|]; [|exact Hsys].
      cbn [coordinator]. unfold run_queue. cbn [fst snd].
      destruct (running task) as [[duration [|editOp rest]]|]; cbn [fst];
        try exact Hsys.
      pose proof (iteration_checkpoint (task_response task)
                    (Some (mkOpts duration (task_cancelled task)))
                    (coordinator sys) editOp Hsys) as Hit.
      destruct (_makeChanges_iteration _ _ _ _) as [this' [| |e]];
        cbn [fst snd] in *; exact Hit.
    - unfold at_task. destruct (tasks sys !! i) as [task|]; [|exact Hsys].
      destruct (settle_frame (coordinator sys, task)) as (Ht & Hs & _).
      cbn [coordinator fst] in *. unfold no_checkpoint. rewrite Ht, Hs.
      exact Hsys. }
  split; [exact Hno|].
  intros k s Hk. unfold cancel_target.
  destruct Hno as [_ Hs]. rewrite (Hs k s Hk). reflexivity.
Qed.

End Lifecycle.

Lemma strategies_outlive_requests_witness :
  keeps_bindings
    (coordinator
       (run_system (example_first_request ++ firstn 3 example_stream)
          (new_System example_services)))
    (coordinator
       (run_system
          ((example_first_request ++ firstn 3 example_stream)
           ++ [Settled 0; example_duplicate])
          (new_System example_services)))
  /\ keeps_responses
       (coordinator
          (run_system (example_first_request ++ firstn 3 example_stream)
             (new_System example_services)))
       (coordinator
          (run_system
             ((example_first_request ++ firstn 3 example_stream)
              ++ [Settled 0; example_duplicate])
             (new_System example_services))).
Proof.
  apply (strategies_outlive_requests example_services
           (example_first_request ++ firstn 3 example_stream)
           [Settled 0; example_duplicate]).
  intros k r Hk. cbn in Hk. rewrite lookup_empty in Hk. discriminate.
Defined.

(** ** First contact with a document, and rendering twice *)

Section FirstContact.
Context `{Host}.

Lemma obtainCodeEditor_succeeds (uri : URI) (this : ChatEditSessionService) :
  is_Some (findCodeEditor (services this) uri)
  \/ canOpen (services this) (uri_str uri) = true ->
  exists (this2 : ChatEditSessionService) (codeEditor : ICodeEditor),
    obtainCodeEditor uri this = (this2, Some codeEditor)
    /\ textModels this2 = textModels this
    /\ editStrategies this2 = editStrategies this
    /\ editCodeblockInProgress this2 = editCodeblockInProgress this.
Proof.
  intros Hview. unfold obtainCodeEditor, openCodeEditor.
  destruct (findCodeEditor (services this) uri) as [codeEditor|].
  - exists this, codeEditor. auto.
  - destruct Hview as [[? ?]| ->]; [discriminate|].
    do 2 eexists. split; [reflexivity|]. auto.
Qed.

(** X18: the first edit operation for a [URI] object the coordinator keeps
    nothing for, on a document that has a live buffer and an editor view:
    the loop goes on, and the coordinator now keeps a pair and a strategy for
    that object.  The snapshot of the pair holds the text the buffer had, and
    the pair records the alternative version it had; the strategy is on that
    pair, has counted one edit, and is bound to the code block that was marked
    as being edited when the operation ran. *)
Theorem first_contact_binds (response : IChatResponseViewModel)
    (opts : ProgressingEditsOptions) (this : ChatEditSessionService)
    (uri : URI) (edit : ISingleEditOperation) (m : TextModel) :
  textModels this !! uri_ref uri = None ->
  editStrategies this !! uri_ref uri = None ->
  getModel (services this) uri = Some m ->
  is_Some (findCodeEditor (services this) uri)
  \/ canOpen (services this) (uri_str uri) = true ->
  let result := _makeChanges_iteration response (Some opts) this (uri, edit) in
  snd result = Continue
  /\ exists (pair : ICSChatCodeblockTextModels) (s : LiveStrategy),
       textModels (fst result) !! uri_ref uri = Some pair
       /\ editStrategies (fst result) !! uri_ref uri = Some s
       /\ tm_content (textModel0 pair) = tm_content m
       /\ textModelNAltVersion pair = tm_alternativeVersionId m
       /\ textModelNSnapshotAltVersion pair = None
       /\ textModel0 (_models s) = textModel0 pair
       /\ textModelNAltVersion (_models s) = tm_alternativeVersionId m
       /\ _editCount s = 1
       /\ _editCodeblockInProgress s = activeEditCodeblockNumber this.
Proof.
  intros Hcache Hstrategy Hmodel Hview. cbn zeta.
  unfold _makeChanges_iteration, getTextModels. cbn [fst snd].
  rewrite Hcache, Hmodel. cbn [fst snd].
  set (pair := mkModels _ m (getAlternativeVersionId m) None).
  set (this1 := with_textModels _ _).
  destruct (obtainCodeEditor_succeeds uri this1 Hview)
    as (this2 & codeEditor & -> & Ht2 & Hs2 & Hm2).
  unfold obtainStrategy. rewrite Hs2.
  change (editStrategies this1) with (editStrategies this).
  rewrite Hstrategy. cbn [fst snd].
  set (new := new_LiveStrategy _ _ _ _ _).
  set (this3 := with_editStrategies _ this2).
  unfold changeAndRender. cbn [fst snd].
  set (s1 := makeProgressiveChanges [edit] opts (bind (services this3) new)).
  split; [reflexivity|].
  exists pair, (renderChanges s1). split_and!.
  - unfold commit.
    cbn [textModels with_editStrategies with_services].
    unfold this3. cbn [textModels with_editStrategies]. rewrite Ht2.
    unfold this1. cbn [textModels with_textModels]. apply lookup_insert_eq.
  - unfold commit. cbn [editStrategies with_editStrategies].
    apply lookup_insert_eq.
  - reflexivity.
  - reflexivity.
  - reflexivity.
  - rewrite renderChanges_models.
    destruct (run_call_binding (bind (services this3) new)
                (CallMakeProgressiveChanges [edit] opts)) as (_ & H0 & _).
    cbn [run_call] in H0. fold s1 in H0. rewrite H0. reflexivity.
  - rewrite renderChanges_models.
    destruct (run_call_binding (bind (services this3) new)
                (CallMakeProgressiveChanges [edit] opts)) as (_ & _ & Ha & _).
    cbn [run_call] in Ha. fold s1 in Ha. rewrite Ha. reflexivity.
  - rewrite renderChanges_count.
    pose proof (run_call_count (bind (services this3) new)
                  (CallMakeProgressiveChanges [edit] opts)) as Hc.
    cbn [run_call] in Hc. fold s1 in Hc. rewrite Hc. reflexivity.
  - destruct (renderChanges_binding s1) as (-> & _).
    destruct (run_call_binding (bind (services this3) new)
                (CallMakeProgressiveChanges [edit] opts)) as (Hb & _).
    cbn [run_call] in Hb. fold s1 in Hb. rewrite Hb.
    cbn [bind _editCodeblockInProgress with_response with_editor with_modelN
         new new_LiveStrategy].
    unfold activeEditCodeblockNumber. rewrite Hm2. reflexivity.
Qed.


End FirstContact.

Lemma first_contact_binds_witness :
  exists (pair : ICSChatCodeblockTextModels) (s : LiveStrategy),
    editStrategies
      (fst (_makeChanges_iteration example_response (Some (mkOpts 100 false))
              (fst (sendEditRequest example_response (example_request 7)
                      example_coordinator))
              (example_uri, example_edit "x"))) !! 0%nat = Some s
    /\ tm_content (textModel0 pair) = "one"
    /\ textModel0 (_models s) = textModel0 pair
    /\ _editCount s = 1
    /\ _editCodeblockInProgress s = Some 7.
Proof.
  destruct (first_contact_binds example_response (mkOpts 100 false)
              (fst (sendEditRequest example_response (example_request 7)
                      example_coordinator))
              example_uri (example_edit "x") (example_model example_uri "one")
              eq_refl eq_refl eq_refl (or_intror eq_refl))
    as (_ & pair & s & _ & Hs & Hc & _ & _ & H0 & _ & Hn & Hb).
  exists pair, s. split_and!; assumption.
Defined.
